(** * rxiv_paper_scraper: connection pool, rate limiter and download pipeline

    A shallow embedding of
    - [arxiv_scraper/utils/rate_limiter.py]          (module [RateLimiter]),
    - [arxiv_scraper/database/agent_pool_manager.py] (module [Pool]),
    - [arxiv_scraper/scraper/pdf_downloader.py]      (modules [StorageManager]
      and [PDFDownloader]),
    - [arxiv_scraper/downloader_agent.py]            (module [Agent]),
    - [arxiv_scraper/mcp_servers/client_manager.py]  (module [MCP]),
    followed by the properties proved about them.

    Conventions.
    - Python [int] is [Z]; Python [float] (clock readings, delays, sizes in
      GB, percentages) is [Q], i.e. arithmetic is exact: rounding of binary
      floating point is not represented.
    - A Python [dict] is an association list in insertion order ([dict_get],
      [dict_set], [dict_del]); iteration order matters for the tie-break of
      preemption and for which connection is the first of an agent.
    - Values the code obtains from its environment (clock readings, the
      connection id string, the client object returned by the connector, the
      HTTP response) are arguments of the embedded functions.
    - An exception is a value of [Exc]; mutations made before a [raise]
      persist, as in Python.
    - The tasks of a batch run on the event loop of [asyncio] (module
      [Asyncio]): a task is the point at which its coroutine is suspended,
      and the order in which the loop resumes the tasks that can continue
      is a parameter of the batch functions, the [schedule]. Every order
      the event loop can take is among the schedules. *)

From Stdlib Require Import ZArith QArith Qminmax Qround List Bool Lia Lqa.
From Stdlib Require Import Strings.String Strings.Ascii Strings.Byte.
From Stdlib Require Import DecimalString Permutation.
Import ListNotations.

Open Scope string_scope.
Open Scope Z_scope.

(** ** Python scalars *)

(** [a < b] and [a >= b] on floats. *)
Definition Qlt_bool (a b : Q) : bool :=
  match Qcompare a b with Lt => true | _ => false end.

Definition Qge_bool (a b : Q) : bool := Qle_bool b a.

(** [x or default] for an [Optional[int]]: [None] and [0] are falsy. *)
Definition py_or (x : option Z) (default : Z) : Z :=
  match x with
  | Some v => if v =? 0 then default else v
  | None => default
  end.

(** ** Python dictionaries with string keys, in insertion order *)

Section Dict.
Context {V : Type}.

Definition Dict := list (string * V).

Fixpoint dict_get (k : string) (d : Dict) : option V :=
  match d with
  | [] => None
  | (k', v) :: d' => if String.eqb k' k then Some v else dict_get k d'
  end.

Definition dict_mem (k : string) (d : Dict) : bool :=
  match dict_get k d with Some _ => true | None => false end.

(** [d[k] = v]: an existing key keeps its position, a new key goes last. *)
Fixpoint dict_set (k : string) (v : V) (d : Dict) : Dict :=
  match d with
  | [] => [(k, v)]
  | (k', v') :: d' =>
      if String.eqb k' k then (k, v) :: d' else (k', v') :: dict_set k v d'
  end.

(** [del d[k]] (callers test membership first). *)
Fixpoint dict_del (k : string) (d : Dict) : Dict :=
  match d with
  | [] => []
  | (k', v') :: d' =>
      if String.eqb k' k then d' else (k', v') :: dict_del k d'
  end.

Definition dict_keys (d : Dict) : list string := map fst d.
Definition dict_values (d : Dict) : list V := map snd d.
End Dict.

Arguments Dict : clear implicits.

(** ** [list.sort(key=...)]

    Python's sort is stable. [lt x y] says that the key of [x] is strictly
    before the key of [y]; an element is placed before the first element
    that is not strictly before it. *)

Section StableSort.
Context {A : Type} (lt : A -> A -> bool).

Fixpoint insert_sorted (x : A) (l : list A) : list A :=
  match l with
  | [] => [x]
  | y :: l' => if lt y x then y :: insert_sorted x l' else x :: y :: l'
  end.

Definition stable_sort (l : list A) : list A :=
  fold_right insert_sorted [] l.
End StableSort.

(** ** Exceptions *)

Inductive Exc (A : Type) : Type :=
| Ok (a : A)
| Raise (msg : string).

Arguments Ok {A} a.
Arguments Raise {A} msg.

(** * utils/rate_limiter.py *)

Module RateLimiter.

Record t : Type := mk {
  delay : Q;
  last_call_time : Q
}.

(** [__init__]: [last_call_time = 0.0]; [burst_size] is stored and never
    read, and is left out. *)
Definition init (delay : Q) : t := mk delay 0.

(** [wait]: [current_time] is the reading of [time.time()] on entry,
    [stamp] the reading taken for [self.last_call_time] after the sleep.
    The first component is the argument of [asyncio.sleep] when it is
    awaited. *)
Definition wait (self : t) (current_time stamp : Q) : option Q * t :=
  let time_since_last_call := (current_time - last_call_time self)%Q in
  let slept :=
    if Qlt_bool time_since_last_call (delay self)
    then Some (delay self - time_since_last_call)%Q
    else None in
  (slept, mk (delay self) stamp).

Definition can_proceed (self : t) (current_time : Q) : bool * t :=
  let time_since_last_call := (current_time - last_call_time self)%Q in
  (Qge_bool time_since_last_call (delay self), self).

Definition time_until_next_call (self : t) (current_time : Q) : Q * t :=
  let time_since_last_call := (current_time - last_call_time self)%Q in
  if Qge_bool time_since_last_call (delay self)
  then (0%Q, self)
  else ((delay self - time_since_last_call)%Q, self).

(** Seconds for which a call of [wait] suspended its caller. *)
Definition suspended (slept : option Q) : Q :=
  match slept with Some w => w | None => 0%Q end.

End RateLimiter.

(** * database/agent_pool_manager.py *)

Module Pool.

Record AgentConnectionInfo : Type := mkInfo {
  agent_id : string;
  agent_type : string;
  connection_count : Z;
  last_activity : Q;
  max_connections : Z;
  priority : Z
}.

(** The [MongoClient] behind a connection. The pool only ever calls
    [close()] on it; [close_raises] says whether that call raises. *)
Record Client : Type := mkClient { close_raises : bool }.

Record t : Type := mk {
  total_max_connections : Z;
  cleanup_interval : Z;
  connection_timeout : Z;
  _agents : Dict AgentConnectionInfo;
  _connections : Dict (Dict Client);
  _active_connections : Z;
  _shutdown : bool
}.

(** [_agent_configs]: agent type -> (max_connections, priority). *)
Definition _agent_configs : Dict (Z * Z) :=
  [ ("crawler", (8, 2)); ("scraper", (10, 3)); ("downloader", (5, 2));
    ("database", (3, 4)); ("nlp", (4, 1)); ("monitoring", (2, 1));
    ("testing", (2, 1)); ("orchestrator", (3, 4)) ].

(** [__init__] (the defaults of the source are 50, 300 and 1800). *)
Definition init (total_max_connections cleanup_interval_seconds
                 connection_timeout_seconds : Z) : t :=
  mk total_max_connections cleanup_interval_seconds
     connection_timeout_seconds [] [] 0 false.

Definition with_agents (a : Dict AgentConnectionInfo) (self : t) : t :=
  mk (total_max_connections self) (cleanup_interval self)
     (connection_timeout self) a (_connections self)
     (_active_connections self) (_shutdown self).

Definition with_connections (c : Dict (Dict Client)) (self : t) : t :=
  mk (total_max_connections self) (cleanup_interval self)
     (connection_timeout self) (_agents self) c
     (_active_connections self) (_shutdown self).

Definition with_active (n : Z) (self : t) : t :=
  mk (total_max_connections self) (cleanup_interval self)
     (connection_timeout self) (_agents self) (_connections self)
     n (_shutdown self).

Definition with_count (n : Z) (i : AgentConnectionInfo) :=
  mkInfo (agent_id i) (agent_type i) n (last_activity i)
         (max_connections i) (priority i).

Definition with_activity (now : Q) (i : AgentConnectionInfo) :=
  mkInfo (agent_id i) (agent_type i) (connection_count i) now
         (max_connections i) (priority i).

(** The loop of [_close_agent_connections]: a client whose [close()]
    raises is logged and the counter is not decremented for it. *)
Definition close_all (conns : Dict Client) (active : Z) : Z :=
  fold_left
    (fun n kv => if close_raises (snd kv) then n else n - 1) conns active.

Definition _close_agent_connections (self : t) (agent_id : string) : t :=
  let self1 :=
    match dict_get agent_id (_connections self) with
    | Some conns =>
        with_connections (dict_del agent_id (_connections self))
          (with_active (close_all conns (_active_connections self)) self)
    | None => self
    end in
  if dict_mem agent_id (_agents self1)
  then with_agents (dict_del agent_id (_agents self1)) self1
  else self1.

(** [current_time - agent_info.last_activity > self.connection_timeout]. *)
Definition idle (self : t) (current_time : Q) (i : AgentConnectionInfo)
  : bool :=
  Qlt_bool (inject_Z (connection_timeout self))
           (current_time - last_activity i).

(** The loop of [_cleanup_idle_connections] over [list(self._agents.keys())].
    [self._agents[agent_id]] on a missing key is a [KeyError], which ends
    the sweep (the worker logs it). *)
Fixpoint sweep (keys : list string) (current_time : Q) (self : t) : t :=
  match keys with
  | [] => self
  | agent_id :: keys' =>
      match dict_get agent_id (_agents self) with
      | None => self
      | Some agent_info =>
          sweep keys' current_time
            (if idle self current_time agent_info
             then _close_agent_connections self agent_id
             else self)
      end
  end.

Definition _cleanup_idle_connections (self : t) (current_time : Q) : t :=
  sweep (dict_keys (_agents self)) current_time self.

Definition register_agent (self : t) (agent_id agent_type : string)
    (max_connections priority : option Z) (now : Q) : bool * t :=
  if dict_mem agent_id (_agents self) then (false, self)
  else
    let type_config := dict_get agent_type _agent_configs in
    let max_conn :=
      py_or max_connections
        (match type_config with Some c => fst c | None => 3 end) in
    let agent_priority :=
      py_or priority
        (match type_config with Some c => snd c | None => 1 end) in
    let agent_info :=
      mkInfo agent_id agent_type 0 now max_conn agent_priority in
    (true,
     with_connections (dict_set agent_id [] (_connections self))
       (with_agents (dict_set agent_id agent_info (_agents self)) self)).

(** Order of the sort key [(priority, last_activity)]: Python compares
    tuples lexicographically. *)
Definition key_lt (a b : AgentConnectionInfo) : bool :=
  (priority a <? priority b) ||
  ((priority a =? priority b) &&
   Qlt_bool (last_activity a) (last_activity b)).

Definition sort_by_key (l : list (string * AgentConnectionInfo)) :=
  stable_sort (fun x y => key_lt (snd x) (snd y)) l.

(** The candidates collected by [_try_free_connections_for_agent]. *)
Definition candidates (self : t) (requesting_agent_id : string)
    (requesting_agent : AgentConnectionInfo) :=
  filter
    (fun kv =>
       negb (String.eqb (fst kv) requesting_agent_id) &&
       (priority (snd kv) <? priority requesting_agent) &&
       (connection_count (snd kv) >? 1))
    (_agents self).

Definition _try_free_connections_for_agent (self : t)
    (requesting_agent_id : string) : bool * t :=
  match dict_get requesting_agent_id (_agents self) with
  | None => (false, self)
  | Some requesting_agent =>
      match sort_by_key (candidates self requesting_agent_id
                                    requesting_agent) with
      | [] => (false, self)
      | (agent_id, agent_info) :: _ =>
          let connections :=
            match dict_get agent_id (_connections self) with
            | Some c => c
            | None => []
            end in
          match connections with
          | [] => (false, self)
          | (conn_id, client) :: _ =>
              if close_raises client then (false, self)
              else
                (true,
                 with_active (_active_connections self - 1)
                   (with_agents
                      (dict_set agent_id
                         (with_count (connection_count agent_info - 1)
                                     agent_info)
                         (_agents self))
                      (with_connections
                         (dict_set agent_id (dict_del conn_id connections)
                                   (_connections self))
                         self)))
          end
      end
  end.

Definition _can_create_connection (self : t) (agent_id : string)
  : bool * t :=
  match dict_get agent_id (_agents self) with
  | None => (false, self)
  | Some agent_info =>
      if connection_count agent_info >=? max_connections agent_info
      then (false, self)
      else if _active_connections self >=? total_max_connections self
      then _try_free_connections_for_agent self agent_id
      else (true, self)
  end.

(** Outcome of entering [get_connection]. *)
Inductive AcquireResult : Type :=
| Acquired
| NotRegistered       (* ValueError: agent not registered *)
| CapacityError       (* RuntimeError: cannot create connection *)
| ConnectFailed       (* connector.connect() raised *)
| InternalError.      (* KeyError on the pool's own dictionaries *)

(** Entering [get_connection]: everything up to the [yield].
    [connection_id] is the string the code formats from the agent id, the
    thread ident and a clock reading; [connect] is what
    [connector.connect()] produced ([None] when it raised); [now] is the
    clock reading stored as [last_activity]. *)
Definition acquire (self : t) (agent_id connection_id : string)
    (connect : option Client) (now : Q) : AcquireResult * t :=
  if negb (dict_mem agent_id (_agents self)) then (NotRegistered, self)
  else
    let (ok, self1) := _can_create_connection self agent_id in
    if negb ok then (CapacityError, self1)
    else
      match connect with
      | None => (ConnectFailed, self1)
      | Some client =>
          match dict_get agent_id (_connections self1) with
          | None => (InternalError, self1)
          | Some conns =>
              let self2 :=
                with_connections
                  (dict_set agent_id (dict_set connection_id client conns)
                            (_connections self1)) self1 in
              match dict_get agent_id (_agents self2) with
              | None => (InternalError, self2)
              | Some info =>
                  (Acquired,
                   with_active (_active_connections self2 + 1)
                     (with_agents
                        (dict_set agent_id
                           (with_activity now
                              (with_count (connection_count info + 1) info))
                           (_agents self2))
                        self2))
              end
          end
      end.

(** Leaving [get_connection]: the [finally] block of a handle that holds
    [client]. An exception in it is logged and dropped, keeping what was
    mutated before it. *)
Definition release (self : t) (agent_id connection_id : string)
    (client : Client) : t :=
  match dict_get agent_id (_connections self) with
  | None => self
  | Some conns =>
      if dict_mem connection_id conns then
        if close_raises client then self
        else
          let self1 :=
            with_connections
              (dict_set agent_id (dict_del connection_id conns)
                        (_connections self)) self in
          match dict_get agent_id (_agents self1) with
          | None => self1
          | Some info =>
              with_active (_active_connections self1 - 1)
                (with_agents
                   (dict_set agent_id
                      (with_count (connection_count info - 1) info)
                      (_agents self1))
                   self1)
          end
      else self
  end.

Definition shutdown (self : t) : t :=
  let self1 :=
    fold_left _close_agent_connections (dict_keys (_agents self)) self in
  mk (total_max_connections self1) (cleanup_interval self1)
     (connection_timeout self1) [] [] 0 true.

(** The entry of one agent in the report of [get_pool_status]. *)
Record AgentStatus : Type := mkAgentStatus {
  status_type : string;
  status_connections : Z;
  status_max_connections : Z;
  status_priority : Z;
  status_last_activity : Q;
  status_idle_time : Q
}.

(** The report of [get_pool_status]. *)
Record PoolStatus : Type := mkPoolStatus {
  status_total_connections : Z;
  status_pool_max_connections : Z;
  status_registered_agents : Z;
  status_agents : Dict AgentStatus
}.

(** [get_pool_status]; [now] is the reading of [time.time()]. *)
Definition get_pool_status (self : t) (now : Q) : PoolStatus :=
  mkPoolStatus
    (_active_connections self) (total_max_connections self)
    (Z.of_nat (List.length (_agents self)))
    (map (fun kv =>
            (fst kv,
             mkAgentStatus
               (agent_type (snd kv)) (connection_count (snd kv))
               (max_connections (snd kv)) (priority (snd kv))
               (last_activity (snd kv))
               (now - last_activity (snd kv))%Q))
         (_agents self)).

(** The operations that mutate a pool. Each mutates under the pool lock,
    so a run of the pool is a sequence of them; preemption is part of an
    acquisition. (The registration test that opens [get_connection] reads
    [_agents] before the lock is taken; it is taken here as one step with
    the rest.) *)
Inductive Op : Type :=
| Register (agent_id agent_type : string)
           (max_connections priority : option Z) (now : Q)
| Acquire (agent_id connection_id : string) (connect : option Client)
          (now : Q)
| Release (agent_id connection_id : string) (client : Client)
| CleanupIdle (now : Q)
| Shutdown.

Definition step (self : t) (op : Op) : t :=
  match op with
  | Register a ty m p now => snd (register_agent self a ty m p now)
  | Acquire a c connect now => snd (acquire self a c connect now)
  | Release a c client => release self a c client
  | CleanupIdle now => _cleanup_idle_connections self now
  | Shutdown => shutdown self
  end.

Definition run (self : t) (ops : list Op) : t := fold_left step ops self.

(** [sum(agent.connection_count)] over the registered agents. *)
Definition total_count (agents : Dict AgentConnectionInfo) : Z :=
  fold_right (fun kv n => connection_count (snd kv) + n) 0 agents.

Definition connections_of (self : t) (agent_id : string) : Dict Client :=
  match dict_get agent_id (_connections self) with
  | Some c => c
  | None => []
  end.

(** The module-level singleton [_pool_manager] and the functions around it.
    [max_pool_size] is [settings.database.max_pool_size]. *)
Definition get_agent_pool_manager (_pool_manager : option t)
    (max_pool_size : Z) : t * option t :=
  match _pool_manager with
  | Some p => (p, Some p)
  | None =>
      let p := init max_pool_size 300 1800 in
      (p, Some p)
  end.

(** The module-level [register_agent(agent_id, agent_type)]. *)
Definition register_agent_global (_pool_manager : option t)
    (max_pool_size : Z) (agent_id agent_type : string) (now : Q)
  : bool * option t :=
  let (p, _) := get_agent_pool_manager _pool_manager max_pool_size in
  let (ok, p') := register_agent p agent_id agent_type None None now in
  (ok, Some p').

(** [shutdown_pool_manager]: the pool, if there is one, is shut down and
    the global is cleared. The first component is the global afterwards,
    the second the pool object that was shut down, which earlier callers of
    [get_agent_pool_manager] may still hold. *)
Definition shutdown_pool_manager (_pool_manager : option t)
  : option t * option t :=
  match _pool_manager with
  | Some p => (None, Some (shutdown p))
  | None => (None, None)
  end.

End Pool.


(** * asyncio: tasks gathered under a semaphore *)

(** The two batch functions build [asyncio.Semaphore(max_concurrent)], wrap
    every item in a coroutine that runs under [async with semaphore], and
    await [asyncio.gather] of these tasks with [return_exceptions=True].
    A coroutine is represented by the point at which it is suspended; the
    event loop resumes one task at a time, and a resumed task runs to its
    next suspension or to its end. Which of the tasks that can continue
    is resumed next is the event loop's choice, made by the order in which
    timers and replies come in: that choice is the [schedule], a list of
    numbers of which the next one picks among the tasks that can continue
    (a schedule that has run out picks the first). *)
Module Asyncio.

(** What awaiting a batch function comes to. *)
Inductive Outcome (A : Type) : Type :=
| Returns (a : A)
| Raises (msg : string)
| Hangs.

Arguments Returns {A} a.
Arguments Raises {A} msg.
Arguments Hangs {A}.

(** [Semaphore.__init__]. *)
Definition Semaphore (value : Z) : Exc Z :=
  if value <? 0 then Raise "Semaphore initial value must be >= 0"
  else Ok value.

(** [l[k] = x]. *)
Fixpoint list_set {A : Type} (k : nat) (x : A) (l : list A) : list A :=
  match l, k with
  | [], _ => []
  | _ :: l', O => x :: l'
  | y :: l', S k' => y :: list_set k' x l'
  end.

Section Gather.
Context {Task Shared R : Type}.

(** [resume] runs a task from the point where it is suspended to the next
    one; [result] is what a task that is over has returned or raised;
    [steps_left] bounds the number of times a task can still be resumed. *)
Variable resume : Task -> Shared -> Task * Shared.
Variable result : Task -> option (Exc R).
Variable steps_left : Task -> nat.

(** A task of the batch; [entered] says that it is past
    [semaphore.acquire()]. *)
Record Slot : Type := mkSlot {
  entered : bool;
  task : Task
}.

Definition over (sl : Slot) : bool :=
  match result (task sl) with
  | Some _ => true
  | None => false
  end.

(** The tasks inside [async with semaphore]: leaving the block releases
    the semaphore in the step that ends the task. *)
Definition holding (sl : Slot) : bool := entered sl && negb (over sl).

Definition semaphore_value (value : Z) (slots : list Slot) : Z :=
  value - Z.of_nat (List.length (filter holding slots)).

(** The positions of the tasks that can continue: those inside the block,
    and, when the semaphore is not locked, the first of those waiting for
    it (tasks are started, and so queue up, in the order of the list). *)
Fixpoint ready_from (free : bool) (i : nat) (slots : list Slot)
  : list nat :=
  match slots with
  | [] => []
  | sl :: slots' =>
      if over sl then ready_from free (S i) slots'
      else if entered sl then i :: ready_from free (S i) slots'
      else if free then i :: ready_from false (S i) slots'
      else ready_from false (S i) slots'
  end.

Definition ready (value : Z) (slots : list Slot) : list nat :=
  ready_from (0 <? semaphore_value value slots) O slots.

Definition advance (k : nat) (slots : list Slot) (s : Shared)
  : list Slot * Shared :=
  match nth_error slots k with
  | Some sl =>
      let (t', s') := resume (task sl) s in
      (list_set k (mkSlot true t') slots, s')
  | None => (slots, s)
  end.

(** The event loop, until no task can continue. *)
Fixpoint run (fuel : nat) (schedule : list nat) (value : Z)
    (slots : list Slot) (s : Shared) : list Slot * Shared :=
  match fuel with
  | O => (slots, s)
  | S fuel' =>
      match ready value slots with
      | [] => (slots, s)
      | (k0 :: _) as candidates =>
          let choice :=
            (hd O schedule mod List.length candidates)%nat in
          let (slots', s') :=
            advance (nth choice candidates k0) slots s in
          run fuel' (tl schedule) value slots' s'
      end
  end.

(** What the tasks have returned or raised, when all of them are over. *)
Fixpoint results (slots : list Slot) : option (list (Exc R)) :=
  match slots with
  | [] => Some []
  | sl :: slots' =>
      match result (task sl), results slots' with
      | Some r, Some rs => Some (r :: rs)
      | _, _ => None
      end
  end.

Definition tasks_of (slots : list Slot) : list Task := map task slots.

(** A bound on the number of steps that the event loop can still take. *)
Definition work_left (slots : list Slot) : nat :=
  list_sum (map steps_left (tasks_of slots)).

(** [asyncio.gather] with [return_exceptions=True] over tasks under a
    semaphore of the given value: one outcome per task, in the order of
    the tasks; when tasks are left that can never continue, the future is
    never resolved. *)
Definition gather (schedule : list nat) (value : Z) (tasks : list Task)
    (s : Shared) : Outcome (list (Exc R)) * Shared :=
  let slots := map (mkSlot false) tasks in
  let (slots', s') := run (work_left slots) schedule value slots s in
  match results slots' with
  | Some rs => (Returns rs, s')
  | None => (Hangs, s')
  end.

End Gather.

End Asyncio.
(** * Strings, bytes and the environment of the download pipeline *)

(** ** Python string methods (ASCII) *)

Definition string_of_Z (z : Z) : string :=
  NilZero.string_of_int (Z.to_int z).

(** [s.endswith(suffix)]. *)
Definition ends_with (suffix s : string) : bool :=
  let n := String.length s in
  let m := String.length suffix in
  (m <=? n)%nat && String.eqb (substring (n - m) m s) suffix.

(** [c in s]. *)
Fixpoint contains (c : ascii) (s : string) : bool :=
  match s with
  | EmptyString => false
  | String c' s' => Ascii.eqb c' c || contains c s'
  end.

(** [s.split(sep)[0]]. *)
Fixpoint first_segment (sep : ascii) (s : string) : string :=
  match s with
  | EmptyString => EmptyString
  | String c s' =>
      if Ascii.eqb c sep then EmptyString
      else String c (first_segment sep s')
  end.

(** [s.split(sep)[-1]]; [cur] is the segment read so far. *)
Fixpoint last_segment_from (sep : ascii) (s cur : string) : string :=
  match s with
  | EmptyString => cur
  | String c s' =>
      if Ascii.eqb c sep then last_segment_from sep s' EmptyString
      else last_segment_from sep s' (cur ++ String c EmptyString)
  end.

Definition last_segment (sep : ascii) (s : string) : string :=
  last_segment_from sep s EmptyString.

Definition in_range (lo hi : nat) (c : ascii) : bool :=
  let n := nat_of_ascii c in ((lo <=? n) && (n <=? hi))%nat.

(** [c.isalnum()] and [c.lower()] on ASCII characters. *)
Definition is_alnum (c : ascii) : bool :=
  in_range 48 57 c || in_range 65 90 c || in_range 97 122 c.

Definition lower (c : ascii) : ascii :=
  if in_range 65 90 c then ascii_of_nat (nat_of_ascii c + 32) else c.

Fixpoint string_filter (f : ascii -> bool) (s : string) : string :=
  match s with
  | EmptyString => EmptyString
  | String c s' =>
      if f c then String c (string_filter f s') else string_filter f s'
  end.

(** [data.startswith(prefix)] on bytes. *)
Fixpoint starts_with (prefix data : list byte) : bool :=
  match prefix, data with
  | [], _ => true
  | _ :: _, [] => false
  | p :: prefix', d :: data' => Byte.eqb p d && starts_with prefix' data'
  end.

(** [b"%PDF-"] and [b"%PDF"]. *)
Definition pdf_magic : list byte := list_byte_of_string "%PDF-".
Definition pdf_magic4 : list byte := list_byte_of_string "%PDF".

(** ** The hash function

    [hashlib.md5] is used through [md5()], [update(chunk)] and
    [hexdigest()]; the embedding is parametric in it. *)

Class Hasher : Type := {
  hash_state : Type;
  hash_new : hash_state;
  hash_update : hash_state -> list byte -> hash_state;
  hash_hexdigest : hash_state -> string
}.

(** ** The file system below the storage root

    An entry is a regular file with its content and modification time, or a
    name that is listed by a directory walk but cannot be stat'ed (a broken
    symbolic link). The order of the entries is the order in which
    [os.walk] and [Path.rglob] enumerate them. *)

Module FS.

Inductive Node : Type :=
| File (data : list byte) (mtime : Q)
| Dangling.

Definition t : Type := Dict Node.

(** [Path.exists()] and [Path.is_file()] follow symbolic links. *)
Definition is_file (fs : t) (path : string) : bool :=
  match dict_get path fs with
  | Some (File _ _) => true
  | _ => false
  end.

(** [os.path.getsize] / [Path.stat().st_size]. *)
Definition node_size (n : Node) : Exc Z :=
  match n with
  | File data _ => Ok (Z.of_nat (List.length data))
  | Dangling => Raise "FileNotFoundError"
  end.

Definition getsize (fs : t) (path : string) : Exc Z :=
  match dict_get path fs with
  | Some n => node_size n
  | None => Raise "FileNotFoundError"
  end.

Definition read (fs : t) (path : string) : Exc (list byte) :=
  match dict_get path fs with
  | Some (File data _) => Ok data
  | _ => Raise "FileNotFoundError"
  end.

(** [open(path, "wb")]: the file is created or truncated. *)
Definition create (fs : t) (path : string) (now : Q) : t :=
  dict_set path (File [] now) fs.

(** [file.write(chunk)] on a file opened for writing. *)
Definition append (fs : t) (path : string) (chunk : list byte) (now : Q)
  : t :=
  match dict_get path fs with
  | Some (File data _) => dict_set path (File (data ++ chunk) now) fs
  | _ => fs
  end.

(** [Path.unlink()]. *)
Definition unlink (fs : t) (path : string) : Exc t :=
  if dict_mem path fs then Ok (dict_del path fs)
  else Raise "FileNotFoundError".

(** [Path.rglob("*.pdf")] filtered by [is_file()]: path, content and
    modification time of the regular files named [*.pdf]. A path ends in
    [.pdf] exactly when its last component does. *)
Fixpoint pdf_files (fs : t) : list (string * (list byte * Q)) :=
  match fs with
  | [] => []
  | (path, File data mtime) :: fs' =>
      if ends_with ".pdf" path then (path, (data, mtime)) :: pdf_files fs'
      else pdf_files fs'
  | (_, Dangling) :: fs' => pdf_files fs'
  end.

End FS.

(** ** HTTP and the fetch service *)

(** What [session.get(url)] delivers: status line, the headers the code
    reads ([content_length] already parsed, [None] when absent), the body in
    the chunks of [iter_chunked], and the exception that ends the stream
    after them, if any. *)
Record Response : Type := mkResponse {
  status : Z;
  reason : string;
  content_type : string;
  content_length : option Z;
  chunks : list (list byte);
  stream_error : option string
}.

Inductive HttpOutcome : Type :=
| HttpError (msg : string)      (* session.get raised *)
| HttpTimeout                   (* asyncio.TimeoutError *)
| HttpResponse (r : Response).

(** What [mcp_manager.call_tool("fetch", "fetch_url", ...)] delivers: an
    exception, or a reply with its [success] and [error] entries and the
    content the service saved at the requested path, if it saved any. *)
Inductive McpOutcome : Type :=
| McpRaise (msg : string)
| McpReply (success : bool) (error : option string)
           (saved : option (list byte)).

Record Env : Type := mkEnv {
  http : string -> HttpOutcome;
  mcp_connected : bool;
  mcp_fetch : string -> McpOutcome
}.

(** The part of the world the pipeline reads and writes: the storage tree,
    the clock, the requests sent so far, and what [os.statvfs] reports as
    free bytes ([None] when it raises). *)
Record World : Type := mkWorld {
  fs : FS.t;
  clock : Q;
  requests : list string;
  disk_free : option Z
}.

Definition with_fs (f : FS.t) (w : World) : World :=
  mkWorld f (clock w) (requests w) (disk_free w).

Definition with_clock (t : Q) (w : World) : World :=
  mkWorld (fs w) t (requests w) (disk_free w).

Definition with_request (url : string) (w : World) : World :=
  mkWorld (fs w) (clock w) (requests w ++ [url]) (disk_free w).

(** [await self.rate_limiter.wait()]: the clock moves on by the time slept
    and the limiter stores the reading after it. *)
Definition rate_limit (rl : RateLimiter.t) (w : World)
  : RateLimiter.t * World :=
  let slept :=
    RateLimiter.suspended (fst (RateLimiter.wait rl (clock w) (clock w))) in
  let now := (clock w + slept)%Q in
  (snd (RateLimiter.wait rl (clock w) now), with_clock now w).

(** * scraper/pdf_downloader.py *)

Module StorageManager.

Record t : Type := mk {
  base_path : string;
  max_storage_bytes : Z
}.

Definition init (base_path : string) (max_storage_gb : Z) : t :=
  mk base_path (max_storage_gb * 1024 * 1024 * 1024).

(** The loop of [get_current_storage_usage] over the walk of the tree. *)
Fixpoint walk_usage (entries : FS.t) (total_size : Z) : Exc Z :=
  match entries with
  | [] => Ok total_size
  | (filepath, node) :: entries' =>
      if ends_with ".pdf" filepath then
        match FS.node_size node with
        | Ok n => walk_usage entries' (total_size + n)
        | Raise e => Raise e
        end
      else walk_usage entries' total_size
  end.

Definition get_current_storage_usage (self : t) (fs : FS.t) : Z :=
  match walk_usage fs 0 with
  | Ok total_size => total_size
  | Raise _ => 0
  end.

Definition can_store_file (self : t) (fs : FS.t) (file_size : Z) : bool :=
  get_current_storage_usage self fs + file_size <=? max_storage_bytes self.

Definition safe_char (c : ascii) : bool :=
  is_alnum c || Ascii.eqb c "." || Ascii.eqb c "-" || Ascii.eqb c "_".

(** [get_paper_file_path]; the directories it creates on the way are not
    represented. *)
Definition get_paper_file_path (self : t) (paper_id source : string)
  : string :=
  let safe_id := string_filter safe_char paper_id in
  if String.eqb source "arxiv" then
    if contains "." paper_id then
      base_path self ++ "/arxiv/" ++ first_segment "." paper_id ++ "/"
        ++ safe_id ++ ".pdf"
    else base_path self ++ "/arxiv/" ++ safe_id ++ ".pdf"
  else base_path self ++ "/" ++ source ++ "/" ++ safe_id ++ ".pdf".

(** The loop of [cleanup_old_files] over the walk of the tree: [entries]
    is what is left of the walk, [fs] the tree as it is by now.
    [os.path.getmtime] raises on a name that cannot be stat'ed; the
    exception ends the walk and the count so far is returned. *)
Fixpoint cleanup_walk (entries : FS.t) (cutoff_time : Q) (fs : FS.t)
    (removed_count : Z) : FS.t * Z :=
  match entries with
  | [] => (fs, removed_count)
  | (file_path, node) :: entries' =>
      if ends_with ".pdf" file_path then
        match node with
        | FS.File _ mtime =>
            if Qlt_bool mtime cutoff_time
            then cleanup_walk entries' cutoff_time (dict_del file_path fs)
                              (removed_count + 1)
            else cleanup_walk entries' cutoff_time fs removed_count
        | FS.Dangling => (fs, removed_count)
        end
      else cleanup_walk entries' cutoff_time fs removed_count
  end.

(** [cleanup_old_files(days_threshold)]; [now] is
    [datetime.now().timestamp()]. *)
Definition cleanup_old_files (self : t) (fs : FS.t) (now : Q)
    (days_threshold : Z) : FS.t * Z :=
  let cutoff_time := (now - inject_Z (days_threshold * 24 * 60 * 60))%Q in
  cleanup_walk fs cutoff_time fs 0.

End StorageManager.

Module PDFDownloader.

Record Stats : Type := mkStats {
  attempted : Z;
  successful : Z;
  failed : Z;
  skipped_storage : Z;
  bytes_downloaded : Z
}.

Record t : Type := mk {
  storage : StorageManager.t;
  rate_limiter : RateLimiter.t;
  stats : Stats
}.

Definition init (storage : StorageManager.t) (rate_limit_delay : Q) : t :=
  mk storage (RateLimiter.init rate_limit_delay) (mkStats 0 0 0 0 0).

Definition with_rate_limiter (rl : RateLimiter.t) (self : t) : t :=
  mk (storage self) rl (stats self).

Definition with_stats (st : Stats) (self : t) : t :=
  mk (storage self) (rate_limiter self) st.

(** The dictionary a paper is described by; the three keys the
    downloader indexes may be missing, as may the three it writes.
    [others] are the entries it never touches. *)
Record Paper : Type := mkPaper {
  paper_id : option string;
  pdf_url : option string;
  source : option string;
  pdf_downloaded : option bool;
  pdf_file_path : option string;
  pdf_file_size : option Z;
  others : Dict string
}.

(** [paper_data.update({"pdf_downloaded": True, ...})]. *)
Definition mark_downloaded (path : string) (size : Z) (p : Paper) : Paper :=
  mkPaper (paper_id p) (pdf_url p) (source p) (Some true) (Some path)
          (Some size) (others p).

(** The dictionary returned by [_download_file]. *)
Inductive FileResult : Type :=
| Success (file_size : Z) (md5_hash : string)
| Failure (error : string).

(** [_validate_pdf_file]: at least 1000 bytes, and the first 8 bytes
    start with [%PDF-]; an exception counts as invalid. *)
Definition valid_pdf (data : list byte) : bool :=
  if Z.of_nat (List.length data) <? 1000 then false
  else starts_with pdf_magic (firstn 8 data).

Definition _validate_pdf_file (fs : FS.t) (file_path : string) : bool :=
  match dict_get file_path fs with
  | Some (FS.File data _) => valid_pdf data
  | _ => false
  end.

Section WithHasher.
Context {H : Hasher}.

(** The loop over [response.content.iter_chunked(8192)]: write, count,
    hash, and give up with the file removed when the store is over its
    limit. *)
Fixpoint write_chunks (self : t) (chunks : list (list byte))
    (file_path : string) (w : World) (total_size : Z) (h : hash_state)
  : option string * World * Z * hash_state :=
  match chunks with
  | [] => (None, w, total_size, h)
  | chunk :: chunks' =>
      let w1 :=
        with_fs (FS.append (fs w) file_path chunk (clock w)) w in
      let total_size := total_size + Z.of_nat (List.length chunk) in
      let h := hash_update h chunk in
      if negb (StorageManager.can_store_file (storage self) (fs w1) 0)
      then (Some "Storage limit exceeded during download",
            with_fs (dict_del file_path (fs w1)) w1, total_size, h)
      else write_chunks self chunks' file_path w1 total_size h
  end.

Definition _download_file (self : t) (env : Env) (w : World)
    (url file_path : string) : FileResult * t * World :=
  let (rl, w0) := rate_limit (rate_limiter self) w in
  let self1 := with_rate_limiter rl self in
  let w1 := with_request url w0 in
  match http env url with
  | HttpError msg => (Failure msg, self1, w1)
  | HttpTimeout => (Failure "Download timeout", self1, w1)
  | HttpResponse response =>
      if negb (status response =? 200) then
        (Failure ("HTTP " ++ string_of_Z (status response) ++ ": "
                    ++ reason response), self1, w1)
      else
        let expected_size := content_length response in
        let no_space :=
          match expected_size with
          | Some n =>
              negb (n =? 0) &&
              negb (StorageManager.can_store_file
                      (storage self1) (fs w1) n)
          | None => false
          end in
        if no_space then
          (Failure ("Insufficient storage space for file ("
                      ++ string_of_Z (py_or expected_size 0)
                      ++ " bytes)"), self1, w1)
        else
          let w2 := with_fs (FS.create (fs w1) file_path (clock w1)) w1 in
          let '(abort, w3, total_size, h) :=
            write_chunks self1 (chunks response) file_path w2 0
                         hash_new in
          match abort with
          | Some error => (Failure error, self1, w3)
          | None =>
              match stream_error response with
              | Some error => (Failure error, self1, w3)
              | None =>
                  if negb (_validate_pdf_file (fs w3) file_path) then
                    (Failure "Downloaded file is not a valid PDF", self1,
                     with_fs (dict_del file_path (fs w3)) w3)
                  else
                    (Success total_size (hash_hexdigest h), self1, w3)
              end
          end
  end.

Definition bump_attempted (s : Stats) : Stats :=
  mkStats (attempted s + 1) (successful s) (failed s)
          (skipped_storage s) (bytes_downloaded s).

Definition bump_failed (s : Stats) : Stats :=
  mkStats (attempted s) (successful s) (failed s + 1)
          (skipped_storage s) (bytes_downloaded s).

Definition bump_successful (size : Z) (s : Stats) : Stats :=
  mkStats (attempted s) (successful s + 1) (failed s)
          (skipped_storage s) (bytes_downloaded s + size).

(** [download_paper]. Indexing a missing key raises [KeyError] before
    the [try] block is entered. *)
Definition download_paper (self : t) (env : Env) (w : World)
    (paper_data : Paper) : Exc Paper * t * World :=
  match paper_id paper_data with
  | None => (Raise "KeyError: 'paper_id'", self, w)
  | Some id =>
  match pdf_url paper_data with
  | None => (Raise "KeyError: 'pdf_url'", self, w)
  | Some url =>
  match source paper_data with
  | None => (Raise "KeyError: 'source'", self, w)
  | Some src =>
      let self1 := with_stats (bump_attempted (stats self)) self in
      if match pdf_downloaded paper_data with
         | Some b => b
         | None => false
         end
      then (Ok paper_data, self1, w)
      else
        let file_path :=
          StorageManager.get_paper_file_path (storage self1) id src in
        let on_disk :=
          match dict_get file_path (fs w) with
          | Some (FS.File data _) =>
              let file_size := Z.of_nat (List.length data) in
              if file_size >? 1000 then Some file_size else None
          | _ => None
          end in
        match on_disk with
        | Some file_size =>
            (Ok (mark_downloaded file_path file_size paper_data),
             self1, w)
        | None =>
            let '(download_result, self2, w2) :=
              _download_file self1 env w url file_path in
            match download_result with
            | Success file_size _ =>
                (Ok (mark_downloaded file_path file_size paper_data),
                 with_stats (bump_successful file_size (stats self2))
                            self2,
                 w2)
            | Failure _ =>
                (Ok paper_data,
                 with_stats (bump_failed (stats self2)) self2, w2)
            end
        end
  end end end.

(** ** The batch *)

(** The paper records are dictionaries that [download_paper] updates in
    place and returns: a record is named by its identity, the [Heap] holds
    what each one contains, and a list of papers is a list of identities,
    in which the same record may occur more than once. *)
Definition Heap : Type := nat -> Paper.

Definition heap_set (paper : nat) (p : Paper) (heap : Heap) : Heap :=
  fun k => if Nat.eqb k paper then p else heap k.

(** The coroutine [download_with_semaphore(paper)], which is
    [download_paper(paper)] under the semaphore, at the points where it is
    suspended: before it has started, in the sleep of the rate limiter,
    waiting for the reply of the server, between two chunks of the body,
    closing the file that it gives up, and over. The written file is
    validated in one piece. *)
Inductive Download : Type :=
| Start (paper : nat)
| Sleeping (paper : nat) (url file_path : string) (wake : Q)
| Getting (paper : nat) (url file_path : string)
| Writing (paper : nat) (file_path : string) (rest : list (list byte))
          (stream_error : option string) (total_size : Z)
          (hash_md5 : hash_state)
| Closing (paper : nat) (file_path : string)
| Over (paper : nat) (r : Exc nat).

Definition Shared : Type := (t * World * Heap)%type.

(** [download_paper] from the return of [_download_file] on. *)
Definition downloaded (paper : nat) (file_path : string)
    (download_result : FileResult) (self : t) (w : World) (heap : Heap)
  : Download * Shared :=
  match download_result with
  | Success file_size _ =>
      (Over paper (Ok paper),
       (with_stats (bump_successful file_size (stats self)) self, w,
        heap_set paper (mark_downloaded file_path file_size (heap paper))
                 heap))
  | Failure _ =>
      (Over paper (Ok paper),
       (with_stats (bump_failed (stats self)) self, w, heap))
  end.

(** [_download_file] from the assignment of [last_call_time] in
    [rate_limiter.wait] to the request. *)
Definition after_wait (paper : nat) (url file_path : string) (self : t)
    (w : World) (heap : Heap) : Download * Shared :=
  (Getting paper url file_path,
   (with_rate_limiter
      (snd (RateLimiter.wait (rate_limiter self) (clock w) (clock w)))
      self,
    with_request url w, heap)).

(** A task of the batch, resumed. The clock stands still except in a
    sleep: a task that slept is resumed at the time it asked for or
    later. *)
Definition resume (env : Env) (d : Download) (st : Shared)
  : Download * Shared :=
  let '(self, w, heap) := st in
  match d with
  | Start paper =>
      let paper_data := heap paper in
      match paper_id paper_data with
      | None => (Over paper (Raise "KeyError: 'paper_id'"), st)
      | Some id =>
      match pdf_url paper_data with
      | None => (Over paper (Raise "KeyError: 'pdf_url'"), st)
      | Some url =>
      match source paper_data with
      | None => (Over paper (Raise "KeyError: 'source'"), st)
      | Some src =>
          let self1 := with_stats (bump_attempted (stats self)) self in
          if match pdf_downloaded paper_data with
             | Some b => b
             | None => false
             end
          then (Over paper (Ok paper), (self1, w, heap))
          else
            let file_path :=
              StorageManager.get_paper_file_path (storage self1) id src in
            let on_disk :=
              match dict_get file_path (fs w) with
              | Some (FS.File data _) =>
                  let file_size := Z.of_nat (List.length data) in
                  if file_size >? 1000 then Some file_size else None
              | _ => None
              end in
            match on_disk with
            | Some file_size =>
                (Over paper (Ok paper),
                 (self1, w,
                  heap_set paper
                    (mark_downloaded file_path file_size paper_data) heap))
            | None =>
                match fst (RateLimiter.wait (rate_limiter self1) (clock w)
                                            (clock w)) with
                | Some wait_time =>
                    (Sleeping paper url file_path (clock w + wait_time)%Q,
                     (self1, w, heap))
                | None => after_wait paper url file_path self1 w heap
                end
            end
      end end end
  | Sleeping paper url file_path wake =>
      after_wait paper url file_path self
                 (with_clock (Qmax (clock w) wake) w) heap
  | Getting paper url file_path =>
      match http env url with
      | HttpError msg => downloaded paper file_path (Failure msg) self w heap
      | HttpTimeout =>
          downloaded paper file_path (Failure "Download timeout") self w
                     heap
      | HttpResponse response =>
          if negb (status response =? 200) then
            downloaded paper file_path
              (Failure ("HTTP " ++ string_of_Z (status response) ++ ": "
                          ++ reason response)) self w heap
          else
            let expected_size := content_length response in
            let no_space :=
              match expected_size with
              | Some n =>
                  negb (n =? 0) &&
                  negb (StorageManager.can_store_file
                          (storage self) (fs w) n)
              | None => false
              end in
            if no_space then
              downloaded paper file_path
                (Failure ("Insufficient storage space for file ("
                            ++ string_of_Z (py_or expected_size 0)
                            ++ " bytes)")) self w heap
            else
              (Writing paper file_path (chunks response)
                       (stream_error response) 0 hash_new,
               (self, with_fs (FS.create (fs w) file_path (clock w)) w,
                heap))
      end
  | Writing paper file_path (chunk :: rest) stream_error total_size h =>
      let w1 :=
        with_fs (FS.append (fs w) file_path chunk (clock w)) w in
      let total_size := total_size + Z.of_nat (List.length chunk) in
      let h := hash_update h chunk in
      if negb (StorageManager.can_store_file (storage self) (fs w1) 0)
      then (Closing paper file_path, (self, w1, heap))
      else
        (Writing paper file_path rest stream_error total_size h,
         (self, w1, heap))
  | Writing paper file_path [] stream_error total_size h =>
      match stream_error with
      | Some error => downloaded paper file_path (Failure error) self w heap
      | None =>
          if negb (_validate_pdf_file (fs w) file_path) then
            downloaded paper file_path
              (Failure "Downloaded file is not a valid PDF") self
              (with_fs (dict_del file_path (fs w)) w) heap
          else
            downloaded paper file_path
              (Success total_size (hash_hexdigest h)) self w heap
      end
  | Closing paper file_path =>
      downloaded paper file_path
        (Failure "Storage limit exceeded during download") self
        (with_fs (dict_del file_path (fs w)) w) heap
  | Over _ _ => (d, st)
  end.

Definition result (d : Download) : option (Exc nat) :=
  match d with
  | Over _ r => Some r
  | _ => None
  end.

(** The number of chunks in which the body for [url] comes. *)
Definition body_chunks (env : Env) (url : string) : nat :=
  match http env url with
  | HttpResponse response => List.length (chunks response)
  | _ => O
  end.

(** The url that a record not yet looked at will be fetched from. *)
Definition url_of (heap : Heap) (paper : nat) : string :=
  match pdf_url (heap paper) with
  | Some url => url
  | None => EmptyString
  end.

Definition steps_left (env : Env) (heap : Heap) (d : Download) : nat :=
  match d with
  | Start paper => 5 + body_chunks env (url_of heap paper)
  | Sleeping _ url _ _ => 4 + body_chunks env url
  | Getting _ url _ => 3 + body_chunks env url
  | Writing _ _ rest _ _ _ => 2 + List.length rest
  | Closing _ _ => 1
  | Over _ _ => 0
  end%nat.

(** The loop that replaces a raised exception by the paper it was
    raised for. *)
Fixpoint valid_papers (papers : list nat)
    (updated_papers : list (Exc nat)) : list nat :=
  match papers, updated_papers with
  | paper :: papers', result :: results' =>
      match result with
      | Raise _ => paper
      | Ok updated => updated
      end :: valid_papers papers' results'
  | _, _ => []
  end.

(** [download_papers_batch]. The semaphore is built first, and refuses a
    negative value; with the value 0 no task ever gets past it. *)
Definition download_papers_batch (self : t) (env : Env) (w : World)
    (heap : Heap) (papers : list nat) (max_concurrent : Z)
    (schedule : list nat)
  : Asyncio.Outcome (list nat) * t * World * Heap :=
  match Asyncio.Semaphore max_concurrent with
  | Raise e => (Asyncio.Raises e, self, w, heap)
  | Ok value =>
      let '(gathered, (self1, w1, heap1)) :=
        Asyncio.gather (resume env) result (steps_left env heap) schedule
                       value (map Start papers) (self, w, heap) in
      match gathered with
      | Asyncio.Returns updated_papers =>
          (Asyncio.Returns (valid_papers papers updated_papers),
           self1, w1, heap1)
      | Asyncio.Raises e => (Asyncio.Raises e, self1, w1, heap1)
      | Asyncio.Hangs => (Asyncio.Hangs, self1, w1, heap1)
      end
  end.

End WithHasher.

End PDFDownloader.

(** * downloader_agent.py *)

Module Agent.

Record DownloadResult : Type := mkResult {
  url : string;
  local_path : option string;
  success : bool;
  file_size : Z;
  checksum : option string;
  error_message : option string;
  download_time : Q;
  timestamp : Q
}.

(** [DownloadResult(url=..., local_path=None, success=False,
    error_message=...)], stamped with the clock. *)
Definition failure (url error : string) (download_time now : Q)
  : DownloadResult :=
  mkResult url None false 0 None (Some error) download_time now.

Record StorageStats : Type := mkStorageStats {
  total_files : Z;
  total_size_gb : Q;
  available_space_gb : Q;
  storage_limit_gb : Q;
  usage_percentage : Q
}.

Definition gib : Q := inject_Z (1024 ^ 3).

(** The constructor with [__post_init__]; [storage_limit_gb] keeps its
    default 300.0 at the only place the class is instantiated. *)
Definition storage_stats (total_files : Z) (total_size_gb
    available_space_gb : Q) : StorageStats :=
  mkStorageStats total_files total_size_gb available_space_gb 300
    ((total_size_gb / 300) * 100)%Q.

Record t : Type := mk {
  storage_path : string;
  rate_limiter : RateLimiter.t;
  active_downloads : list string;
  download_history : list DownloadResult
}.

Definition init (storage_path : string) : t :=
  mk storage_path (RateLimiter.init 1) [] [].

Definition with_rate_limiter (rl : RateLimiter.t) (self : t) : t :=
  mk (storage_path self) rl (active_downloads self)
     (download_history self).

Definition with_active (a : list string) (self : t) : t :=
  mk (storage_path self) (rate_limiter self) a (download_history self).

Definition with_history (h : list DownloadResult) (self : t) : t :=
  mk (storage_path self) (rate_limiter self) (active_downloads self) h.

(** [set.add] and [set.discard]. *)
Definition set_mem (x : string) (s : list string) : bool :=
  existsb (String.eqb x) s.

Definition set_add (x : string) (s : list string) : list string :=
  if set_mem x s then s else (s ++ [x])%list.

Definition set_discard (x : string) (s : list string) : list string :=
  filter (fun y => negb (String.eqb x y)) s.

(** The total size of the regular files named [*.pdf]. *)
Definition total_size (files : list (string * (list byte * Q))) : Z :=
  fold_right (fun f n => Z.of_nat (List.length (fst (snd f))) + n) 0 files.

(** [get_storage_stats]; [os.statvfs] may raise. *)
Definition get_storage_stats (self : t) (w : World) : Exc StorageStats :=
  let files := FS.pdf_files (fs w) in
  let total_size_gb := (inject_Z (total_size files) / gib)%Q in
  match disk_free w with
  | None => Raise "OSError"
  | Some free =>
      Ok (storage_stats (Z.of_nat (List.length files)) total_size_gb
                        (inject_Z free / gib)%Q)
  end.

Definition _check_storage_capacity (self : t) (w : World) : Exc bool :=
  match get_storage_stats self w with
  | Ok stats => Ok (Qlt_bool (usage_percentage stats) 95)
  | Raise e => Raise e
  end.

Section WithHasher.
Context {H : Hasher}.

Definition chunk_size : nat := Z.to_nat 8192.

(** [f.read(8192)] until it returns nothing; [fuel] bounds the number
    of reads, and the length of the content is always enough. *)
Fixpoint read_chunks (fuel : nat) (data : list byte) (h : hash_state)
  : hash_state :=
  match fuel, data with
  | S fuel', _ :: _ =>
      read_chunks fuel' (skipn chunk_size data)
                  (hash_update h (firstn chunk_size data))
  | _, _ => h
  end.

Definition checksum_of (data : list byte) : string :=
  hash_hexdigest (read_chunks (List.length data) data hash_new).

Definition _calculate_checksum (fs : FS.t) (file_path : string)
  : Exc string :=
  match FS.read fs file_path with
  | Ok data => Ok (checksum_of data)
  | Raise e => Raise e
  end.

(** [hashlib.md5(s.encode()).hexdigest()]. *)
Definition md5_hex (s : string) : string :=
  hash_hexdigest (hash_update hash_new (list_byte_of_string s)).

(** [_generate_local_path]; an empty [paper_id] is falsy. *)
Definition _generate_local_path (self : t) (url : string)
    (paper_id : option string) : string :=
  let from_url :=
    let filename := last_segment "/" url in
    if ends_with ".pdf" filename then filename
    else substring 0 10 (md5_hex url) ++ ".pdf" in
  let filename :=
    match paper_id with
    | Some id =>
        if String.eqb id EmptyString then from_url else id ++ ".pdf"
    | None => from_url
    end in
  let subdir :=
    match filename with
    | String c _ =>
        if is_alnum (lower c) then String (lower c) EmptyString
        else "other"
    | EmptyString => "other"
    end in
  storage_path self ++ "/" ++ subdir ++ "/" ++ filename.

Definition _is_valid_pdf (fs : FS.t) (file_path : string) : bool :=
  match FS.read fs file_path with
  | Ok data => starts_with pdf_magic4 (firstn 4 data) &&
               (4 <=? List.length data)%nat
  | Raise _ => false
  end.

(** [verify_integrity(file_path, expected_checksum)]. *)
Definition verify_integrity (fs : FS.t) (file_path : string)
    (expected_checksum : option string) : bool :=
  match FS.read fs file_path with
  | Raise _ => false
  | Ok data =>
      match data with
      | [] => false
      | _ =>
          match expected_checksum with
          | Some expected =>
              if String.eqb expected EmptyString
              then _is_valid_pdf fs file_path
              else String.eqb (checksum_of data) expected
          | None => _is_valid_pdf fs file_path
          end
      end
  end.

Definition checksum_if (verify : bool) (fs : FS.t) (path : string)
  : Exc (option string) :=
  if verify then
    match _calculate_checksum fs path with
    | Ok c => Ok (Some c)
    | Raise e => Raise e
    end
  else Ok None.

Definition _download_with_mcp (env : Env) (w : World)
    (url local_path : string) (verify : bool)
  : DownloadResult * World :=
  let w1 := with_request url w in
  match mcp_fetch env url with
  | McpRaise msg =>
      (failure url ("MCP download failed: " ++ msg) 0 (clock w1), w1)
  | McpReply false error _ =>
      (failure url
         match error with
         | Some e => e
         | None => "Unknown MCP download error"
         end 0 (clock w1), w1)
  | McpReply true _ saved =>
      let w2 :=
        match saved with
        | Some data =>
            with_fs (dict_set local_path (FS.File data (clock w1))
                              (fs w1)) w1
        | None => w1
        end in
      let file_size :=
        match dict_get local_path (fs w2) with
        | Some (FS.File data _) => Z.of_nat (List.length data)
        | _ => 0
        end in
      match checksum_if verify (fs w2) local_path with
      | Ok checksum =>
          (mkResult url (Some local_path) true file_size checksum None 0
                    (clock w2), w2)
      | Raise msg =>
          (failure url ("MCP download failed: " ++ msg) 0 (clock w2), w2)
      end
  end.

(** [_download_fallback]: whatever a 200 response carries is written
    and reported; nothing looks at the content. *)
Definition _download_fallback (env : Env) (w : World)
    (url local_path : string) (verify : bool)
  : DownloadResult * World :=
  let w1 := with_request url w in
  match http env url with
  | HttpError msg =>
      (failure url ("Fallback download failed: " ++ msg) 0 (clock w1),
       w1)
  | HttpTimeout =>
      (failure url "Fallback download failed: " 0 (clock w1), w1)
  | HttpResponse response =>
      if status response =? 200 then
        let written :=
          fold_left
            (fun f chunk => FS.append f local_path chunk (clock w1))
            (chunks response) (FS.create (fs w1) local_path (clock w1)) in
        let w2 := with_fs written w1 in
        match stream_error response with
        | Some msg =>
            (failure url ("Fallback download failed: " ++ msg) 0
                     (clock w2), w2)
        | None =>
            match FS.getsize (fs w2) local_path,
                  checksum_if verify (fs w2) local_path with
            | Ok file_size, Ok checksum =>
                (mkResult url (Some local_path) true file_size checksum
                          None 0 (clock w2), w2)
            | Raise msg, _ | _, Raise msg =>
                (failure url ("Fallback download failed: " ++ msg) 0
                         (clock w2), w2)
            end
        end
      else
        (failure url
           ("HTTP " ++ string_of_Z (status response) ++ ": "
              ++ reason response) 0 (clock w1), w1)
  end.

(** [download_pdf]. The two early returns and the storage check sit
    before the [try]: an exception of the storage check leaves the
    function. The [finally] clause discards the url on every path that
    entered the [try]. *)
Definition download_pdf (self : t) (env : Env) (w : World)
    (url : string) (paper_id : option string) (verify : bool)
  : Exc DownloadResult * t * World :=
  if set_mem url (active_downloads self) then
    (Ok (failure url "Download already in progress" 0 (clock w)),
     self, w)
  else
    match _check_storage_capacity self w with
    | Raise e => (Raise e, self, w)
    | Ok false =>
        (Ok (failure url "Storage limit exceeded" 0 (clock w)), self, w)
    | Ok true =>
        let self1 :=
          with_active (set_add url (active_downloads self)) self in
        let start_time := clock w in
        let (rl, w1) := rate_limit (rate_limiter self1) w in
        let self2 := with_rate_limiter rl self1 in
        let local_path := _generate_local_path self2 url paper_id in
        let finally (s : t) : t :=
          with_active (set_discard url (active_downloads s)) s in
        match dict_get local_path (fs w1) with
        | Some (FS.File data _) =>
            match checksum_if verify (fs w1) local_path with
            | Ok checksum =>
                (Ok (mkResult url (Some local_path) true
                              (Z.of_nat (List.length data)) checksum
                              None 0 (clock w1)),
                 finally self2, w1)
            | Raise e =>
                (Ok (failure url
                       ("Download failed for " ++ url ++ ": " ++ e)
                       (clock w1 - start_time) (clock w1)),
                 finally self2, w1)
            end
        | _ =>
            let (result, w2) :=
              if mcp_connected env
              then _download_with_mcp env w1 url local_path verify
              else _download_fallback env w1 url local_path verify in
            let result :=
              mkResult (Agent.url result) (Agent.local_path result)
                (success result) (file_size result) (checksum result)
                (error_message result) (clock w2 - start_time)
                (timestamp result) in
            (Ok result,
             finally
               (with_history (download_history self2 ++ [result])%list self2),
             w2)
        end
    end.

(** ** The batch *)

(** Where the checksum of a file is taken: for a file that was already
    there, in [_download_with_mcp], or in [_download_fallback]. *)
Inductive Stage : Type :=
| Existing
| ViaMcp
| ViaFallback.

(** The coroutine [download_with_semaphore(url)], which is
    [download_pdf(url)] under the semaphore, at the points where it is
    suspended: before it has started, in the sleep of the rate limiter,
    waiting for the reply of the fetch service or of the server, between
    two chunks of the body, reading a file for its checksum, and over.
    The file is read in one piece when the task is resumed. *)
Inductive Download : Type :=
| Start (url : string)
| Sleeping (url : string) (start_time wake : Q)
| Calling (url : string) (start_time : Q) (local_path : string)
| Getting (url : string) (start_time : Q) (local_path : string)
| Writing (url : string) (start_time : Q) (local_path : string)
          (rest : list (list byte)) (stream_error : option string)
| Hashing (url : string) (start_time : Q) (local_path : string)
          (file_size : Z) (stage : Stage)
| Over (url : string) (r : Exc DownloadResult).

(** The [finally] clause of [download_pdf]. *)
Definition finally (url : string) (self : t) : t :=
  with_active (set_discard url (active_downloads self)) self.

(** The end of [download_pdf] once [_download_with_mcp] or
    [_download_fallback] has returned. *)
Definition finish (url : string) (start_time : Q)
    (result : DownloadResult) (self : t) (w : World)
  : Download * (t * World) :=
  let result :=
    mkResult (Agent.url result) (Agent.local_path result)
      (success result) (file_size result) (checksum result)
      (error_message result) (clock w - start_time) (timestamp result) in
  (Over url (Ok result),
   (finally url
      (with_history (download_history self ++ [result])%list self), w)).

(** [download_pdf] from the assignment of [last_call_time] in
    [rate_limiter.wait] to its next suspension. *)
Definition after_wait (env : Env) (url : string) (start_time : Q)
    (self : t) (w : World) : Download * (t * World) :=
  let self2 :=
    with_rate_limiter
      (snd (RateLimiter.wait (rate_limiter self) (clock w) (clock w)))
      self in
  let local_path := _generate_local_path self2 url None in
  match dict_get local_path (fs w) with
  | Some (FS.File data _) =>
      (Hashing url start_time local_path (Z.of_nat (List.length data))
               Existing,
       (self2, w))
  | _ =>
      if mcp_connected env
      then (Calling url start_time local_path, (self2, with_request url w))
      else (Getting url start_time local_path, (self2, with_request url w))
  end.

(** The task once the file has been read for its checksum. *)
Definition hashed (url : string) (start_time : Q) (local_path : string)
    (file_size : Z) (stage : Stage) (self : t) (w : World)
  : Download * (t * World) :=
  match stage, _calculate_checksum (fs w) local_path with
  | Existing, Ok checksum =>
      (Over url
         (Ok (mkResult url (Some local_path) true file_size
                       (Some checksum) None 0 (clock w))),
       (finally url self, w))
  | Existing, Raise e =>
      (Over url
         (Ok (failure url ("Download failed for " ++ url ++ ": " ++ e)
                      (clock w - start_time) (clock w))),
       (finally url self, w))
  | _, Ok checksum =>
      finish url start_time
        (mkResult url (Some local_path) true file_size (Some checksum)
                  None 0 (clock w)) self w
  | ViaMcp, Raise msg =>
      finish url start_time
        (failure url ("MCP download failed: " ++ msg) 0 (clock w)) self w
  | ViaFallback, Raise msg =>
      finish url start_time
        (failure url ("Fallback download failed: " ++ msg) 0 (clock w))
        self w
  end.

(** A task of the batch, resumed. The clock stands still except in a
    sleep: a task that slept is resumed at the time it asked for or
    later. *)
Definition resume (env : Env) (d : Download) (st : t * World)
  : Download * (t * World) :=
  let (self, w) := st in
  match d with
  | Start url =>
      if set_mem url (active_downloads self) then
        (Over url (Ok (failure url "Download already in progress" 0
                               (clock w))), st)
      else
        match _check_storage_capacity self w with
        | Raise e => (Over url (Raise e), st)
        | Ok false =>
            (Over url (Ok (failure url "Storage limit exceeded" 0
                                   (clock w))), st)
        | Ok true =>
            let self1 :=
              with_active (set_add url (active_downloads self)) self in
            let start_time := clock w in
            match fst (RateLimiter.wait (rate_limiter self1) (clock w)
                                        (clock w)) with
            | Some wait_time =>
                (Sleeping url start_time (clock w + wait_time)%Q,
                 (self1, w))
            | None => after_wait env url start_time self1 w
            end
        end
  | Sleeping url start_time wake =>
      after_wait env url start_time self
                 (with_clock (Qmax (clock w) wake) w)
  | Calling url start_time local_path =>
      match mcp_fetch env url with
      | McpRaise msg =>
          finish url start_time
            (failure url ("MCP download failed: " ++ msg) 0 (clock w))
            self w
      | McpReply false error _ =>
          finish url start_time
            (failure url
               match error with
               | Some e => e
               | None => "Unknown MCP download error"
               end 0 (clock w)) self w
      | McpReply true _ saved =>
          let w2 :=
            match saved with
            | Some data =>
                with_fs (dict_set local_path (FS.File data (clock w))
                                  (fs w)) w
            | None => w
            end in
          let file_size :=
            match dict_get local_path (fs w2) with
            | Some (FS.File data _) => Z.of_nat (List.length data)
            | _ => 0
            end in
          (Hashing url start_time local_path file_size ViaMcp, (self, w2))
      end
  | Getting url start_time local_path =>
      match http env url with
      | HttpError msg =>
          finish url start_time
            (failure url ("Fallback download failed: " ++ msg) 0 (clock w))
            self w
      | HttpTimeout =>
          finish url start_time
            (failure url "Fallback download failed: " 0 (clock w)) self w
      | HttpResponse response =>
          if status response =? 200 then
            (Writing url start_time local_path (chunks response)
                     (stream_error response),
             (self, with_fs (FS.create (fs w) local_path (clock w)) w))
          else
            finish url start_time
              (failure url
                 ("HTTP " ++ string_of_Z (status response) ++ ": "
                    ++ reason response) 0 (clock w)) self w
      end
  | Writing url start_time local_path (chunk :: rest) stream_error =>
      (Writing url start_time local_path rest stream_error,
       (self, with_fs (FS.append (fs w) local_path chunk (clock w)) w))
  | Writing url start_time local_path [] stream_error =>
      match stream_error with
      | Some msg =>
          finish url start_time
            (failure url ("Fallback download failed: " ++ msg) 0 (clock w))
            self w
      | None =>
          match FS.getsize (fs w) local_path with
          | Ok file_size =>
              (Hashing url start_time local_path file_size ViaFallback,
               (self, w))
          | Raise msg =>
              finish url start_time
                (failure url ("Fallback download failed: " ++ msg) 0
                         (clock w)) self w
          end
      end
  | Hashing url start_time local_path file_size stage =>
      hashed url start_time local_path file_size stage self w
  | Over _ _ => (d, st)
  end.

Definition result (d : Download) : option (Exc DownloadResult) :=
  match d with
  | Over _ r => Some r
  | _ => None
  end.

(** The number of chunks in which the body for [url] comes. *)
Definition body_chunks (env : Env) (url : string) : nat :=
  match http env url with
  | HttpResponse response => List.length (chunks response)
  | _ => O
  end.

Definition steps_left (env : Env) (d : Download) : nat :=
  match d with
  | Start url => 5 + body_chunks env url
  | Sleeping url _ _ => 4 + body_chunks env url
  | Calling _ _ _ => 2
  | Getting url _ _ => 3 + body_chunks env url
  | Writing _ _ _ rest _ => 2 + List.length rest
  | Hashing _ _ _ _ _ => 1
  | Over _ _ => 0
  end%nat.

(** The loop that turns a raised exception into a failed result. *)
Fixpoint download_results (pdf_urls : list string)
    (results : list (Exc DownloadResult)) (now : Q)
  : list DownloadResult :=
  match pdf_urls, results with
  | url :: urls', result :: results' =>
      match result with
      | Raise msg => failure url msg 0 now
      | Ok r => r
      end :: download_results urls' results' now
  | _, _ => []
  end.

(** [download_batch]. The semaphore is built first, and refuses a negative
    value; with the value 0 no task ever gets past it. *)
Definition download_batch (self : t) (env : Env) (w : World)
    (pdf_urls : list string) (max_concurrent : Z) (schedule : list nat)
  : Asyncio.Outcome (list DownloadResult) * t * World :=
  match Asyncio.Semaphore max_concurrent with
  | Raise e => (Asyncio.Raises e, self, w)
  | Ok value =>
      let '(gathered, (self1, w1)) :=
        Asyncio.gather (resume env) result (steps_left env) schedule
                       value (map Start pdf_urls) (self, w) in
      match gathered with
      | Asyncio.Returns results =>
          (Asyncio.Returns (download_results pdf_urls results (clock w1)),
           self1, w1)
      | Asyncio.Raises e => (Asyncio.Raises e, self1, w1)
      | Asyncio.Hangs => (Asyncio.Hangs, self1, w1)
      end
  end.

(** [_find_duplicate_files]: [checksum_map] groups the paths by
    checksum, in the order of the walk. *)
Definition add_to_group (checksum_map : Dict (list string))
    (f : string * (list byte * Q)) : Dict (list string) :=
  let checksum := checksum_of (fst (snd f)) in
  match dict_get checksum checksum_map with
  | Some files => dict_set checksum (files ++ [fst f])%list checksum_map
  | None => dict_set checksum [fst f] checksum_map
  end.

Definition checksum_map (fs : FS.t) : Dict (list string) :=
  fold_left add_to_group (FS.pdf_files fs) [].

Definition _find_duplicate_files (fs : FS.t) : list (list string) :=
  filter (fun files => (1 <? List.length files)%nat)
         (dict_values (checksum_map fs)).

(** [_find_old_files(percentage)]. *)
Definition _find_old_files (fs : FS.t) (percentage : Q) : list string :=
  let files_with_mtime :=
    stable_sort (fun x y => Qlt_bool (snd (snd x)) (snd (snd y)))
                (FS.pdf_files fs) in
  let count :=
    Qfloor (inject_Z (Z.of_nat (List.length files_with_mtime))
            * percentage)%Q in
  map fst (firstn (Z.to_nat count) files_with_mtime).

(** One round of a removal loop: [stat], [unlink], count; an exception
    is logged and the loop goes on. *)
Definition remove_file (acc : FS.t * Z * Z) (file_path : string)
  : FS.t * Z * Z :=
  let '(fs, removed, freed_space) := acc in
  match FS.getsize fs file_path with
  | Ok size =>
      match FS.unlink fs file_path with
      | Ok fs' => (fs', removed + 1, freed_space + size)
      | Raise _ => acc
      end
  | Raise _ => acc
  end.

(** The deduplication phase of [manage_storage]: in every group all
    files but the first are removed. *)
Definition remove_duplicates (fs : FS.t) (duplicates : list (list string))
  : FS.t * Z * Z :=
  fold_left
    (fun acc dup_group => fold_left remove_file (tl dup_group) acc)
    duplicates (fs, 0, 0).

(** The second phase: old files are removed until the usage is below
    the threshold. The usage is read after each removal. *)
Fixpoint remove_old (self : t) (w : World) (threshold : Q)
    (old_files : list string) (removed_old freed_space : Z)
  : World * Z * Z :=
  match old_files with
  | [] => (w, removed_old, freed_space)
  | file_path :: old_files' =>
      match FS.getsize (fs w) file_path with
      | Raise _ =>
          remove_old self w threshold old_files' removed_old freed_space
      | Ok size =>
          match FS.unlink (fs w) file_path with
          | Raise _ =>
              remove_old self w threshold old_files' removed_old
                         freed_space
          | Ok fs' =>
              let w' := with_fs fs' w in
              match get_storage_stats self w' with
              | Raise _ =>
                  remove_old self w' threshold old_files'
                             (removed_old + 1) (freed_space + size)
              | Ok stats =>
                  if Qlt_bool (usage_percentage stats)
                              (threshold * 100)
                  then (w', removed_old + 1, freed_space + size)
                  else remove_old self w' threshold old_files'
                                  (removed_old + 1) (freed_space + size)
              end
          end
      end
  end.

Inductive Report : Type :=
| NoCleanup (current_usage threshold : Q)
| Cleanup (removed_duplicates removed_old_files : Z)
          (freed_space_gb final_usage_percentage : Q).

Definition manage_storage (self : t) (w : World) (cleanup_threshold : Q)
  : Exc Report * World :=
  match get_storage_stats self w with
  | Raise e => (Raise e, w)
  | Ok stats =>
      if Qlt_bool (usage_percentage stats) (cleanup_threshold * 100)
      then (Ok (NoCleanup (usage_percentage stats)
                          (cleanup_threshold * 100)%Q), w)
      else
        let duplicates := _find_duplicate_files (fs w) in
        let old_files := _find_old_files (fs w) 0.1 in
        let '(fs1, removed_duplicates, freed_space) :=
          remove_duplicates (fs w) duplicates in
        let w1 := with_fs fs1 w in
        match get_storage_stats self w1 with
        | Raise e => (Raise e, w1)
        | Ok stats1 =>
            let '(w2, removed_old, freed_space2) :=
              if Qlt_bool (usage_percentage stats1)
                          (cleanup_threshold * 100)
              then (w1, 0, freed_space)
              else remove_old self w1 cleanup_threshold old_files 0
                              freed_space in
            match get_storage_stats self w2 with
            | Raise e => (Raise e, w2)
            | Ok final_stats =>
                (Ok (Cleanup removed_duplicates removed_old
                       (inject_Z freed_space2 / gib)%Q
                       (usage_percentage final_stats)), w2)
            end
        end
  end.

End WithHasher.

(** The dictionary returned by [get_download_stats]. *)
Record DownloadStats : Type := mkDownloadStats {
  stats_total_downloads : Z;
  stats_successful_downloads : Z;
  stats_failed_downloads : Z;
  stats_success_rate : Q;
  stats_average_file_size_mb : Q;
  stats_average_download_time : Q;
  stats_active_downloads : Z
}.

(** [get_download_stats]. *)
Definition get_download_stats (self : t) : DownloadStats :=
  let history := download_history self in
  let total := Z.of_nat (List.length history) in
  let successful := Z.of_nat (List.length (filter success history)) in
  let failed := total - successful in
  let size_sum : Z :=
    fold_right (fun r n => file_size r + n) 0 (filter success history) in
  let time_sum : Q :=
    fold_right (fun r t => (download_time r + t)%Q) 0%Q history in
  let (avg_size, avg_time) :=
    match history with
    | [] => (0%Q, 0%Q)
    | _ :: _ =>
        ((inject_Z size_sum / inject_Z (Z.max successful 1))%Q,
         (time_sum / inject_Z total)%Q)
    end in
  mkDownloadStats total successful failed
    (inject_Z successful / inject_Z (Z.max total 1) * 100)%Q
    (avg_size / inject_Z (1024 ^ 2))%Q avg_time
    (Z.of_nat (List.length (active_downloads self))).

End Agent.


(** * mcp_servers/client_manager.py *)

Module MCP.

Inductive ServerStatus : Type :=
| DISCONNECTED
| CONNECTING
| CONNECTED
| ERROR.

Definition status_eqb (a b : ServerStatus) : bool :=
  match a, b with
  | DISCONNECTED, DISCONNECTED | CONNECTING, CONNECTING
  | CONNECTED, CONNECTED | ERROR, ERROR => true
  | _, _ => false
  end.

Record MCPServerConfig : Type := mkConfig {
  name : string;
  host : string;
  port : Z;
  protocol : string;
  timeout : Z;
  retry_attempts : Z;
  tools : list string
}.

(** [MCPServerConfig(name=..., port=..., tools=...)] with the defaults of
    the dataclass. *)
Definition server_config (name : string) (port : Z) (tools : list string)
  : MCPServerConfig :=
  mkConfig name "localhost" port "http" 30 3 tools.

(** An [HTTPMCPClient]: [session] says whether [self.session] is set. *)
Record Client : Type := mkClient {
  config : MCPServerConfig;
  status : ServerStatus;
  session : bool
}.

(** [HTTPMCPClient(config)]. *)
Definition new_client (config : MCPServerConfig) : Client :=
  mkClient config DISCONNECTED false.

(** [health_check]: [probe] is the status of the answer to
    [GET .../health], [None] when the request raises. *)
Definition health_check (self : Client) (probe : option Z) : bool :=
  if negb (session self) then false
  else
    match probe with
    | Some code => code =? 200
    | None => false
    end.

(** [connect]: the session is created, then the server is probed. *)
Definition connect (self : Client) (probe : option Z) : bool * Client :=
  let self1 := mkClient (config self) CONNECTING true in
  if health_check self1 probe
  then (true, mkClient (config self1) CONNECTED (session self1))
  else (false, mkClient (config self1) ERROR (session self1)).

Definition disconnect (self : Client) : Client :=
  mkClient (config self) DISCONNECTED false.

(** What [session.post(url, json=parameters)] delivers. *)
Inductive PostOutcome : Type :=
| PostRaise (msg : string)
| PostReply (code : Z) (body : string).

(** [HTTPMCPClient.call_tool]: the answer of the server is returned when
    its status is 200. *)
Definition client_call_tool (self : Client) (tool_name : string)
    (post : PostOutcome) : Exc string :=
  if negb (status_eqb (status self) CONNECTED) || negb (session self)
  then Raise ("Not connected to " ++ name (config self))
  else
    match post with
    | PostRaise msg => Raise msg
    | PostReply code body =>
        if code =? 200 then Ok body
        else Raise ("Tool call failed: " ++ body)
    end.

Record t : Type := mk {
  clients : Dict Client;
  configs : Dict MCPServerConfig
}.

Definition _setup_default_configs : Dict MCPServerConfig :=
  [ ("arxiv",
     server_config "arxiv" 3001
       ["search_papers"; "get_paper"; "get_latex_source"]);
    ("playwright",
     server_config "playwright" 3002
       ["screenshot"; "navigate"; "extract_content"]);
    ("unstructured",
     server_config "unstructured" 3003
       ["extract_pdf"; "extract_html"; "preprocess_text"]);
    ("fetch",
     server_config "fetch" 3004
       ["fetch_url"; "fetch_content"; "convert_to_markdown"]);
    ("tinybird",
     server_config "tinybird" 3005
       ["query_data"; "insert_data"; "analyze_performance"]);
    ("piloty",
     server_config "piloty" 3006
       ["run_command"; "schedule_task"; "monitor_process"]) ].

(** [MCPClientManager()]. *)
Definition init : t := mk [] _setup_default_configs.

Definition with_clients (c : Dict Client) (self : t) : t :=
  mk c (configs self).

Definition connect_server (self : t) (server_name : string)
    (probe : option Z) : bool * t :=
  match dict_get server_name (configs self) with
  | None => (false, self)
  | Some config =>
      let (ok, client) := connect (new_client config) probe in
      if ok
      then (true, with_clients (dict_set server_name client (clients self))
                               self)
      else (false, self)
  end.

(** One round of the loop of [connect_all_servers]. *)
Definition connect_next (probes : string -> option Z)
    (acc : Dict bool * t) (server_name : string) : Dict bool * t :=
  let (results, self) := acc in
  let (ok, self') := connect_server self server_name (probes server_name) in
  (dict_set server_name ok results, self').

(** [connect_all_servers]: [probes] gives the answer of each server to
    the probe of its connection attempt. *)
Definition connect_all_servers (self : t) (probes : string -> option Z)
  : Dict bool * t :=
  fold_left (connect_next probes) (dict_keys (configs self)) ([], self).

(** [disconnect_server]; the client that is disconnected is dropped with
    its entry. *)
Definition disconnect_server (self : t) (server_name : string) : t :=
  if dict_mem server_name (clients self)
  then with_clients (dict_del server_name (clients self)) self
  else self.

Definition disconnect_all_servers (self : t) : t :=
  fold_left disconnect_server (dict_keys (clients self)) self.

Definition call_tool (self : t) (server_name tool_name : string)
    (post : PostOutcome) : Exc string :=
  match dict_get server_name (clients self) with
  | None => Raise ("Server " ++ server_name ++ " not connected")
  | Some client => client_call_tool client tool_name post
  end.

Definition get_server_status (self : t) (server_name : string)
  : ServerStatus :=
  match dict_get server_name (clients self) with
  | Some client => status client
  | None => DISCONNECTED
  end.

Definition get_all_server_status (self : t) : Dict ServerStatus :=
  map (fun name => (name, get_server_status self name))
      (dict_keys (configs self)).

(** [health_check_all]: [probes] gives the answer of each server. *)
Definition health_check_all (self : t) (probes : string -> option Z)
  : Dict bool :=
  map (fun kv => (fst kv, health_check (snd kv) (probes (fst kv))))
      (clients self).

Definition get_available_tools (self : t) (server_name : string)
  : list string :=
  match dict_get server_name (configs self) with
  | Some config => tools config
  | None => []
  end.

Definition is_server_connected (self : t) (server_name : string) : bool :=
  match dict_get server_name (clients self) with
  | Some client => status_eqb (status client) CONNECTED
  | None => false
  end.

(** The operations that change a manager. *)
Inductive Op : Type :=
| Connect (server_name : string) (probe : option Z)
| ConnectAll (probes : string -> option Z)
| Disconnect (server_name : string)
| DisconnectAll.

Definition step (self : t) (op : Op) : t :=
  match op with
  | Connect server_name probe => snd (connect_server self server_name probe)
  | ConnectAll probes => snd (connect_all_servers self probes)
  | Disconnect server_name => disconnect_server self server_name
  | DisconnectAll => disconnect_all_servers self
  end.

Definition run (self : t) (ops : list Op) : t := fold_left step ops self.

End MCP.
(** * Specification vocabulary *)

(** ** Connection pool *)

(** What the pool promises about its counters: the per-agent counts add up
    to the global counter, the global counter respects the global cap, and
    every agent's count lies between zero and its own cap. *)
Definition pool_invariant (p : Pool.t) : Prop :=
  Pool.total_count (Pool._agents p) = Pool._active_connections p /\
  Pool._active_connections p <= Pool.total_max_connections p /\
  forall a info,
    dict_get a (Pool._agents p) = Some info ->
    0 <= Pool.connection_count info <= Pool.max_connections info.

(** A tracked client whose [close()] returns normally. *)
Definition closes (c : string * Pool.Client) : Prop :=
  Pool.close_raises (snd c) = false.

(** What the environment has to provide for an operation: a registration
    does not pass a negative cap; an acquisition is given a connection id
    that the agent does not hold at that moment, and a client whose
    [close()] will not raise. *)
Definition op_admissible (p : Pool.t) (op : Pool.Op) : bool :=
  match op with
  | Pool.Register _ _ m _ _ =>
      match m with Some v => 0 <=? v | None => true end
  | Pool.Acquire a c connect _ =>
      negb (dict_mem c (Pool.connections_of p a)) &&
      match connect with
      | Some cl => negb (Pool.close_raises cl)
      | None => true
      end
  | _ => true
  end.

Fixpoint run_admissible (p : Pool.t) (ops : list Pool.Op) : bool :=
  match ops with
  | [] => true
  | op :: ops' =>
      op_admissible p op && run_admissible (Pool.step p op) ops'
  end.

(** The bookkeeping between the two dictionaries and the counters that the
    pool keeps in every state it reaches through admissible operations. *)
Record consistent (p : Pool.t) : Prop := {
  cons_cap : 0 <= Pool.total_max_connections p;
  cons_active : Pool._active_connections p <= Pool.total_max_connections p;
  cons_sum :
    Pool.total_count (Pool._agents p) = Pool._active_connections p;
  cons_agents_nodup : NoDup (dict_keys (Pool._agents p));
  cons_conns_nodup : NoDup (dict_keys (Pool._connections p));
  cons_keys :
    forall a, dict_get a (Pool._agents p) = None ->
              dict_get a (Pool._connections p) = None;
  cons_entry :
    forall a info,
      dict_get a (Pool._agents p) = Some info ->
      exists cs,
        dict_get a (Pool._connections p) = Some cs /\
        Pool.connection_count info = Z.of_nat (List.length cs) /\
        Pool.connection_count info <= Pool.max_connections info /\
        Forall closes cs
}.

(** [(priority, last_activity)] of [a] is not after that of [b]. *)
Definition key_le (a b : Pool.AgentConnectionInfo) : Prop :=
  Pool.priority a < Pool.priority b \/
  (Pool.priority a = Pool.priority b /\
   (Pool.last_activity a <= Pool.last_activity b)%Q).

(** The acquisition of [a] reaches the preemption scan: the agent is below
    its own cap and the pool is at the global cap. *)
Definition preemption_triggered (p : Pool.t) (info : Pool.AgentConnectionInfo)
  : Prop :=
  Pool.connection_count info < Pool.max_connections info /\
  Pool.total_max_connections p <= Pool._active_connections p.

(** The state after [agent_id] has lost the connection [conn_id]. *)
Definition evict (p : Pool.t) (agent_id : string)
    (agent_info : Pool.AgentConnectionInfo) (conn_id : string) : Pool.t :=
  Pool.with_active (Pool._active_connections p - 1)
    (Pool.with_agents
       (dict_set agent_id
          (Pool.with_count (Pool.connection_count agent_info - 1) agent_info)
          (Pool._agents p))
       (Pool.with_connections
          (dict_set agent_id
             (dict_del conn_id (Pool.connections_of p agent_id))
             (Pool._connections p))
          p)).


(** The state after [agent_id] has been given the connection
    [connection_id] at time [now]. *)
Definition grant (p : Pool.t) (agent_id : string)
    (info : Pool.AgentConnectionInfo) (connection_id : string)
    (client : Pool.Client) (now : Q) : Pool.t :=
  let p2 :=
    Pool.with_connections
      (dict_set agent_id
         (dict_set connection_id client (Pool.connections_of p agent_id))
         (Pool._connections p)) p in
  Pool.with_active (Pool._active_connections p2 + 1)
    (Pool.with_agents
       (dict_set agent_id
          (Pool.with_activity now
             (Pool.with_count (Pool.connection_count info + 1) info))
          (Pool._agents p2))
       p2).

(** ** Example pools *)

(** A pool of capacity 3 shared by a crawler and a database agent: the
    crawler takes the three connections, the database agent preempts one,
    the crawler gives one back, an idle sweep runs. *)
Definition demo_client : Pool.Client := Pool.mkClient false.

Definition demo_ops : list Pool.Op :=
  [ Pool.Register "a1" "crawler" None None 0;
    Pool.Register "a2" "database" None None 0;
    Pool.Acquire "a1" "c1" (Some demo_client) 1;
    Pool.Acquire "a1" "c2" (Some demo_client) 2;
    Pool.Acquire "a1" "c3" (Some demo_client) 3;
    Pool.Acquire "a2" "d1" (Some demo_client) 4;
    Pool.Release "a1" "c2" demo_client;
    Pool.CleanupIdle 1803.5 ].

(** A pool of capacity 1 whose only connection is held by a database agent
    (priority 4); an nlp agent (priority 1, cap 4) holds none. *)
Definition full_pool : Pool.t :=
  Pool.run (Pool.init 1 300 1800)
    [ Pool.Register "b" "database" None None 0;
      Pool.Acquire "b" "c1" (Some demo_client) 1;
      Pool.Register "a" "nlp" None None 2 ].


(** A client whose [close()] raises. *)
Definition stubborn_client : Pool.Client := Pool.mkClient true.

(** A pool of capacity 2, full: an nlp agent (priority 1) holds both
    connections, the older one through a client whose [close()] raises; a
    database agent (priority 4) holds none. *)
Definition stubborn_pool : Pool.t :=
  Pool.run (Pool.init 2 300 1800)
    [ Pool.Register "v" "nlp" None None 0;
      Pool.Acquire "v" "c1" (Some stubborn_client) 1;
      Pool.Acquire "v" "c2" (Some demo_client) 2;
      Pool.Register "r" "database" None None 3 ].

(** A pool of capacity 3, full: an nlp agent acquired three times under one
    connection id and has lost that connection to a first preemption, so it
    counts 2 connections and tracks none; the database agent holds one. *)
Definition hollow_pool : Pool.t :=
  Pool.run (Pool.init 3 300 1800)
    [ Pool.Register "v" "nlp" None None 0;
      Pool.Acquire "v" "c" (Some demo_client) 1;
      Pool.Acquire "v" "c" (Some demo_client) 2;
      Pool.Acquire "v" "c" (Some demo_client) 3;
      Pool.Register "r" "database" None None 4;
      Pool.Acquire "r" "d1" (Some demo_client) 5 ].

(** An idle crawler whose only client raises on [close()]. *)
Definition stuck_pool : Pool.t :=
  Pool.run (Pool.init 50 300 1800)
    [ Pool.Register "a" "crawler" None None 0;
      Pool.Acquire "a" "c" (Some stubborn_client) 1 ].

(** ** Storage *)

(** An entry whose name ends in [.pdf]. *)
Definition pdf_entry (e : string * FS.Node) : bool := ends_with ".pdf" (fst e).

Definition bytes (s : string) : list byte := list_byte_of_string s.

(** A tree with a paper, a broken link named as a paper, and a note. *)
Definition unreadable_tree : FS.t :=
  [ ("papers/arxiv/2301/2301.00001.pdf", FS.File (bytes "%PDF-1.4 a") 10);
    ("papers/arxiv/2301/2301.00002.pdf", FS.Dangling);
    ("papers/notes.txt", FS.File (bytes "hello") 11) ].

(** A stand-in for the hash function in examples: the digest of a content
    is the content itself. *)
Definition plain_hasher : Hasher :=
  {| hash_state := list byte;
     hash_new := [];
     hash_update := fun h chunk => (h ++ chunk)%list;
     hash_hexdigest := string_of_list_byte |}.

(** The capacity check that [_download_file] makes on the announced size
    lets the download through. *)
Definition size_accepted (self : PDFDownloader.t) (fs : FS.t) (r : Response)
  : Prop :=
  match content_length r with
  | Some n =>
      n = 0 \/
      StorageManager.can_store_file (PDFDownloader.storage self) fs n = true
  | None => True
  end.

(** A server that answers every request with status 200 and the four
    bytes [oops]. *)
Definition oops_env : Env :=
  mkEnv (fun _ => HttpResponse
                    (mkResponse 200 "OK" "text/html" None [bytes "oops"] None))
        false (fun _ => McpRaise "not connected").

Definition empty_world : World := mkWorld [] 0 [] (Some 1000000).

(** A store holding one paper of 1009 bytes under the path that the agent
    derives from its url and under the path that the downloader derives
    from its arXiv id. *)
Definition paper_bytes : list byte :=
  (bytes "%PDF-1.4 " ++ repeat "000"%byte 1000)%list.

Definition paper_url : string := "http://arxiv.org/pdf/2301.00001.pdf".

Definition stocked_world : World :=
  mkWorld
    [ ("papers/2/2301.00001.pdf", FS.File paper_bytes 5);
      ("papers/arxiv/2301/2301.00001.pdf", FS.File paper_bytes 5) ]
    10 [] (Some 1000000).

Definition stocked_paper : PDFDownloader.Paper :=
  PDFDownloader.mkPaper (Some "2301.00001") (Some paper_url) (Some "arxiv")
    None None None [("title", "A paper")].

(** ** Deduplication *)


Definition file_checksum {H : Hasher} (f : string * (list byte * Q))
  : string :=
  Agent.checksum_of (fst (snd f)).

(** What [FS.pdf_files] lists. *)
Definition Files : Type := list (string * (list byte * Q)).

(** The stored papers with checksum [c], in the order of the walk. *)
Definition group_of {H : Hasher} (c : string) (files : Files) : Files :=
  filter (fun f => String.eqb (file_checksum f) c) files.

(** Byte count that a [freed_space_gb] stands for. *)
Definition gb_of_bytes (n : Z) : Q := (inject_Z n / Agent.gib)%Q.

(** A store of five papers in two checksum groups, and a note. *)
Definition duplicated_world : World :=
  mkWorld
    [ ("papers/a/a.pdf", FS.File (bytes "aaaa") 3);
      ("papers/b/b.pdf", FS.File (bytes "bb") 1);
      ("papers/c/c.pdf", FS.File (bytes "aaaa") 2);
      ("papers/d/d.pdf", FS.File (bytes "aaaa") 4);
      ("papers/x.txt", FS.File (bytes "aaaa") 0);
      ("papers/e/e.pdf", FS.File (bytes "bb") 9) ]
    0 [] (Some 5).

(** A store of ten papers, the oldest of which has a younger copy. *)
Definition crowded_world : World :=
  mkWorld
    [ ("papers/a/a.pdf", FS.File (bytes "dup") 1);
      ("papers/b/b.pdf", FS.File (bytes "dup") 50);
      ("papers/f/f1.pdf", FS.File (bytes "f1") 11);
      ("papers/f/f2.pdf", FS.File (bytes "f2") 12);
      ("papers/f/f3.pdf", FS.File (bytes "f3") 13);
      ("papers/f/f4.pdf", FS.File (bytes "f4") 14);
      ("papers/f/f5.pdf", FS.File (bytes "f5") 15);
      ("papers/f/f6.pdf", FS.File (bytes "f6") 16);
      ("papers/f/f7.pdf", FS.File (bytes "f7") 17);
      ("papers/f/f8.pdf", FS.File (bytes "f8") 18) ]
    0 [] (Some 5).


(** [checksum_map] after the files [done] have been looked at: the keys
    are the checksums met, and a key leads to the paths met with it. *)
Definition grouped {H : Hasher} (m : Dict (list string)) (done : Files) : Prop :=
  NoDup (dict_keys m) /\
  forall c,
    dict_get c m =
    match map fst (group_of c done) with
    | [] => None
    | ps => Some ps
    end.

(** The paths that the deduplication phase visits. *)
Definition doomed {H : Hasher} (fs : FS.t) : list string :=
  List.concat (map (@tl string) (Agent._find_duplicate_files fs)).


(** ** Further vocabulary *)

(** The pool after [agent_id] has been active at [now] and nothing else
    has changed. *)
Definition touch (p : Pool.t) (agent_id : string)
    (info : Pool.AgentConnectionInfo) (now : Q) : Pool.t :=
  Pool.with_agents
    (dict_set agent_id (Pool.with_activity now info) (Pool._agents p)) p.

(** The connections that a status report lists, added up. *)
Definition listed_connections (l : Dict Pool.AgentStatus) : Z :=
  fold_right (fun e n => Pool.status_connections (snd e) + n) 0 l.

(** ** Rate limiter *)

(** A sequence of [wait] calls, each with its two clock readings (on entry,
    and after the sleep): the readings stored as [last_call_time], in
    order. *)
Fixpoint stamps (self : RateLimiter.t) (readings : list (Q * Q)) : list Q :=
  match readings with
  | [] => []
  | (current_time, stamp) :: readings' =>
      stamp ::
      stamps (snd (RateLimiter.wait self current_time stamp)) readings'
  end.

(** The clock behaves: the reading after the sleep of each [wait] is not
    before the reading on entry plus the time slept. *)
Fixpoint sleeps_respected (self : RateLimiter.t) (readings : list (Q * Q))
  : Prop :=
  match readings with
  | [] => True
  | (current_time, stamp) :: readings' =>
      (current_time +
       RateLimiter.suspended
         (fst (RateLimiter.wait self current_time stamp)) <= stamp)%Q /\
      sleeps_respected (snd (RateLimiter.wait self current_time stamp))
                       readings'
  end.

(** Consecutive elements of [l] are at least [d] apart. *)
Fixpoint spaced (d : Q) (l : list Q) : Prop :=
  match l with
  | a :: (b :: _) as l' => (d <= b - a)%Q /\ spaced d l'
  | _ => True
  end.

(** ** Download pipeline *)

(** A paper record that carries the three keys [download_paper] indexes. *)
Definition has_keys (paper : PDFDownloader.Paper) : bool :=
  match PDFDownloader.paper_id paper, PDFDownloader.pdf_url paper,
        PDFDownloader.source paper with
  | Some _, Some _, Some _ => true
  | _, _, _ => false
  end.

(** [path] holds a regular file of [size] bytes. *)
Definition holds_file (fs : FS.t) (path : string) (size : Z) : Prop :=
  exists data mt,
    dict_get path fs = Some (FS.File data mt) /\
    size = Z.of_nat (List.length data).

(** ** Storage cleanup *)

(** From [fs] to [fs'] nothing happened but the removal of regular files
    whose name ends in [.pdf]. *)
Definition only_papers_removed (fs fs' : FS.t) : Prop :=
  forall q,
    dict_get q fs' = dict_get q fs \/
    (dict_get q fs' = None /\ ends_with ".pdf" q = true /\
     exists data mt, dict_get q fs = Some (FS.File data mt)).

(** No element of the list is strictly below one that comes before it. *)
Fixpoint ascending {A : Type} (lt : A -> A -> bool) (l : list A) : Prop :=
  match l with
  | [] => True
  | a :: l' => Forall (fun b => lt b a = false) l' /\ ascending lt l'
  end.

(** ** The manager of the tool servers *)

(** What the manager keeps about its clients: one entry per name, each for
    a configured server, connected and with a session. *)
Record kept (m : MCP.t) : Prop := {
  kept_configs : MCP.configs m = MCP._setup_default_configs;
  kept_nodup : NoDup (dict_keys (MCP.clients m));
  kept_client :
    forall server_name client,
      dict_get server_name (MCP.clients m) = Some client ->
      MCP.status client = MCP.CONNECTED /\
      MCP.session client = true /\
      dict_get server_name (MCP.configs m) = Some (MCP.config client)
}.

(** The answer to a probe is that of a healthy server. *)
Definition healthy (probe : option Z) : bool :=
  match probe with
  | Some code => code =? 200
  | None => false
  end.

(** What [_download_with_mcp] and [_download_fallback] have in common. *)
Definition transfer_spec {H : Hasher} (verify : bool) (always_on_disk : bool)
    (w : World) (url path : string)
    (res : Agent.DownloadResult * World) : Prop :=
  Agent.url (fst res) = url /\
  requests (snd res) = (requests w ++ [url])%list /\
  disk_free (snd res) = disk_free w /\
  (forall q, q <> path -> dict_get q (fs (snd res)) = dict_get q (fs w)) /\
  (Agent.success (fst res) = false -> Agent.local_path (fst res) = None) /\
  (Agent.success (fst res) = true ->
   Agent.local_path (fst res) = Some path /\
   Agent.error_message (fst res) = None /\
   (verify = true \/ always_on_disk = true ->
    exists data mt,
      dict_get path (fs (snd res)) = Some (FS.File data mt) /\
      Agent.file_size (fst res) = Z.of_nat (List.length data) /\
      Agent.checksum (fst res) =
        if verify then Some (Agent.checksum_of data) else None)).

(** ** Batches *)



(** What [download_batch] makes of the outcome of the task for [url]. *)
Definition item_result (now : Q) (url : string)
    (outcome : Exc Agent.DownloadResult) : Agent.DownloadResult :=
  match outcome with
  | Ok r => r
  | Raise msg => Agent.failure url msg 0 now
  end.



(** * Properties *)

Open Scope list_scope.

(** ** Comparisons on [Q] *)

Lemma Qlt_bool_iff (a b : Q) : Qlt_bool a b = true <-> (a < b)%Q.
Proof.
  unfold Qlt_bool. rewrite Qlt_alt.
  destruct (a ?= b)%Q; split; intro H; congruence.
Qed.

Lemma Qge_bool_iff (a b : Q) : Qge_bool a b = true <-> (b <= a)%Q.
Proof. unfold Qge_bool. apply Qle_bool_iff. Qed.

Lemma Qge_bool_false (a b : Q) : Qge_bool a b = false <-> (a < b)%Q.
Proof.
  rewrite <- Bool.not_true_iff_false, Qge_bool_iff.
  split; intro H; [apply Qnot_le_lt; exact H | apply Qlt_not_le; exact H].
Qed.

Lemma Qlt_bool_ge_bool (a b : Q) : Qlt_bool a b = negb (Qge_bool a b).
Proof.
  destruct (Qge_bool a b) eqn:E; simpl.
  - apply Bool.not_true_iff_false. rewrite Qlt_bool_iff.
    apply Qge_bool_iff in E. apply Qle_not_lt. exact E.
  - apply Qlt_bool_iff. apply Qge_bool_false. exact E.
Qed.

(** ** Stable sort *)

Section StableSortFacts.
Context {A : Type} (lt : A -> A -> bool).

Lemma insert_sorted_In x y l :
  In x (insert_sorted lt y l) <-> x = y \/ In x l.
Proof.
  induction l as [|z l IH]; simpl.
  - intuition.
  - destruct (lt z y); simpl; [rewrite IH|]; intuition.
Qed.

Lemma stable_sort_In x l : In x (stable_sort lt l) <-> In x l.
Proof.
  induction l as [|y l IH]; simpl; [reflexivity|].
  rewrite insert_sorted_In, IH. intuition.
Qed.

Lemma insert_sorted_length y l :
  List.length (insert_sorted lt y l) = S (List.length l).
Proof.
  induction l as [|z l IH]; simpl; [reflexivity|].
  destruct (lt z y); simpl; [now rewrite IH|reflexivity].
Qed.

Lemma stable_sort_length l :
  List.length (stable_sort lt l) = List.length l.
Proof.
  induction l as [|y l IH]; simpl; [reflexivity|].
  now rewrite insert_sorted_length, IH.
Qed.
End StableSortFacts.

(** ** Dictionaries *)

Section DictFacts.
Context {V : Type}.
Implicit Types (d : Dict V) (k : string) (v : V).

Lemma dict_get_In d k v : dict_get k d = Some v -> In (k, v) d.
Proof.
  induction d as [|[k' v'] d IH]; simpl; [discriminate|].
  destruct (String.eqb_spec k' k) as [->|Hne]; intro H.
  - injection H as ->. now left.
  - right. now apply IH.
Qed.

Lemma dict_get_None d k : dict_get k d = None <-> ~ In k (dict_keys d).
Proof.
  induction d as [|[k' v'] d IH]; simpl.
  - split; [intros _ []|reflexivity].
  - destruct (String.eqb_spec k' k) as [->|Hne].
    + split; [discriminate|]. intro H. exfalso. apply H. now left.
    + rewrite IH. split; intro H; [intros [E|HI]|]; try tauto.
Qed.

Lemma In_dict_get d k v :
  NoDup (dict_keys d) -> In (k, v) d -> dict_get k d = Some v.
Proof.
  induction d as [|[k' v'] d IH]; simpl; [intros _ []|].
  intros Hnd [E|HI].
  - injection E as -> ->. now rewrite String.eqb_refl.
  - inversion Hnd as [|? ? Hnotin Hnd']; subst.
    destruct (String.eqb_spec k' k) as [->|Hne].
    + exfalso. apply Hnotin. change k with (fst (k, v)).
      now apply in_map.
    + now apply IH.
Qed.

Lemma dict_get_set_eq d k v : dict_get k (dict_set k v d) = Some v.
Proof.
  induction d as [|[k' v'] d IH]; simpl.
  - now rewrite String.eqb_refl.
  - destruct (String.eqb_spec k' k) as [->|Hne]; simpl.
    + now rewrite String.eqb_refl.
    + destruct (String.eqb_spec k' k); [contradiction|exact IH].
Qed.

Lemma dict_get_set_neq d k k' v :
  k <> k' -> dict_get k' (dict_set k v d) = dict_get k' d.
Proof.
  intro Hne. induction d as [|[k0 v0] d IH]; simpl.
  - destruct (String.eqb_spec k k'); [contradiction|reflexivity].
  - destruct (String.eqb_spec k0 k) as [->|Hne0]; simpl.
    + destruct (String.eqb_spec k k'); [contradiction|reflexivity].
    + now rewrite IH.
Qed.

Lemma dict_get_del_neq d k k' :
  k <> k' -> dict_get k' (dict_del k d) = dict_get k' d.
Proof.
  intro Hne. induction d as [|[k0 v0] d IH]; simpl; [reflexivity|].
  destruct (String.eqb_spec k0 k) as [->|Hne0]; simpl.
  - destruct (String.eqb_spec k k'); [contradiction|reflexivity].
  - now rewrite IH.
Qed.

Lemma dict_keys_del_incl d k x :
  In x (dict_keys (dict_del k d)) -> In x (dict_keys d).
Proof.
  induction d as [|[k0 v0] d IH]; simpl; [tauto|].
  destruct (String.eqb_spec k0 k) as [->|Hne0]; simpl; [tauto|].
  intros [E|HI]; [now left|right; now apply IH].
Qed.

Lemma dict_del_NoDup d k :
  NoDup (dict_keys d) -> NoDup (dict_keys (dict_del k d)).
Proof.
  induction d as [|[k0 v0] d IH]; simpl; [trivial|].
  intro Hnd. inversion Hnd as [|? ? Hnotin Hnd']; subst.
  destruct (String.eqb_spec k0 k) as [->|Hne0]; simpl; [exact Hnd'|].
  constructor; [|now apply IH].
  intro HI. apply Hnotin. now apply dict_keys_del_incl in HI.
Qed.

Lemma dict_get_del_eq d k :
  NoDup (dict_keys d) -> dict_get k (dict_del k d) = None.
Proof.
  induction d as [|[k0 v0] d IH]; simpl; [reflexivity|].
  intro Hnd. inversion Hnd as [|? ? Hnotin Hnd']; subst.
  destruct (String.eqb_spec k0 k) as [->|Hne0]; simpl.
  - now apply dict_get_None.
  - destruct (String.eqb_spec k0 k); [contradiction|now apply IH].
Qed.

Lemma dict_keys_set_incl d k v x :
  In x (dict_keys (dict_set k v d)) -> x = k \/ In x (dict_keys d).
Proof.
  induction d as [|[k0 v0] d IH]; simpl.
  - intros [E|[]]. now left.
  - destruct (String.eqb_spec k0 k) as [->|Hne0]; simpl.
    + intros [E|HI]; [now left|right; now right].
    + intros [E|HI]; [right; now left|].
      destruct (IH HI); [now left|right; now right].
Qed.

Lemma dict_set_NoDup d k v :
  NoDup (dict_keys d) -> NoDup (dict_keys (dict_set k v d)).
Proof.
  induction d as [|[k0 v0] d IH]; simpl.
  - intros _. constructor; [intros []|constructor].
  - intro Hnd. inversion Hnd as [|? ? Hnotin Hnd']; subst.
    destruct (String.eqb_spec k0 k) as [->|Hne0]; simpl.
    + now constructor.
    + constructor; [|now apply IH].
      intro HI. apply dict_keys_set_incl in HI.
      destruct HI as [E|HI]; [now subst|contradiction].
Qed.

Lemma dict_set_length_new d k v :
  dict_mem k d = false ->
  List.length (dict_set k v d) = S (List.length d).
Proof.
  unfold dict_mem.
  induction d as [|[k0 v0] d IH]; simpl; [reflexivity|].
  destruct (String.eqb_spec k0 k) as [->|Hne0]; [discriminate|].
  intro H. simpl. now rewrite IH.
Qed.

Lemma dict_del_length_mem d k :
  dict_mem k d = true ->
  S (List.length (dict_del k d)) = List.length d.
Proof.
  unfold dict_mem.
  induction d as [|[k0 v0] d IH]; simpl; [discriminate|].
  destruct (String.eqb_spec k0 k) as [->|Hne0]; [reflexivity|].
  intro H. simpl. now rewrite IH.
Qed.

Lemma dict_set_Forall (P : string * V -> Prop) d k v :
  P (k, v) -> Forall P d -> Forall P (dict_set k v d).
Proof.
  intros Hk. induction d as [|[k0 v0] d IH]; simpl; intro HF.
  - now constructor.
  - inversion HF; subst.
    destruct (String.eqb k0 k); constructor; auto.
Qed.

Lemma dict_del_Forall (P : string * V -> Prop) d k :
  Forall P d -> Forall P (dict_del k d).
Proof.
  induction d as [|[k0 v0] d IH]; simpl; intro HF; [trivial|].
  inversion HF; subst.
  destruct (String.eqb k0 k); [assumption|constructor; auto].
Qed.

Lemma dict_mem_true d k :
  dict_mem k d = true <-> exists v, dict_get k d = Some v.
Proof.
  unfold dict_mem. destruct (dict_get k d) as [v|].
  - split; [intros _; now exists v|reflexivity].
  - split; [discriminate|intros [v Hv]; discriminate].
Qed.

Lemma dict_mem_false d k : dict_mem k d = false <-> dict_get k d = None.
Proof.
  unfold dict_mem. destruct (dict_get k d); split; congruence.
Qed.
End DictFacts.

(** ** Connection pool: bookkeeping *)

Lemma total_count_set_mem d k v v' :
  dict_get k d = Some v ->
  Pool.total_count (dict_set k v' d) =
  Pool.total_count d - Pool.connection_count v + Pool.connection_count v'.
Proof.
  induction d as [|[k0 v0] d IH]; simpl; [discriminate|].
  destruct (String.eqb_spec k0 k) as [->|Hne]; simpl.
  - intro H. injection H as ->. lia.
  - intro H. rewrite (IH H). lia.
Qed.

Lemma total_count_set_new d k v :
  dict_get k d = None ->
  Pool.total_count (dict_set k v d) =
  Pool.total_count d + Pool.connection_count v.
Proof.
  induction d as [|[k0 v0] d IH]; simpl; [lia|].
  destruct (String.eqb_spec k0 k) as [->|Hne]; simpl; [discriminate|].
  intro H. rewrite (IH H). lia.
Qed.

Lemma total_count_del d k v :
  dict_get k d = Some v ->
  Pool.total_count (dict_del k d) =
  Pool.total_count d - Pool.connection_count v.
Proof.
  induction d as [|[k0 v0] d IH]; simpl; [discriminate|].
  destruct (String.eqb_spec k0 k) as [->|Hne]; simpl.
  - intro H. injection H as ->. lia.
  - intro H. rewrite (IH H). lia.
Qed.

Lemma close_all_closes cs :
  Forall closes cs ->
  forall n, Pool.close_all cs n = n - Z.of_nat (List.length cs).
Proof.
  unfold Pool.close_all.
  induction 1 as [|c cs Hc _ IH]; intro n; simpl List.length.
  - simpl. lia.
  - cbn [fold_left]. unfold closes in Hc. rewrite Hc, IH. lia.
Qed.

Lemma config_max_pos ty :
  0 < match dict_get ty Pool._agent_configs with
      | Some c => fst c
      | None => 3
      end.
Proof.
  unfold Pool._agent_configs. cbn [dict_get].
  repeat (match goal with
          | |- context [String.eqb ?a ty] =>
              destruct (String.eqb a ty); [cbn [fst]; lia|]
          end).
  lia.
Qed.

Lemma py_or_pos m d :
  match m with Some v => 0 <= v | None => True end ->
  0 < d -> 0 < py_or m d.
Proof.
  unfold py_or. destruct m as [v|]; [|tauto].
  intros Hv Hd. destruct (Z.eqb_spec v 0); lia.
Qed.

Lemma consistent_invariant p : consistent p -> pool_invariant p.
Proof.
  intros [Hcap Hact Hsum _ _ _ Hent]. repeat split; auto.
  - destruct (Hent _ _ H) as (cs & _ & Hc & _ & _). lia.
  - destruct (Hent _ _ H) as (cs & _ & _ & Hm & _). exact Hm.
Qed.

Lemma init_consistent cap iv tmo : 0 <= cap -> consistent (Pool.init cap iv tmo).
Proof.
  intro H. constructor; simpl; auto; try lia; try constructor.
  intros a info E. discriminate.
Qed.

Lemma register_consistent p a ty m pr now :
  consistent p ->
  match m with Some v => 0 <= v | None => True end ->
  consistent (snd (Pool.register_agent p a ty m pr now)).
Proof.
  intros [Hcap Hact Hsum Hnd Hndc Hkeys Hent] Hm.
  unfold Pool.register_agent.
  pose proof (py_or_pos m _ Hm (config_max_pos ty)) as Hpos.
  set (max_conn := py_or m _) in *.
  set (agent_priority := py_or pr _).
  clearbody max_conn agent_priority.
  destruct (dict_mem a (Pool._agents p)) eqn:E; simpl.
  { now constructor. }
  apply dict_mem_false in E.
  constructor; simpl; auto.
  - rewrite total_count_set_new by exact E. simpl. lia.
  - now apply dict_set_NoDup.
  - now apply dict_set_NoDup.
  - intros b Hb. destruct (String.eqb_spec a b) as [->|Hne].
    + rewrite dict_get_set_eq in Hb. discriminate.
    + rewrite dict_get_set_neq in Hb by exact Hne.
      rewrite dict_get_set_neq by exact Hne. now apply Hkeys.
  - intros b info Hb. destruct (String.eqb_spec a b) as [->|Hne].
    + rewrite dict_get_set_eq in Hb. injection Hb as <-.
      exists []. rewrite dict_get_set_eq. simpl.
      repeat split; auto. lia.
    + rewrite dict_get_set_neq in Hb by exact Hne.
      rewrite dict_get_set_neq by exact Hne. now apply Hent.
Qed.

Lemma close_agent_consistent p a :
  consistent p -> consistent (Pool._close_agent_connections p a).
Proof.
  intros [Hcap Hact Hsum Hnd Hndc Hkeys Hent].
  unfold Pool._close_agent_connections.
  destruct (dict_get a (Pool._agents p)) as [info|] eqn:Ea.
  - destruct (Hent _ _ Ea) as (cs & Hcs & Hlen & Hmax & Hcl).
    rewrite Hcs. unfold dict_mem. simpl. rewrite Ea.
    rewrite (close_all_closes _ Hcl).
    constructor; simpl; auto.
    + lia.
    + rewrite (total_count_del _ _ _ Ea). lia.
    + now apply dict_del_NoDup.
    + now apply dict_del_NoDup.
    + intros b Hb. destruct (String.eqb_spec a b) as [->|Hne].
      * now apply dict_get_del_eq.
      * rewrite dict_get_del_neq in Hb by exact Hne.
        rewrite dict_get_del_neq by exact Hne. now apply Hkeys.
    + intros b i Hb. destruct (String.eqb_spec a b) as [->|Hne].
      * rewrite dict_get_del_eq in Hb by exact Hnd. discriminate.
      * rewrite dict_get_del_neq in Hb by exact Hne.
        rewrite dict_get_del_neq by exact Hne. now apply Hent.
  - rewrite (Hkeys _ Ea). unfold dict_mem. rewrite Ea. now constructor.
Qed.

Lemma sweep_consistent keys now p :
  consistent p -> consistent (Pool.sweep keys now p).
Proof.
  revert p. induction keys as [|k keys IH]; intros p Hp; simpl; [exact Hp|].
  destruct (dict_get k (Pool._agents p)) as [info|]; [|exact Hp].
  apply IH. destruct (Pool.idle p now info); [|exact Hp].
  now apply close_agent_consistent.
Qed.

Lemma close_agent_cap p a :
  Pool.total_max_connections (Pool._close_agent_connections p a) =
  Pool.total_max_connections p.
Proof.
  unfold Pool._close_agent_connections.
  destruct (dict_get a (Pool._connections p)); simpl;
    match goal with |- context [if ?b then _ else _] => destruct b end;
    reflexivity.
Qed.

Lemma shutdown_consistent p : consistent p -> consistent (Pool.shutdown p).
Proof.
  intros [Hcap _ _ _ _ _ _]. unfold Pool.shutdown.
  assert (Hc : forall keys q,
             Pool.total_max_connections
               (fold_left Pool._close_agent_connections keys q) =
             Pool.total_max_connections q).
  { induction keys as [|k keys IH]; intro q; simpl; [reflexivity|].
    rewrite IH. apply close_agent_cap. }
  constructor; simpl; rewrite ?Hc; auto; try constructor.
  intros a info E. discriminate.
Qed.

Lemma release_consistent p a c cl :
  consistent p -> consistent (Pool.release p a c cl).
Proof.
  intros Hp. pose proof Hp as [Hcap Hact Hsum Hnd Hndc Hkeys Hent].
  unfold Pool.release.
  destruct (dict_get a (Pool._connections p)) as [cs|] eqn:Ecs; [|exact Hp].
  destruct (dict_mem c cs) eqn:Emem; [|exact Hp].
  destruct (Pool.close_raises cl); [exact Hp|].
  simpl.
  destruct (dict_get a (Pool._agents p)) as [info|] eqn:Ea.
  - destruct (Hent _ _ Ea) as (cs' & Hcs & Hlen & Hmax & Hcl).
    assert (cs' = cs) by congruence. subst cs'.
    pose proof (dict_del_length_mem _ _ Emem) as Hl.
    constructor; simpl; auto.
    + lia.
    + rewrite (total_count_set_mem _ _ _ _ Ea). simpl. lia.
    + now apply dict_set_NoDup.
    + now apply dict_set_NoDup.
    + intros b Hb. destruct (String.eqb_spec a b) as [->|Hne].
      * rewrite dict_get_set_eq in Hb. discriminate.
      * rewrite dict_get_set_neq in Hb by exact Hne.
        rewrite dict_get_set_neq by exact Hne. now apply Hkeys.
    + intros b i Hb. destruct (String.eqb_spec a b) as [->|Hne].
      * rewrite dict_get_set_eq in Hb. injection Hb as <-.
        exists (dict_del c cs). rewrite dict_get_set_eq. simpl.
        repeat split; auto; try lia.
        now apply dict_del_Forall.
      * rewrite dict_get_set_neq in Hb by exact Hne.
        rewrite dict_get_set_neq by exact Hne. now apply Hent.
  - rewrite (Hkeys _ Ea) in Ecs. discriminate.
Qed.

(** ** Connection pool: the preemption scan *)

Lemma key_lt_iff a b :
  Pool.key_lt a b = true <->
  Pool.priority a < Pool.priority b \/
  (Pool.priority a = Pool.priority b /\
   (Pool.last_activity a < Pool.last_activity b)%Q).
Proof.
  unfold Pool.key_lt.
  rewrite Bool.orb_true_iff, Bool.andb_true_iff, Z.ltb_lt, Z.eqb_eq,
    Qlt_bool_iff.
  reflexivity.
Qed.

Lemma key_lt_false_le a b : Pool.key_lt a b = false -> key_le b a.
Proof.
  intro H. apply Bool.not_true_iff_false in H. rewrite key_lt_iff in H.
  unfold key_le.
  destruct (Z.lt_trichotomy (Pool.priority a) (Pool.priority b))
    as [Hlt|[Heq|Hgt]].
  - exfalso. apply H. now left.
  - right. split; [now symmetry|].
    apply Qnot_lt_le. intro Hq. apply H. right. now split.
  - now left.
Qed.

Lemma key_lt_le a b : Pool.key_lt a b = true -> key_le a b.
Proof.
  rewrite key_lt_iff. unfold key_le.
  intros [H|[H1 H2]]; [now left|right; split; [exact H1|]].
  now apply Qlt_le_weak.
Qed.

Lemma key_le_trans a b c : key_le a b -> key_le b c -> key_le a c.
Proof.
  unfold key_le. intros [H1|[H1 H1']] [H2|[H2 H2']]; try (left; lia).
  right. split; [lia|]. eapply Qle_trans; eassumption.
Qed.

Lemma key_le_refl a : key_le a a.
Proof. right. split; [reflexivity|apply Qle_refl]. Qed.

Lemma sort_by_key_In x l : In x (Pool.sort_by_key l) <-> In x l.
Proof. apply stable_sort_In. Qed.

(** The first element of the sorted list is least for the key. *)
Lemma sort_by_key_head l h t :
  Pool.sort_by_key l = h :: t ->
  In h l /\ forall x, In x l -> key_le (snd h) (snd x).
Proof.
  revert h t. induction l as [|y l IH]; intros h t; [discriminate|].
  unfold Pool.sort_by_key. simpl. fold (Pool.sort_by_key l).
  destruct (Pool.sort_by_key l) as [|h' t'] eqn:Es.
  - simpl. intro E. injection E as <- <-.
    assert (l = []) as ->.
    { destruct l as [|z l]; [reflexivity|].
      assert (In z (Pool.sort_by_key (z :: l)))
        by (apply sort_by_key_In; now left).
      rewrite Es in H. destruct H. }
    split; [now left|]. intros x [<-|[]]. apply key_le_refl.
  - destruct (IH _ _ eq_refl) as [Hin Hmin]. simpl.
    destruct (Pool.key_lt (snd h') (snd y)) eqn:Ek; intro E;
      injection E as <- <-.
    + split; [now right|]. intros x [<-|Hx]; [|now apply Hmin].
      now apply key_lt_le.
    + split; [now left|]. intros x [<-|Hx]; [apply key_le_refl|].
      apply key_le_trans with (snd h'); [|now apply Hmin].
      now apply key_lt_false_le.
Qed.

Lemma candidates_In p r ri x :
  In x (Pool.candidates p r ri) <->
  In x (Pool._agents p) /\ fst x <> r /\
  Pool.priority (snd x) < Pool.priority ri /\
  1 < Pool.connection_count (snd x).
Proof.
  unfold Pool.candidates. rewrite filter_In.
  rewrite !Bool.andb_true_iff, Bool.negb_true_iff, String.eqb_neq,
    Z.ltb_lt, Z.gtb_lt.
  tauto.
Qed.

Lemma try_free_spec p r ri :
  consistent p ->
  dict_get r (Pool._agents p) = Some ri ->
  match Pool.sort_by_key (Pool.candidates p r ri) with
  | [] => Pool._try_free_connections_for_agent p r = (false, p)
  | (v, vi) :: _ =>
      exists cid cl rest,
        Pool.connections_of p v = (cid, cl) :: rest /\
        dict_get v (Pool._agents p) = Some vi /\
        v <> r /\
        Pool._try_free_connections_for_agent p r = (true, evict p v vi cid)
  end.
Proof.
  intros Hp Hr. unfold Pool._try_free_connections_for_agent. rewrite Hr.
  destruct (Pool.sort_by_key (Pool.candidates p r ri)) as [|[v vi] t] eqn:Es;
    [reflexivity|].
  destruct (sort_by_key_head _ _ _ Es) as [Hin _].
  apply candidates_In in Hin. simpl in Hin.
  destruct Hin as (Hin & Hne & _ & Hcnt).
  assert (Hv : dict_get v (Pool._agents p) = Some vi)
    by (apply In_dict_get; [apply (cons_agents_nodup _ Hp)|exact Hin]).
  destruct (cons_entry _ Hp _ _ Hv) as (cs & Hcs & Hlen & _ & Hcl).
  unfold evict, Pool.connections_of. rewrite Hcs.
  destruct cs as [|[cid cl] rest]; [simpl in Hlen; lia|].
  inversion Hcl as [|? ? Hc _]; subst. unfold closes in Hc. simpl in Hc.
  rewrite Hc. exists cid, cl, rest. repeat split; auto.
Qed.

Lemma evict_consistent p v vi cid cl rest :
  consistent p ->
  dict_get v (Pool._agents p) = Some vi ->
  Pool.connections_of p v = (cid, cl) :: rest ->
  consistent (evict p v vi cid).
Proof.
  intros [Hcap Hact Hsum Hnd Hndc Hkeys Hent] Hv Hcs.
  destruct (Hent _ _ Hv) as (cs & Hcs' & Hlen & Hmax & Hcl).
  unfold Pool.connections_of in Hcs. rewrite Hcs' in Hcs. subst cs.
  unfold evict, Pool.connections_of. rewrite Hcs'.
  cbn [dict_del]. rewrite String.eqb_refl.
  constructor; simpl; auto.
  - lia.
  - rewrite (total_count_set_mem _ _ _ _ Hv). simpl. lia.
  - now apply dict_set_NoDup.
  - now apply dict_set_NoDup.
  - intros b Hb. destruct (String.eqb_spec v b) as [->|Hne].
    + rewrite dict_get_set_eq in Hb. discriminate.
    + rewrite dict_get_set_neq in Hb by exact Hne.
      rewrite dict_get_set_neq by exact Hne. now apply Hkeys.
  - intros b i Hb. destruct (String.eqb_spec v b) as [->|Hne].
    + rewrite dict_get_set_eq in Hb. injection Hb as <-.
      exists rest. rewrite dict_get_set_eq. simpl.
      simpl List.length in Hlen. repeat split; auto; try lia.
      now inversion Hcl.
    + rewrite dict_get_set_neq in Hb by exact Hne.
      rewrite dict_get_set_neq by exact Hne. now apply Hent.
Qed.

(** ** Connection pool: acquisition *)

Lemma can_create_spec p a info :
  dict_get a (Pool._agents p) = Some info ->
  Pool._can_create_connection p a =
    if Pool.connection_count info >=? Pool.max_connections info
    then (false, p)
    else if Pool._active_connections p >=? Pool.total_max_connections p
         then Pool._try_free_connections_for_agent p a
         else (true, p).
Proof. intro H. unfold Pool._can_create_connection. now rewrite H. Qed.

Lemma evict_other p v vi cid a :
  v <> a ->
  dict_get a (Pool._agents (evict p v vi cid)) = dict_get a (Pool._agents p) /\
  Pool.connections_of (evict p v vi cid) a = Pool.connections_of p a.
Proof.
  intro Hne. unfold evict, Pool.connections_of. simpl.
  now rewrite !dict_get_set_neq by exact Hne.
Qed.

Lemma can_create_cases p a info :
  consistent p ->
  dict_get a (Pool._agents p) = Some info ->
  Pool._can_create_connection p a = (false, p) \/
  exists p1,
    Pool._can_create_connection p a = (true, p1) /\
    consistent p1 /\
    Pool._active_connections p1 < Pool.total_max_connections p1 /\
    Pool.connection_count info < Pool.max_connections info /\
    dict_get a (Pool._agents p1) = Some info /\
    Pool.connections_of p1 a = Pool.connections_of p a.
Proof.
  intros Hp Ha. rewrite (can_create_spec _ _ _ Ha).
  destruct (Z.geb_spec (Pool.connection_count info)
                       (Pool.max_connections info)) as [Hge|Hlt];
    [now left|].
  destruct (Z.geb_spec (Pool._active_connections p)
                       (Pool.total_max_connections p)) as [Hfull|Hroom].
  - pose proof (try_free_spec _ _ _ Hp Ha) as Hs.
    destruct (Pool.sort_by_key (Pool.candidates p a info))
      as [|[v vi] t]; [now left|].
    destruct Hs as (cid & cl & rest & Hcs & Hv & Hne & ->).
    right. exists (evict p v vi cid).
    destruct (evict_other p v vi cid a Hne) as [E1 E2].
    split; [reflexivity|].
    split; [eapply evict_consistent; eassumption|].
    split; [pose proof (cons_active _ Hp); unfold evict; simpl; lia|].
    split; [exact Hlt|]. split; [now rewrite E1|exact E2].
  - right. exists p. split; [reflexivity|]. split; [exact Hp|].
    split; [exact Hroom|]. split; [exact Hlt|]. now split.
Qed.

Lemma grant_consistent p a info c cl now :
  consistent p ->
  dict_get a (Pool._agents p) = Some info ->
  dict_mem c (Pool.connections_of p a) = false ->
  Pool.close_raises cl = false ->
  Pool.connection_count info < Pool.max_connections info ->
  Pool._active_connections p < Pool.total_max_connections p ->
  consistent (grant p a info c cl now).
Proof.
  intros [Hcap Hact Hsum Hnd Hndc Hkeys Hent] Ha Hfresh Hcl Hroom Hfree.
  destruct (Hent _ _ Ha) as (cs & Hcs & Hlen & Hmax & Hcls).
  unfold Pool.connections_of in Hfresh. rewrite Hcs in Hfresh.
  unfold grant, Pool.connections_of. rewrite Hcs.
  constructor; simpl; auto.
  - lia.
  - rewrite (total_count_set_mem _ _ _ _ Ha). simpl. lia.
  - now apply dict_set_NoDup.
  - now apply dict_set_NoDup.
  - intros b Hb. destruct (String.eqb_spec a b) as [->|Hne].
    + rewrite dict_get_set_eq in Hb. discriminate.
    + rewrite dict_get_set_neq in Hb by exact Hne.
      rewrite dict_get_set_neq by exact Hne. now apply Hkeys.
  - intros b i Hb. destruct (String.eqb_spec a b) as [->|Hne].
    + rewrite dict_get_set_eq in Hb. injection Hb as <-.
      exists (dict_set c cl cs). rewrite dict_get_set_eq. simpl.
      rewrite (dict_set_length_new _ _ _ Hfresh).
      repeat split; auto; try lia.
      apply dict_set_Forall; [exact Hcl|exact Hcls].
    + rewrite dict_get_set_neq in Hb by exact Hne.
      rewrite dict_get_set_neq by exact Hne. now apply Hent.
Qed.

(** What entering [get_connection] does in a consistent pool. *)
Lemma acquire_spec p a c connect now info :
  consistent p ->
  dict_get a (Pool._agents p) = Some info ->
  match Pool._can_create_connection p a with
  | (false, _) => Pool.acquire p a c connect now = (Pool.CapacityError, p)
  | (true, p1) =>
      match connect with
      | None => Pool.acquire p a c connect now = (Pool.ConnectFailed, p1)
      | Some cl =>
          Pool.acquire p a c connect now =
          (Pool.Acquired, grant p1 a info c cl now)
      end
  end.
Proof.
  intros Hp Ha. unfold Pool.acquire, dict_mem. rewrite Ha. simpl.
  destruct (can_create_cases _ _ _ Hp Ha)
    as [->|(p1 & -> & Hp1 & _ & _ & Ha1 & Hc1)]; [reflexivity|].
  simpl. destruct connect as [cl|]; [|reflexivity].
  destruct (cons_entry _ Hp1 _ _ Ha1) as (cs & Hcs & _).
  rewrite Hcs. simpl. rewrite Ha1.
  unfold grant, Pool.connections_of. rewrite Hcs. reflexivity.
Qed.

Lemma acquire_consistent p a c connect now :
  consistent p ->
  op_admissible p (Pool.Acquire a c connect now) = true ->
  consistent (snd (Pool.acquire p a c connect now)).
Proof.
  intros Hp Hok. simpl in Hok. apply Bool.andb_true_iff in Hok.
  destruct Hok as [Hfresh Hcl]. apply Bool.negb_true_iff in Hfresh.
  destruct (dict_get a (Pool._agents p)) as [info|] eqn:Ha.
  - pose proof (acquire_spec p a c connect now info Hp Ha) as Hs.
    destruct (can_create_cases _ _ _ Hp Ha)
      as [E|(p1 & E & Hp1 & Hfree & Hroom & Ha1 & Hc1)];
      rewrite E in Hs.
    + now rewrite Hs.
    + destruct connect as [cl|]; rewrite Hs; simpl; [|exact Hp1].
      apply Bool.negb_true_iff in Hcl.
      apply grant_consistent; auto. now rewrite Hc1.
  - unfold Pool.acquire, dict_mem. rewrite Ha. exact Hp.
Qed.

Lemma step_consistent p op :
  consistent p -> op_admissible p op = true -> consistent (Pool.step p op).
Proof.
  intros Hp Hok. destruct op as [a ty m pr now|a c connect now|a c cl|now|];
    simpl Pool.step.
  - apply register_consistent; [exact Hp|].
    simpl in Hok. destruct m as [v|]; [|exact I]. now apply Z.leb_le.
  - now apply acquire_consistent.
  - now apply release_consistent.
  - now apply sweep_consistent.
  - now apply shutdown_consistent.
Qed.

Lemma run_consistent ops p :
  consistent p -> run_admissible p ops = true ->
  consistent (Pool.run p ops).
Proof.
  revert p. induction ops as [|op ops IH]; intros p Hp Hok; [exact Hp|].
  simpl in Hok. apply Bool.andb_true_iff in Hok. destruct Hok as [H1 H2].
  unfold Pool.run. simpl. apply IH; [|exact H2].
  now apply step_consistent.
Qed.

Lemma run_admissible_firstn k ops p :
  run_admissible p ops = true -> run_admissible p (firstn k ops) = true.
Proof.
  revert ops p. induction k as [|k IH]; intros [|op ops] p H; simpl; auto.
  simpl in H. apply Bool.andb_true_iff in H. destruct H as [H1 H2].
  rewrite H1. simpl. now apply IH.
Qed.

(** ** Connection pool: the idle sweep *)

Lemma close_agent_get p a b :
  NoDup (dict_keys (Pool._agents p)) ->
  NoDup (dict_keys (Pool._connections p)) ->
  dict_get b (Pool._agents (Pool._close_agent_connections p a)) =
    (if String.eqb a b then None else dict_get b (Pool._agents p)) /\
  dict_get b (Pool._connections (Pool._close_agent_connections p a)) =
    (if String.eqb a b then None else dict_get b (Pool._connections p)).
Proof.
  intros Hnd Hndc. unfold Pool._close_agent_connections.
  destruct (dict_get a (Pool._connections p)) as [cs|] eqn:Ec;
    unfold dict_mem; simpl;
    destruct (dict_get a (Pool._agents p)) as [i|] eqn:Ea; simpl;
    destruct (String.eqb_spec a b) as [<-|Hne];
    rewrite ?dict_get_del_eq, ?dict_get_del_neq by assumption; auto.
Qed.

Lemma close_agent_frame p a :
  Pool.connection_timeout (Pool._close_agent_connections p a) =
    Pool.connection_timeout p /\
  (NoDup (dict_keys (Pool._agents p)) ->
   NoDup (dict_keys (Pool._agents (Pool._close_agent_connections p a)))) /\
  (NoDup (dict_keys (Pool._connections p)) ->
   NoDup (dict_keys
            (Pool._connections (Pool._close_agent_connections p a)))).
Proof.
  unfold Pool._close_agent_connections.
  destruct (dict_get a (Pool._connections p)) as [cs|]; unfold dict_mem;
    simpl; destruct (dict_get a (Pool._agents p)); simpl;
    repeat split; auto; intro H; now apply dict_del_NoDup.
Qed.

Lemma idle_timeout p q now i :
  Pool.connection_timeout p = Pool.connection_timeout q ->
  Pool.idle p now i = Pool.idle q now i.
Proof. unfold Pool.idle. now intros ->. Qed.

Lemma existsb_eqb_In a keys :
  existsb (String.eqb a) keys = true <-> In a keys.
Proof.
  rewrite existsb_exists. split.
  - intros (x & Hin & E). apply String.eqb_eq in E. now subst.
  - intro H. exists a. split; [exact H|apply String.eqb_refl].
Qed.

(** The sweep over a list of distinct registered keys removes exactly the
    idle ones among them and leaves every other entry as it was. *)
Lemma sweep_get keys now : forall p,
  NoDup keys ->
  NoDup (dict_keys (Pool._agents p)) ->
  NoDup (dict_keys (Pool._connections p)) ->
  (forall k, In k keys -> dict_get k (Pool._agents p) <> None) ->
  forall a,
    let p' := Pool.sweep keys now p in
    match dict_get a (Pool._agents p) with
    | Some info =>
        if existsb (String.eqb a) keys && Pool.idle p now info
        then dict_get a (Pool._agents p') = None /\
             dict_get a (Pool._connections p') = None
        else dict_get a (Pool._agents p') = Some info /\
             dict_get a (Pool._connections p') =
             dict_get a (Pool._connections p)
    | None =>
        dict_get a (Pool._agents p') = None /\
        dict_get a (Pool._connections p') =
        dict_get a (Pool._connections p)
    end.
Proof.
  induction keys as [|k keys IH]; intros p Hk Hnd Hndc Hreg a; simpl.
  - destruct (dict_get a (Pool._agents p)); auto.
  - inversion Hk as [|? ? Hnotin Hk']; subst.
    destruct (dict_get k (Pool._agents p)) as [ki|] eqn:Ek;
      [|exfalso; apply (Hreg k); [now left|exact Ek]].
    set (q := if Pool.idle p now ki
              then Pool._close_agent_connections p k else p).
    assert (Hq : Pool.connection_timeout q = Pool.connection_timeout p /\
                 NoDup (dict_keys (Pool._agents q)) /\
                 NoDup (dict_keys (Pool._connections q)) /\
                 forall b,
                   dict_get b (Pool._agents q) =
                     (if String.eqb k b && Pool.idle p now ki
                      then None else dict_get b (Pool._agents p)) /\
                   dict_get b (Pool._connections q) =
                     (if String.eqb k b && Pool.idle p now ki
                      then None else dict_get b (Pool._connections p))).
    { subst q. destruct (Pool.idle p now ki).
      - destruct (close_agent_frame p k) as (Ht & Hn1 & Hn2).
        repeat split; auto;
          rewrite Bool.andb_true_r; now apply close_agent_get.
      - repeat split; auto; now rewrite Bool.andb_false_r. }
    destruct Hq as (Ht & Hndq & Hndcq & Hget).
    assert (Hregq : forall k', In k' keys ->
                               dict_get k' (Pool._agents q) <> None).
    { intros k' Hin. destruct (Hget k') as [-> _].
      destruct (String.eqb_spec k k') as [<-|Hne]; [contradiction|].
      simpl. apply Hreg. now right. }
    specialize (IH q Hk' Hndq Hndcq Hregq a). simpl in IH.
    destruct (Hget a) as [Ea Ec]. rewrite Ea, Ec in IH.
    destruct (String.eqb_spec k a) as [<-|Hne]; simpl in IH.
    + rewrite Ek in *. rewrite String.eqb_refl. simpl.
      destruct (Pool.idle p now ki) eqn:Ei.
      * destruct IH as [IH1 IH2]. split; [exact IH1|].
        rewrite IH2. reflexivity.
      * destruct (existsb (String.eqb k) keys) eqn:Ex;
          [apply existsb_eqb_In in Ex; contradiction|]. exact IH.
    + destruct (dict_get a (Pool._agents p)) as [info|] eqn:Eaa;
        [|exact IH].
      destruct (String.eqb_spec a k) as [E|_]; [now subst|].
      rewrite (idle_timeout q p now info Ht) in IH. exact IH.
Qed.

(** ** Rate limiter *)

(** C9. For a limiter with delay [d] and last permitted call at [L], read at
    time [t]: [can_proceed] answers true exactly when [t - L >= d], exactly
    when [time_until_next_call] answers [0.0]; otherwise
    [time_until_next_call] answers [d - (t - L)]; [wait] suspends for
    [max(0, d - (t - L))] and then stores the new clock reading as the
    last-call time; the two queries leave the limiter as it was. *)
Theorem rate_limiter_contract (self : RateLimiter.t) (t t' : Q) :
  let d := RateLimiter.delay self in
  let L := RateLimiter.last_call_time self in
  (fst (RateLimiter.can_proceed self t) = true <-> (t - L >= d)%Q) /\
  (fst (RateLimiter.can_proceed self t) = true <->
     fst (RateLimiter.time_until_next_call self t) = 0%Q) /\
  (fst (RateLimiter.can_proceed self t) = false ->
     fst (RateLimiter.time_until_next_call self t) = (d - (t - L))%Q) /\
  RateLimiter.suspended (fst (RateLimiter.wait self t t')) =
    Qmax 0 (d - (t - L)) /\
  RateLimiter.last_call_time (snd (RateLimiter.wait self t t')) = t' /\
  RateLimiter.delay (snd (RateLimiter.wait self t t')) = d /\
  snd (RateLimiter.can_proceed self t) = self /\
  snd (RateLimiter.time_until_next_call self t) = self.
Proof.
  intros d L.
  unfold RateLimiter.can_proceed, RateLimiter.time_until_next_call,
    RateLimiter.wait. simpl. fold d L.
  rewrite Qlt_bool_ge_bool.
  destruct (Qge_bool (t - L) d) eqn:E; simpl.
  - apply Qge_bool_iff in E.
    repeat split; auto; try discriminate.
    unfold Qmax, GenericMinMax.gmax.
    destruct (Qcompare_spec 0 (d - (t - L))) as [H|H|H]; try reflexivity.
    exfalso. lra.
  - pose proof E as E'. apply Qge_bool_false in E'.
    repeat split; auto; try discriminate.
    + intro H. exfalso. lra.
    + intro H. exfalso.
      assert (H0 : (d - (t - L) == 0)%Q) by (rewrite H; reflexivity). lra.
    + unfold Qmax, GenericMinMax.gmax.
      destruct (Qcompare_spec 0 (d - (t - L))) as [H|H|H]; try reflexivity;
        exfalso; lra.
Qed.


Lemma rate_limiter_contract_witness :
  let self := RateLimiter.mk 3 10 in
  fst (RateLimiter.can_proceed self 11) = false /\
  fst (RateLimiter.time_until_next_call self 11) = (3 - (11 - 10))%Q.
Proof.
  intro self. split; [reflexivity|].
  destruct (rate_limiter_contract self 11 12) as (_ & _ & H3 & _).
  apply H3. reflexivity.
Defined.

(** ** Connection pool: the claims *)

(** C1, as amended. Starting from a fresh pool whose global cap is not
    negative, along every sequence of operations in which no registration
    passes a negative [max_connections], every acquisition uses a connection
    id the agent does not hold and no client's [close()] raises, after every
    operation the agents' counts add up to the global counter, the global
    counter is at most the global cap, and every agent's count is between 0
    and its own cap. *)
Theorem pool_counters_invariant (cap iv tmo : Z) (ops : list Pool.Op)
    (k : nat) :
  0 <= cap ->
  run_admissible (Pool.init cap iv tmo) ops = true ->
  pool_invariant (Pool.run (Pool.init cap iv tmo) (firstn k ops)).
Proof.
  intros Hcap Hok. apply consistent_invariant. apply run_consistent.
  - now apply init_consistent.
  - now apply run_admissible_firstn.
Qed.

Lemma pool_counters_invariant_witness :
  0 <= 3 /\
  run_admissible (Pool.init 3 300 1800) demo_ops = true /\
  pool_invariant (Pool.run (Pool.init 3 300 1800) (firstn 6 demo_ops)).
Proof.
  split; [lia|]. split; [reflexivity|].
  apply (pool_counters_invariant 3 300 1800 demo_ops 6); [lia|reflexivity].
Defined.

(** C1 as stated fails: (1) a registration with [max_connections = -1]
    leaves an agent whose count 0 exceeds its cap; (2) a pool built with a
    negative global cap starts above it; (3) two acquisitions under the same
    connection id occupy one dictionary slot, so the sweep that removes the
    agent decrements the global counter once for a count of two; (4) a
    client whose [close()] raises is dropped by the sweep without the global
    counter being decremented. *)
Lemma pool_counters_counterexample :
  ~ pool_invariant
      (Pool.run (Pool.init 50 300 1800)
         [Pool.Register "a" "crawler" (Some (-1)) None 0]) /\
  ~ pool_invariant (Pool.run (Pool.init (-1) 300 1800) []) /\
  ~ pool_invariant
      (Pool.run (Pool.init 50 300 1800)
         [Pool.Register "a" "crawler" None None 0;
          Pool.Acquire "a" "c" (Some demo_client) 1;
          Pool.Acquire "a" "c" (Some demo_client) 1;
          Pool.CleanupIdle 5000]) /\
  ~ pool_invariant
      (Pool.run (Pool.init 50 300 1800)
         [Pool.Register "a" "crawler" None None 0;
          Pool.Acquire "a" "c" (Some (Pool.mkClient true)) 1;
          Pool.CleanupIdle 5000]).
Proof.
  repeat split; intros (Hsum & Hcap & Hbound).
  - destruct (Hbound "a" _ eq_refl) as [_ H]. simpl in H. lia.
  - simpl in Hcap. lia.
  - vm_compute in Hsum. discriminate.
  - vm_compute in Hsum. discriminate.
Qed.

Lemma sort_by_key_nil l : Pool.sort_by_key l = [] <-> l = [].
Proof.
  split; [|now intros ->].
  destruct l as [|x l]; [reflexivity|]. intro H. exfalso.
  assert (Hin : In x (Pool.sort_by_key (x :: l)))
    by (apply sort_by_key_In; now left).
  rewrite H in Hin. destruct Hin.
Qed.

(** C2, as amended. In a consistent pool, the acquisition of a registered
    agent raises the capacity error exactly when the agent is at its own
    [max_connections], or the pool is at the global cap and no agent is
    eligible for preemption; otherwise it succeeds as soon as the connector
    delivers a client; the capacity error leaves the pool unchanged. *)
Theorem acquire_capacity_error (p : Pool.t) (a c : string)
    (connect : option Pool.Client) (now : Q)
    (info : Pool.AgentConnectionInfo) :
  consistent p ->
  dict_get a (Pool._agents p) = Some info ->
  let r := Pool.acquire p a c connect now in
  (fst r = Pool.CapacityError <->
     Pool.max_connections info <= Pool.connection_count info \/
     (Pool.total_max_connections p <= Pool._active_connections p /\
      Pool.candidates p a info = [])) /\
  (fst r <> Pool.CapacityError ->
     forall cl, connect = Some cl -> fst r = Pool.Acquired) /\
  (fst r = Pool.CapacityError -> snd r = p).
Proof.
  intros Hp Ha r.
  pose proof (acquire_spec p a c connect now info Hp Ha) as Hs.
  pose proof (try_free_spec p a info Hp Ha) as Ht.
  rewrite (can_create_spec _ _ _ Ha) in Hs.
  destruct (Z.geb_spec (Pool.connection_count info)
                       (Pool.max_connections info)) as [Hge|Hlt].
  { subst r. rewrite Hs. simpl. split; [|split]; auto.
    - split; [intros _; now left|reflexivity].
    - intro H. now elim H. }
  destruct (Z.geb_spec (Pool._active_connections p)
                       (Pool.total_max_connections p)) as [Hfull|Hroom].
  - destruct (Pool.sort_by_key (Pool.candidates p a info))
      as [|[v vi] t] eqn:Es.
    + rewrite Ht in Hs. subst r. rewrite Hs. simpl.
      apply (proj1 (sort_by_key_nil _)) in Es. split; [|split]; auto.
      * split; [intros _; right; now split|reflexivity].
      * intro H. now elim H.
    + destruct Ht as (cid & cl & rest & _ & _ & _ & Ht).
      rewrite Ht in Hs.
      assert (Hne : Pool.candidates p a info <> []).
      { intro E. rewrite E in Es. discriminate. }
      subst r. destruct connect as [cl0|]; rewrite Hs; simpl;
        (split; [|split]);
        try (split; [discriminate|intros [H|[_ H]]; [lia|contradiction]]);
        try discriminate; auto.
  - subst r. destruct connect as [cl0|]; rewrite Hs; simpl;
      (split; [|split]);
      try (split; [discriminate|intros [H|[H _]]; lia]);
      try discriminate; auto.
Qed.

Lemma full_pool_consistent : consistent full_pool.
Proof.
  apply run_consistent; [apply init_consistent; lia|reflexivity].
Qed.

Lemma acquire_capacity_error_witness :
  consistent full_pool /\
  dict_get "a" (Pool._agents full_pool) =
    Some (Pool.mkInfo "a" "nlp" 0 2 4 1) /\
  fst (Pool.acquire full_pool "a" "c2" (Some demo_client) 3) =
    Pool.CapacityError.
Proof.
  split; [exact full_pool_consistent|]. split; [reflexivity|].
  apply (acquire_capacity_error full_pool "a" "c2" (Some demo_client) 3
           (Pool.mkInfo "a" "nlp" 0 2 4 1) full_pool_consistent eq_refl).
  right. split; [simpl; lia|reflexivity].
Defined.

(** C2 as stated fails: in [full_pool] the nlp agent holds 0 of its 4
    connections, so it is not at its own cap, and its acquisition raises the
    capacity error all the same, the global cap being reached with nobody to
    preempt. *)
Lemma acquire_capacity_counterexample :
  exists info,
    dict_get "a" (Pool._agents full_pool) = Some info /\
    fst (Pool.acquire full_pool "a" "c2" (Some demo_client) 3) =
      Pool.CapacityError /\
    ~ (Pool.max_connections info <= Pool.connection_count info /\
       fst (Pool._try_free_connections_for_agent full_pool "a") = false).
Proof.
  exists (Pool.mkInfo "a" "nlp" 0 2 4 1).
  split; [reflexivity|]. split; [reflexivity|].
  intros [H _]. simpl in H. lia.
Qed.



(** C3 as stated fails outside consistent pools: in [stubborn_pool] the
    database agent's acquisition reaches the scan and the nlp agent is a
    candidate, but the [close()] of its oldest connection raises, so nobody
    loses a connection and the acquisition fails with the capacity error; in
    [hollow_pool] the candidate counts two connections and tracks none, and
    the acquisition fails likewise. *)
Lemma preemption_counterexample :
  (exists ri,
     dict_get "r" (Pool._agents stubborn_pool) = Some ri /\
     preemption_triggered stubborn_pool ri /\
     Pool.candidates stubborn_pool "r" ri <> [] /\
     Pool._try_free_connections_for_agent stubborn_pool "r" =
       (false, stubborn_pool) /\
     Pool.acquire stubborn_pool "r" "d1" (Some demo_client) 4 =
       (Pool.CapacityError, stubborn_pool)) /\
  (exists ri,
     dict_get "r" (Pool._agents hollow_pool) = Some ri /\
     preemption_triggered hollow_pool ri /\
     Pool.candidates hollow_pool "r" ri <> [] /\
     Pool.connections_of hollow_pool "v" = [] /\
     Pool.acquire hollow_pool "r" "d2" (Some demo_client) 6 =
       (Pool.CapacityError, hollow_pool)).
Proof.
  split.
  - exists (Pool.mkInfo "r" "database" 0 3 3 4).
    split; [reflexivity|].
    split; [split; [reflexivity|vm_compute; discriminate]|].
    split; [discriminate|]. split; reflexivity.
  - exists (Pool.mkInfo "r" "database" 1 5 3 4).
    split; [reflexivity|].
    split; [split; [reflexivity|vm_compute; discriminate]|].
    split; [discriminate|]. split; reflexivity.
Qed.



(** C4 as stated fails: the only client of the idle crawler of [stuck_pool]
    raises on [close()]; the sweep unregisters the crawler and drops the
    connection, which has not been closed, and the global counter still
    counts it, so the counters no longer add up. *)
Lemma idle_sweep_counterexample :
  let p' := Pool._cleanup_idle_connections stuck_pool 5000 in
  Pool.connections_of stuck_pool "a" = [("c", stubborn_client)] /\
  ~ closes ("c", stubborn_client) /\
  dict_get "a" (Pool._agents p') = None /\
  dict_get "a" (Pool._connections p') = None /\
  Pool._active_connections p' = Pool._active_connections stuck_pool /\
  Pool._active_connections p' = 1 /\
  ~ pool_invariant p'.
Proof.
  intro p'. split; [reflexivity|]. split; [discriminate|].
  split; [reflexivity|]. split; [reflexivity|]. split; [reflexivity|].
  split; [reflexivity|].
  intros (Hsum & _). vm_compute in Hsum. discriminate.
Qed.

(** ** Storage usage *)

Lemma walk_usage_pdf_only fs : forall n,
  StorageManager.walk_usage fs n =
  StorageManager.walk_usage (filter pdf_entry fs) n.
Proof.
  induction fs as [|[path node] fs IH]; intro n; [reflexivity|].
  cbn [filter StorageManager.walk_usage]. unfold pdf_entry at 1. cbn [fst].
  destruct (ends_with ".pdf" path) eqn:E;
    cbn [StorageManager.walk_usage]; rewrite ?E; [|apply IH].
  destruct (FS.node_size node); [apply IH|reflexivity].
Qed.

(** C10. When the walk of the storage tree meets an exception,
    [get_current_storage_usage] answers 0 and [can_store_file] accepts
    every size up to the ceiling, so that the capacity check of
    [_download_file] lets through every response that announces a size up
    to the ceiling; and the entries whose names do not end in [.pdf] have no
    influence on the measured usage of any tree. *)
Theorem unreadable_tree_counts_as_empty (self : StorageManager.t)
    (fs : FS.t) (e : string) :
  StorageManager.walk_usage fs 0 = Raise e ->
  StorageManager.get_current_storage_usage self fs = 0 /\
  (forall size, size <= StorageManager.max_storage_bytes self ->
     StorageManager.can_store_file self fs size = true) /\
  (forall (dl : PDFDownloader.t) (r : Response),
     PDFDownloader.storage dl = self ->
     (forall n, content_length r = Some n ->
                n <= StorageManager.max_storage_bytes self) ->
     size_accepted dl fs r) /\
  (forall fs' : FS.t,
     StorageManager.get_current_storage_usage self fs' =
     StorageManager.get_current_storage_usage self (filter pdf_entry fs')).
Proof.
  intro He.
  assert (Hu : StorageManager.get_current_storage_usage self fs = 0)
    by (unfold StorageManager.get_current_storage_usage; now rewrite He).
  assert (Hc : forall size,
             size <= StorageManager.max_storage_bytes self ->
             StorageManager.can_store_file self fs size = true).
  { intros size Hs. unfold StorageManager.can_store_file. rewrite Hu.
    now apply Z.leb_le. }
  split; [exact Hu|]. split; [exact Hc|]. split.
  - intros dl r Hdl Hr. unfold size_accepted. rewrite Hdl.
    destruct (content_length r) as [n|]; [|exact I].
    right. apply Hc. now apply Hr.
  - intro fs'. unfold StorageManager.get_current_storage_usage.
    now rewrite walk_usage_pdf_only.
Qed.

Lemma unreadable_tree_counts_as_empty_witness :
  StorageManager.walk_usage unreadable_tree 0 = Raise "FileNotFoundError" /\
  StorageManager.can_store_file (StorageManager.init "papers" 300)
    unreadable_tree (300 * 1024 * 1024 * 1024) = true.
Proof.
  split; [reflexivity|].
  apply (unreadable_tree_counts_as_empty
           (StorageManager.init "papers" 300) unreadable_tree
           "FileNotFoundError" eq_refl).
  simpl. lia.
Defined.

(** ** Writing a response to disk *)

Section DownloadFacts.
Context {H : Hasher}.

Lemma write_chunks_spec self path chunks :
  forall w total h data mt abort w' total' h',
    dict_get path (fs w) = Some (FS.File data mt) ->
    NoDup (dict_keys (fs w)) ->
    PDFDownloader.write_chunks self chunks path w total h =
      (abort, w', total', h') ->
    NoDup (dict_keys (fs w')) /\
    requests w' = requests w /\
    match abort with
    | Some _ => dict_get path (fs w') = None
    | None =>
        exists mt',
          dict_get path (fs w') =
            Some (FS.File (data ++ List.concat chunks) mt') /\
          total' = total + Z.of_nat (List.length (List.concat chunks))
    end.
Proof.
  induction chunks as [|chunk chunks IH];
    intros w total h data mt abort w' total' h' Hget Hnd E.
  - simpl in E. injection E as <- <- <- <-.
    split; [exact Hnd|]. split; [reflexivity|].
    exists mt. rewrite app_nil_r. split; [exact Hget|simpl; lia].
  - cbn [PDFDownloader.write_chunks] in E.
    unfold FS.append in E. rewrite Hget in E.
    set (fs1 := dict_set path (FS.File (data ++ chunk) (clock w)) (fs w))
      in E.
    assert (Hnd1 : NoDup (dict_keys fs1)) by now apply dict_set_NoDup.
    assert (Hget1 : dict_get path fs1 =
                    Some (FS.File (data ++ chunk) (clock w)))
      by apply dict_get_set_eq.
    destruct (negb (StorageManager.can_store_file
                      (PDFDownloader.storage self)
                      (fs (with_fs fs1 w)) 0)).
    + injection E as <- <- <- <-. simpl.
      split; [now apply dict_del_NoDup|]. split; [reflexivity|].
      now apply dict_get_del_eq.
    + apply IH with (data := (data ++ chunk)%list) (mt := clock w) in E;
        [|exact Hget1|exact Hnd1].
      destruct E as (Hn & Hr & Hm). split; [exact Hn|].
      split; [exact Hr|].
      destruct abort; [exact Hm|].
      destruct Hm as (mt' & Hg & Ht). exists mt'.
      simpl List.concat. rewrite app_assoc. split; [exact Hg|].
      rewrite length_app, Ht, Nat2Z.inj_add. lia.
Qed.

(** A response with status 200 whose body arrives completely ends either
    with a valid file holding the body, or with a failure and no file. *)
Lemma download_file_completed self env w url path r :
  NoDup (dict_keys (fs w)) ->
  http env url = HttpResponse r ->
  status r = 200 ->
  stream_error r = None ->
  size_accepted self (fs w) r ->
  let res := PDFDownloader._download_file self env w url path in
  let body := List.concat (chunks r) in
  (exists e,
      fst (fst res) = PDFDownloader.Failure e /\
      dict_get path (fs (snd res)) = None) \/
  (exists md5 mt,
      fst (fst res) =
        PDFDownloader.Success (Z.of_nat (List.length body)) md5 /\
      dict_get path (fs (snd res)) = Some (FS.File body mt) /\
      PDFDownloader.valid_pdf body = true).
Proof.
  intros Hnd Hhttp Hst Herr Hadm res body. subst res.
  unfold PDFDownloader._download_file.
  destruct (rate_limit (PDFDownloader.rate_limiter self) w) as [rl w0]
    eqn:Erl.
  assert (Hfs0 : fs w0 = fs w)
    by (change w0 with (snd (rl, w0)); rewrite <- Erl; reflexivity).
  rewrite Hhttp, Hst. simpl negb. cbv iota.
  set (self1 := PDFDownloader.with_rate_limiter rl self).
  assert (Hspace :
            match content_length r with
            | Some n =>
                negb (n =? 0) &&
                negb (StorageManager.can_store_file
                        (PDFDownloader.storage self) (fs w0) n)
            | None => false
            end = false).
  { unfold size_accepted in Hadm. rewrite Hfs0.
    destruct (content_length r) as [n|]; [|reflexivity].
    destruct Hadm as [ -> | -> ]; [reflexivity|].
    simpl. apply Bool.andb_false_r. }
  rewrite Hspace.
  set (w2 := with_fs _ (with_request url w0)).
  destruct (PDFDownloader.write_chunks self1 (chunks r) path w2 0 hash_new)
    as [[[abort w3] total] h] eqn:Ew.
  assert (Hget2 : dict_get path (fs w2) =
                  Some (FS.File [] (clock (with_request url w0))))
    by (subst w2; simpl; unfold FS.create; apply dict_get_set_eq).
  assert (Hnd2 : NoDup (dict_keys (fs w2))).
  { subst w2. simpl. unfold FS.create. apply dict_set_NoDup.
    now rewrite Hfs0. }
  destruct (write_chunks_spec _ _ _ _ _ _ _ _ _ _ _ _ Hget2 Hnd2 Ew)
    as (Hnd3 & _ & Hm).
  destruct abort as [e|].
  { left. exists e. simpl. now split. }
  rewrite Herr. destruct Hm as (mt' & Hg & Ht). simpl in Hg.
  unfold PDFDownloader._validate_pdf_file. rewrite Hg.
  fold body. destruct (PDFDownloader.valid_pdf body) eqn:Ev; simpl.
  - right. exists (hash_hexdigest h), mt'. rewrite Ht. simpl.
    repeat split; auto.
  - left. eexists. split; [reflexivity|]. now apply dict_get_del_eq.
Qed.

Lemma append_all_spec path now chunks : forall (f : FS.t) data mt,
  dict_get path f = Some (FS.File data mt) ->
  exists mt',
    dict_get path
      (fold_left (fun f chunk => FS.append f path chunk now) chunks f) =
    Some (FS.File (data ++ List.concat chunks) mt').
Proof.
  induction chunks as [|chunk chunks IH]; intros f data mt Hget; simpl.
  - exists mt. now rewrite app_nil_r.
  - unfold FS.append at 2. rewrite Hget.
    destruct (IH (dict_set path (FS.File (data ++ chunk) now) f)
                 (data ++ chunk)%list now (dict_get_set_eq _ _ _))
      as (mt' & Hm).
    exists mt'. now rewrite app_assoc.
Qed.

(** The fallback keeps whatever a 200 response carried. *)
Lemma download_fallback_completed env w url path verify r :
  http env url = HttpResponse r ->
  status r = 200 ->
  stream_error r = None ->
  let res := Agent._download_fallback env w url path verify in
  let body := List.concat (chunks r) in
  Agent.success (fst res) = true /\
  Agent.local_path (fst res) = Some path /\
  Agent.file_size (fst res) = Z.of_nat (List.length body) /\
  exists mt, dict_get path (fs (snd res)) = Some (FS.File body mt).
Proof.
  intros Hhttp Hst Herr res body. subst res.
  unfold Agent._download_fallback. rewrite Hhttp, Hst, Herr. simpl Z.eqb.
  cbv iota.
  set (w1 := with_request url w).
  destruct (append_all_spec path (clock w1) (chunks r)
              (FS.create (fs w1) path (clock w1)) [] (clock w1))
    as (mt & Hm).
  { unfold FS.create. apply dict_get_set_eq. }
  simpl in Hm. fold body in Hm.
  unfold FS.getsize, Agent.checksum_if, Agent._calculate_checksum, FS.read.
  simpl fs. rewrite Hm. simpl.
  destruct verify; simpl; repeat split; eauto.
Qed.
End DownloadFacts.

(** ** Downloads: the claims *)

Lemma set_discard_add x s :
  Agent.set_mem x s = false -> Agent.set_discard x (Agent.set_add x s) = s.
Proof.
  intro Hx. unfold Agent.set_add. rewrite Hx.
  unfold Agent.set_discard. rewrite filter_app. simpl.
  rewrite String.eqb_refl. simpl. rewrite app_nil_r.
  unfold Agent.set_mem in Hx.
  induction s as [|y s IH]; simpl; [reflexivity|].
  simpl in Hx. apply Bool.orb_false_iff in Hx. destruct Hx as [Hy Hs].
  rewrite Hy. simpl. now rewrite IH.
Qed.

(** C5, as amended. [download_pdf]: when the url is not in flight, the
    usage is below 95 percent and the derived local file exists (whatever
    its size), nothing is requested, the result is a success with the path
    and size of the file, and its checksum is the hash of the file's
    content when [verify_integrity] is set and absent otherwise; agent and
    store are as before, up to the rate limiter. [download_paper]: when the
    record is not flagged as downloaded and the derived file holds more than
    1000 bytes, nothing is requested and the record comes back flagged, with
    the path and size; that record carries no checksum. *)
Theorem repeated_download_skips {H : Hasher} (env : Env) (w : World) :
  (forall (self : Agent.t) (url : string) (paper_id : option string)
          (verify : bool) (data : list byte) (mt : Q),
     Agent.set_mem url (Agent.active_downloads self) = false ->
     Agent._check_storage_capacity self w = Ok true ->
     let path := Agent._generate_local_path self url paper_id in
     dict_get path (fs w) = Some (FS.File data mt) ->
     let res := Agent.download_pdf self env w url paper_id verify in
     (exists r,
        fst (fst res) = Ok r /\
        Agent.success r = true /\
        Agent.local_path r = Some path /\
        Agent.file_size r = Z.of_nat (List.length data) /\
        Agent.checksum r =
          (if verify then Some (Agent.checksum_of data) else None) /\
        (verify = true ->
         Agent._calculate_checksum (fs (snd res)) path =
           Ok (Agent.checksum_of data))) /\
     requests (snd res) = requests w /\
     fs (snd res) = fs w /\
     Agent.active_downloads (snd (fst res)) = Agent.active_downloads self /\
     Agent.download_history (snd (fst res)) = Agent.download_history self) /\
  (forall (dl : PDFDownloader.t) (paper : PDFDownloader.Paper)
          (id url src : string) (data : list byte) (mt : Q),
     PDFDownloader.paper_id paper = Some id ->
     PDFDownloader.pdf_url paper = Some url ->
     PDFDownloader.source paper = Some src ->
     PDFDownloader.pdf_downloaded paper <> Some true ->
     let path :=
       StorageManager.get_paper_file_path (PDFDownloader.storage dl) id src in
     dict_get path (fs w) = Some (FS.File data mt) ->
     1000 < Z.of_nat (List.length data) ->
     let res := PDFDownloader.download_paper dl env w paper in
     fst (fst res) =
       Ok (PDFDownloader.mark_downloaded path (Z.of_nat (List.length data))
                                         paper) /\
     snd res = w).
Proof.
  split.
  - intros self url paper_id verify data mt Hact Hcap path Hfile res.
    subst res. unfold Agent.download_pdf. rewrite Hact, Hcap.
    unfold rate_limit. cbv zeta. cbn [fst snd].
    change (Agent._generate_local_path _ url paper_id) with path.
    cbn [fs with_clock]. rewrite Hfile.
    unfold Agent.checksum_if, Agent._calculate_checksum, FS.read.
    cbn [fs]. rewrite Hfile.
    destruct verify; cbn [fst snd]; repeat split;
      try (eexists; repeat split; try reflexivity; try discriminate);
      simpl; try now rewrite set_discard_add.
    + intros _. now rewrite Hfile.
  - intros dl paper id url src data mt Hid Hurl Hsrc Hflag path Hfile Hsize
      res.
    subst res. unfold PDFDownloader.download_paper.
    rewrite Hid, Hurl, Hsrc.
    assert (Hf : match PDFDownloader.pdf_downloaded paper with
                 | Some b => b
                 | None => false
                 end = false).
    { destruct (PDFDownloader.pdf_downloaded paper) as [[|]|];
        [now elim Hflag|reflexivity|reflexivity]. }
    rewrite Hf. cbn [PDFDownloader.storage PDFDownloader.with_stats].
    fold path. rewrite Hfile.
    apply Z.gtb_lt in Hsize. rewrite Hsize. split; reflexivity.
Qed.

Lemma repeated_download_skips_witness :
  let agent := Agent.init "papers" in
  let dl := PDFDownloader.init (StorageManager.init "papers" 300) 1 in
  let res :=
    Agent.download_pdf (H := plain_hasher) agent oops_env stocked_world
                       paper_url None true in
  let res2 :=
    PDFDownloader.download_paper (H := plain_hasher) dl oops_env
                                 stocked_world stocked_paper in
  Agent.set_mem paper_url (Agent.active_downloads agent) = false /\
  Agent._check_storage_capacity agent stocked_world = Ok true /\
  requests (snd res) = [] /\
  (exists r, fst (fst res) = Ok r /\ Agent.success r = true) /\
  PDFDownloader.pdf_downloaded stocked_paper <> Some true /\
  snd res2 = stocked_world.
Proof.
  intros agent dl res res2.
  destruct (repeated_download_skips (H := plain_hasher) oops_env
              stocked_world) as [H1 H2].
  assert (Ha : Agent.set_mem paper_url (Agent.active_downloads agent) = false)
    by reflexivity.
  assert (Hc : Agent._check_storage_capacity agent stocked_world = Ok true)
    by reflexivity.
  assert (Hf : PDFDownloader.pdf_downloaded stocked_paper <> Some true)
    by discriminate.
  specialize (H1 agent paper_url None true paper_bytes 5%Q Ha Hc eq_refl).
  specialize (H2 dl stocked_paper "2301.00001" paper_url "arxiv"
                 paper_bytes 5%Q eq_refl eq_refl eq_refl Hf eq_refl).
  destruct H1 as ((r & Hr & Hs & _) & Hreq & _).
  split; [exact Ha|]. split; [exact Hc|]. split; [exact Hreq|].
  split; [exists r; now split|]. split; [exact Hf|].
  apply H2. vm_compute. reflexivity.
Defined.

(** C5 as stated fails: with [verify_integrity=False] the skip result of
    [download_pdf] carries no checksum although the file can be hashed; and
    while the url is in flight the repeated download is answered with a
    failure although the file is on disk. *)
Lemma repeated_download_counterexample :
  let agent := Agent.init "papers" in
  let busy := Agent.with_active [paper_url] agent in
  let path := Agent._generate_local_path (H := plain_hasher) agent
                                         paper_url None in
  FS.is_file (fs stocked_world) path = true /\
  (exists r c,
     fst (fst (Agent.download_pdf (H := plain_hasher) agent oops_env
                 stocked_world paper_url None false)) = Ok r /\
     Agent._calculate_checksum (H := plain_hasher) (fs stocked_world) path =
       Ok c /\
     Agent.checksum r <> Some c) /\
  (exists r,
     fst (fst (Agent.download_pdf (H := plain_hasher) busy oops_env
                 stocked_world paper_url None true)) = Ok r /\
     Agent.success r = false).
Proof.
  intros agent busy path. split; [reflexivity|]. split.
  - eexists. eexists. split; [reflexivity|]. split; [reflexivity|].
    discriminate.
  - eexists. split; reflexivity.
Qed.

(** C6, as amended. [PDFDownloader._download_file]: when a response with
    status 200 passes the capacity check on its announced size and its body
    arrives completely, a body that fails validation (fewer than 1000 bytes,
    or not starting with [%PDF-]) ends in a failure with the file removed;
    every failure of such a download leaves no file at the path, and a
    success leaves the body there, valid. [_download_fallback] of the agent
    does not validate: it reports success for such a response and keeps the
    body on disk, whatever it is. *)
Theorem invalid_download_is_removed {H : Hasher} (self : PDFDownloader.t)
    (env : Env) (w : World) (url path : string) (r : Response)
    (verify : bool) :
  NoDup (dict_keys (fs w)) ->
  http env url = HttpResponse r ->
  status r = 200 ->
  stream_error r = None ->
  size_accepted self (fs w) r ->
  let body := List.concat (chunks r) in
  let res := PDFDownloader._download_file self env w url path in
  let res' := Agent._download_fallback env w url path verify in
  (PDFDownloader.valid_pdf body = false ->
   exists e,
     fst (fst res) = PDFDownloader.Failure e /\
     dict_get path (fs (snd res)) = None) /\
  (forall e,
     fst (fst res) = PDFDownloader.Failure e ->
     dict_get path (fs (snd res)) = None) /\
  (forall size md5,
     fst (fst res) = PDFDownloader.Success size md5 ->
     size = Z.of_nat (List.length body) /\
     PDFDownloader.valid_pdf body = true /\
     exists mt, dict_get path (fs (snd res)) = Some (FS.File body mt)) /\
  Agent.success (fst res') = true /\
  exists mt, dict_get path (fs (snd res')) = Some (FS.File body mt).
Proof.
  intros Hnd Hhttp Hst Herr Hadm body res res'.
  pose proof (download_file_completed self env w url path r
                Hnd Hhttp Hst Herr Hadm) as Hc.
  pose proof (download_fallback_completed env w url path verify r
                Hhttp Hst Herr) as Hf.
  cbv zeta in Hc, Hf. fold body res in Hc. fold body res' in Hf.
  split; [|split; [|split; [|split]]].
  - intro Hinv. destruct Hc as [(e & He & Hg)|(md5 & mt & _ & _ & Hv)].
    + exists e. now split.
    + congruence.
  - intros e He. destruct Hc as [(e' & _ & Hg)|(md5 & mt & Hs & _)].
    + exact Hg.
    + congruence.
  - intros size md5 Hs.
    destruct Hc as [(e' & He & _)|(md5' & mt & Hs' & Hg & Hv)];
      [congruence|].
    rewrite Hs in Hs'. injection Hs' as -> _.
    split; [reflexivity|]. split; [exact Hv|]. now exists mt.
  - apply Hf.
  - apply Hf.
Qed.

Lemma invalid_download_is_removed_witness :
  let dl := PDFDownloader.init (StorageManager.init "papers" 300) 1 in
  let r := mkResponse 200 "OK" "text/html" None [bytes "oops"] None in
  let res :=
    PDFDownloader._download_file (H := plain_hasher) dl oops_env empty_world
      paper_url "papers/arxiv/2301/2301.00001.pdf" in
  NoDup (dict_keys (fs empty_world)) /\
  http oops_env paper_url = HttpResponse r /\
  size_accepted dl (fs empty_world) r /\
  PDFDownloader.valid_pdf (List.concat (chunks r)) = false /\
  exists e,
    fst (fst res) = PDFDownloader.Failure e /\
    dict_get "papers/arxiv/2301/2301.00001.pdf" (fs (snd res)) = None.
Proof.
  intros dl r res.
  assert (Hnd : NoDup (dict_keys (fs empty_world))) by constructor.
  assert (Hadm : size_accepted dl (fs empty_world) r) by exact I.
  split; [exact Hnd|]. split; [reflexivity|]. split; [exact Hadm|].
  split; [reflexivity|].
  apply (invalid_download_is_removed (H := plain_hasher) dl oops_env
           empty_world paper_url "papers/arxiv/2301/2301.00001.pdf" r true
           Hnd eq_refl eq_refl eq_refl Hadm).
  reflexivity.
Defined.

(** C6 as stated fails: with the fetch service not connected,
    [download_pdf] of the agent stores the four bytes [oops] that the server
    sent with status 200, reports success, and the file, which fails both
    validation criteria, stays on disk. *)
Lemma invalid_download_counterexample :
  let res :=
    Agent.download_pdf (H := plain_hasher) (Agent.init "papers") oops_env
                       empty_world paper_url None true in
  PDFDownloader.valid_pdf (bytes "oops") = false /\
  (exists r, fst (fst res) = Ok r /\ Agent.success r = true) /\
  exists mt,
    dict_get "papers/2/2301.00001.pdf" (fs (snd res)) =
      Some (FS.File (bytes "oops") mt).
Proof.
  intro res. split; [reflexivity|].
  split; eexists; [split|]; reflexivity.
Qed.

(** ** Tasks gathered under a semaphore *)




Section GatherFacts.
Context {Task Shared R : Type}.
Variable resume : Task -> Shared -> Task * Shared.
Variable result : Task -> option (Exc R).
Variable steps_left : Task -> nat.

(** What holds of the tasks and of what they share whenever the event
    loop has the hand. *)
Variable Inv : list Task -> Shared -> Prop.

Hypothesis Inv_step :
  forall ts s k t,
    Inv ts s -> nth_error ts k = Some t -> result t = None ->
    Inv (Asyncio.list_set k (fst (resume t s)) ts) (snd (resume t s)) /\
    (steps_left (fst (resume t s)) < steps_left t)%nat.








(** With a locked semaphore nothing moves. *)
Lemma gather_locked (schedule : list nat) (tasks : list Task) (s : Shared) :
  Forall (fun t => result t = None) tasks ->
  tasks <> [] ->
  Asyncio.gather resume result steps_left schedule 0 tasks s =
    (Asyncio.Hangs, s).
Proof.
  intros Hnone Hne. unfold Asyncio.gather.
  set (slots := map (Asyncio.mkSlot false) tasks).
  assert (Hready : Asyncio.ready result 0 slots = []).
  { unfold Asyncio.ready.
    assert (Hh : filter (Asyncio.holding result) slots = []).
    { unfold slots. clear. induction tasks; simpl; auto. }
    unfold Asyncio.semaphore_value. rewrite Hh. simpl.
    unfold slots. generalize O. clear -Hnone.
    induction Hnone as [|t ts Ht _ IH]; intro i; [reflexivity|].
    simpl. unfold Asyncio.over at 1. simpl. rewrite Ht. apply IH. }
  assert (Hrun : forall fuel,
            Asyncio.run resume result fuel schedule 0 slots s = (slots, s)).
  { intros [|fuel]; [reflexivity|]. simpl. now rewrite Hready. }
  rewrite Hrun.
  destruct tasks as [|t ts]; [congruence|].
  inversion Hnone as [|? ? Ht _]; subst. simpl. now rewrite Ht.
Qed.

End GatherFacts.

(** ** Batches *)



Section AgentBatch.
Context {H : Hasher}.



End AgentBatch.

Section PaperBatch.
Context {H : Hasher}.





End PaperBatch.






(** C8 as stated fails: the batch functions build their semaphore from
    [max_concurrent] as it comes. A negative value makes them raise
    [ValueError] before any item is looked at, and with the value 0 no
    download ever starts and a batch that is not empty never returns. *)
Lemma batch_counterexample :
  (forall (self : Agent.t) env w pdf_urls schedule,
     Agent.download_batch (H := plain_hasher) self env w pdf_urls (-1)
                          schedule =
       (Asyncio.Raises "Semaphore initial value must be >= 0", self, w)) /\
  (forall (self : Agent.t) env w url pdf_urls schedule,
     Agent.download_batch (H := plain_hasher) self env w (url :: pdf_urls) 0
                          schedule =
       (Asyncio.Hangs, self, w)) /\
  (forall (self : PDFDownloader.t) env w heap papers schedule,
     PDFDownloader.download_papers_batch (H := plain_hasher) self env w heap
                                         papers (-1) schedule =
       (Asyncio.Raises "Semaphore initial value must be >= 0", self, w,
        heap)) /\
  (forall (self : PDFDownloader.t) env w heap paper papers schedule,
     PDFDownloader.download_papers_batch (H := plain_hasher) self env w heap
                                         (paper :: papers) 0 schedule =
       (Asyncio.Hangs, self, w, heap)).
Proof.
  split; [reflexivity|]. split; [|split; [reflexivity|]].
  - intros self env w url pdf_urls schedule.
    unfold Agent.download_batch. cbn [Asyncio.Semaphore Z.ltb Z.compare].
    rewrite gather_locked; [reflexivity| |discriminate].
    apply Forall_forall. intros t Hin. apply in_map_iff in Hin.
    destruct Hin as (u & <- & _). reflexivity.
  - intros self env w heap paper papers schedule.
    unfold PDFDownloader.download_papers_batch.
    cbn [Asyncio.Semaphore Z.ltb Z.compare].
    rewrite gather_locked; [reflexivity| |discriminate].
    apply Forall_forall. intros t Hin. apply in_map_iff in Hin.
    destruct Hin as (u & <- & _). reflexivity.
Qed.

(** The downloads of a batch run side by side. Two tasks for one url that
    are both under way: the second is turned away, where two downloads one
    after the other both succeed. *)
Example batch_interleaves :
  let urls := ["http://h/a.pdf"; "http://h/a.pdf"] in
  let batch := Agent.download_batch (H := plain_hasher)
                 (Agent.init "papers") oops_env empty_world urls in
  (exists results self' w',
     batch 2 [0; 1]%nat = (Asyncio.Returns results, self', w') /\
     map Agent.success results = [true; false] /\
     map Agent.error_message results =
       [None; Some "Download already in progress"]) /\
  (exists results self' w',
     batch 1 [0; 1]%nat = (Asyncio.Returns results, self', w') /\
     map Agent.success results = [true; true]).
Proof.
  split; eexists _, _, _; (split; [vm_compute; reflexivity|]);
    repeat split; reflexivity.
Qed.

(** ** Removing files *)

Lemma pdf_files_In fs p d m :
  In (p, (d, m)) (FS.pdf_files fs) <->
  In (p, FS.File d m) fs /\ ends_with ".pdf" p = true.
Proof.
  induction fs as [|[k [d' m'|]] fs IH]; simpl.
  - tauto.
  - destruct (ends_with ".pdf" k) eqn:E; simpl; rewrite IH; split.
    + intros [Eq|[Hin Hp]]; [injection Eq as -> -> ->; auto|auto].
    + intros [[Eq|Hin] Hp]; [injection Eq as -> -> ->; auto|auto].
    + intros [Hin Hp]; auto.
    + intros [[Eq|Hin] Hp]; [injection Eq as -> -> ->; congruence|auto].
  - rewrite IH. split; [intros [Hin Hp]; auto|].
    intros [[Eq|Hin] Hp]; [discriminate|auto].
Qed.

Lemma pdf_files_paths fs p :
  In p (map fst (FS.pdf_files fs)) ->
  In p (dict_keys fs) /\ ends_with ".pdf" p = true.
Proof.
  intro Hin. apply in_map_iff in Hin. destruct Hin as ([q [d m]] & <- & Hin).
  apply pdf_files_In in Hin. destruct Hin as [Hin Hp]. split; [|exact Hp].
  unfold dict_keys. apply in_map_iff. exists (q, FS.File d m).
  split; [reflexivity|exact Hin].
Qed.

Lemma pdf_files_NoDup fs :
  NoDup (dict_keys fs) -> NoDup (map fst (FS.pdf_files fs)).
Proof.
  induction fs as [|[k [d m|]] fs IH]; simpl; intro Hnd;
    [constructor| |]; inversion Hnd as [|? ? Hnotin Hnd']; subst;
    [|now apply IH].
  destruct (ends_with ".pdf" k); [|now apply IH].
  simpl. constructor; [|now apply IH].
  intro Hin. apply Hnotin. now apply pdf_files_paths in Hin.
Qed.







(** ** Grouping by checksum *)

Section Dedup.
Context {H : Hasher}.

Lemma group_of_app c (l1 l2 : Files) :
  group_of c (l1 ++ l2) = group_of c l1 ++ group_of c l2.
Proof. unfold group_of. apply filter_app. Qed.

Lemma add_to_group_grouped m done f :
  grouped m done -> grouped (Agent.add_to_group m f) (done ++ [f]).
Proof.
  intros [Hnd Hget]. unfold Agent.add_to_group.
  fold (file_checksum f). set (c0 := file_checksum f).
  assert (Hnd' : NoDup (dict_keys
                          match dict_get c0 m with
                          | Some files => dict_set c0 (files ++ [fst f]) m
                          | None => dict_set c0 [fst f] m
                          end))
    by (destruct (dict_get c0 m); now apply dict_set_NoDup).
  split; [exact Hnd'|]. intro c.
  rewrite group_of_app, map_app.
  unfold group_of at 2. cbn [filter]. fold c0.
  destruct (String.eqb_spec c0 c) as [<-|Hne].
  - rewrite (Hget c0). cbn [map].
    destruct (map fst (group_of c0 done)) as [|p ps];
      rewrite dict_get_set_eq; reflexivity.
  - cbn [map]. rewrite app_nil_r, <- Hget.
    destruct (dict_get c0 m); now rewrite dict_get_set_neq.
Qed.

Lemma fold_add_to_group_grouped (files : Files) : forall m done,
  grouped m done ->
  grouped (fold_left Agent.add_to_group files m) (done ++ files).
Proof.
  induction files as [|f files IH]; intros m done Hg; simpl.
  - now rewrite app_nil_r.
  - replace (done ++ f :: files) with ((done ++ [f]) ++ files)
      by (rewrite <- app_assoc; reflexivity).
    apply IH. now apply add_to_group_grouped.
Qed.

Lemma checksum_map_grouped fs :
  grouped (Agent.checksum_map fs) (FS.pdf_files fs).
Proof.
  unfold Agent.checksum_map.
  apply (fold_add_to_group_grouped (FS.pdf_files fs) [] []).
  split; [constructor|]. intro c. reflexivity.
Qed.

Lemma grouped_values m (files : Files) v :
  grouped m files ->
  In v (dict_values m) <->
  v <> [] /\ exists c, v = map fst (group_of c files).
Proof.
  intros [Hnd Hget]. split.
  - intro Hin. apply in_map_iff in Hin. destruct Hin as ([c v'] & E & Hin).
    simpl in E. subst v'. apply (In_dict_get _ _ _ Hnd) in Hin.
    rewrite Hget in Hin.
    destruct (map fst (group_of c files)) as [|p ps] eqn:Eg;
      [discriminate|].
    injection Hin as <-. split; [discriminate|]. exists c. now rewrite Eg.
  - intros [Hne (c & ->)]. specialize (Hget c).
    destruct (map fst (group_of c files)) as [|p ps] eqn:Eg;
      [now elim Hne|].
    apply dict_get_In in Hget. apply in_map_iff.
    exists (c, p :: ps). split; [reflexivity|exact Hget].
Qed.

Lemma doomed_In fs p :
  In p (doomed fs) <->
  exists c, In p (tl (map fst (group_of c (FS.pdf_files fs)))).
Proof.
  unfold doomed, Agent._find_duplicate_files.
  pose proof (checksum_map_grouped fs) as Hg.
  rewrite in_concat. split.
  - intros (l & Hl & Hp). apply in_map_iff in Hl.
    destruct Hl as (g & <- & Hgin). apply filter_In in Hgin.
    destruct Hgin as [Hgin _].
    apply (grouped_values _ _ _ Hg) in Hgin.
    destruct Hgin as [_ (c & ->)]. now exists c.
  - intros (c & Hp). exists (tl (map fst (group_of c (FS.pdf_files fs)))).
    split; [|exact Hp]. apply in_map. apply filter_In. split.
    + apply (grouped_values _ _ _ Hg). split; [|now exists c].
      intro E. rewrite E in Hp. destruct Hp.
    + destruct (map fst (group_of c (FS.pdf_files fs))) as [|a [|b l]];
        [destruct Hp|destruct Hp|reflexivity].
Qed.

Lemma remove_duplicates_flat fs dups :
  Agent.remove_duplicates fs dups =
  fold_left Agent.remove_file (List.concat (map (@tl string) dups))
            (fs, 0, 0).
Proof.
  unfold Agent.remove_duplicates. generalize (fs, 0, 0).
  induction dups as [|g dups IH]; intro acc; [reflexivity|].
  cbn [fold_left map List.concat]. rewrite fold_left_app. apply IH.
Qed.

Lemma group_of_In c (files : Files) f :
  In f (group_of c files) <-> In f files /\ file_checksum f = c.
Proof.
  unfold group_of. rewrite filter_In, String.eqb_eq. reflexivity.
Qed.

Lemma doomed_pdf fs :
  Forall (fun p => ends_with ".pdf" p = true) (doomed fs).
Proof.
  apply Forall_forall. intros p Hp. apply doomed_In in Hp.
  destruct Hp as (c & Hp).
  assert (Hin : In p (map fst (group_of c (FS.pdf_files fs)))).
  { destruct (map fst (group_of c (FS.pdf_files fs))); [destruct Hp|].
    now right. }
  apply in_map_iff in Hin. destruct Hin as (f & <- & Hf).
  apply group_of_In in Hf. destruct Hf as [Hf _].
  apply (pdf_files_paths fs). now apply in_map.
Qed.

Lemma NoDup_map_filter (P : string * (list byte * Q) -> bool)
    (files : Files) :
  NoDup (map fst files) -> NoDup (map fst (filter P files)).
Proof.
  induction files as [|f files IH]; simpl; intro Hnd; [constructor|].
  inversion Hnd as [|? ? Hnotin Hnd']; subst.
  destruct (P f); simpl; [|now apply IH].
  constructor; [|now apply IH]. intro Hin. apply Hnotin.
  apply in_map_iff in Hin. destruct Hin as (g & Eg & Hg).
  apply filter_In in Hg. destruct Hg as [Hg _].
  rewrite <- Eg. now apply in_map.
Qed.

Lemma same_path_same_file (files : Files) f g :
  NoDup (map fst files) -> In f files -> In g files -> fst f = fst g ->
  f = g.
Proof.
  induction files as [|h files IH]; simpl; intros Hnd Hf Hg E;
    [destruct Hf|].
  inversion Hnd as [|? ? Hnotin Hnd']; subst.
  destruct Hf as [->|Hf], Hg as [->|Hg]; auto.
  - exfalso. apply Hnotin. rewrite E. now apply in_map.
  - exfalso. apply Hnotin. rewrite <- E. now apply in_map.
Qed.

End Dedup.

(** ** Storage cleanup: the claim *)

Section DedupClaim.
Context {H : Hasher}.




Lemma firstn_In_incl (A : Type) n : forall (l : list A) x,
  In x (firstn n l) -> In x l.
Proof.
  induction n as [|n IH]; intros [|a l] x Hin; simpl in *;
    try contradiction.
  destruct Hin as [->|Hin]; [now left|right; now apply IH].
Qed.

Lemma find_old_files_pdf fs percentage :
  Forall (fun p => ends_with ".pdf" p = true)
         (Agent._find_old_files fs percentage).
Proof.
  apply Forall_forall. intros p Hp. unfold Agent._find_old_files in Hp.
  apply in_map_iff in Hp. destruct Hp as (f & <- & Hf).
  apply firstn_In_incl in Hf. apply stable_sort_In in Hf.
  apply (pdf_files_paths fs). now apply in_map.
Qed.





End DedupClaim.



(** C7 as stated fails. In [crowded_world] the oldest paper has a younger
    copy. The deduplication phase removes the copy and frees its 3 bytes;
    the second phase then removes the oldest paper, which was the one kept:
    no paper with that checksum is left in the store that is returned, and
    the freed space that is reported stands for the 6 bytes of both. *)
Lemma dedup_counterexample :
  let agent := Agent.init "papers" in
  let w := crowded_world in
  let run := Agent.manage_storage (H := plain_hasher) agent w 0 in
  let dedup :=
    Agent.remove_duplicates (fs w)
      (Agent._find_duplicate_files (H := plain_hasher) (fs w)) in
  NoDup (dict_keys (fs w)) /\
  (exists final_usage,
     fst run = Ok (Agent.Cleanup 1 1 (gb_of_bytes 6) final_usage)) /\
  map fst (group_of (H := plain_hasher) "dup" (FS.pdf_files (fs w))) =
    ["papers/a/a.pdf"; "papers/b/b.pdf"] /\
  map fst (group_of (H := plain_hasher) "dup"
             (FS.pdf_files (fst (fst dedup)))) = ["papers/a/a.pdf"] /\
  snd dedup = 3 /\
  group_of (H := plain_hasher) "dup" (FS.pdf_files (fs (snd run))) = [] /\
  List.length (FS.pdf_files (fs (snd run))) = 8%nat.
Proof.
  intros agent w run dedup.
  split; [repeat constructor; simpl; intuition discriminate|].
  split; [eexists; vm_compute; reflexivity|].
  repeat split; vm_compute; reflexivity.
Qed.

(** * Further properties *)

(** ** Dictionaries, continued *)

Section DictMore.
Context {V : Type}.
Implicit Types (d : Dict V) (k : string) (v : V).

Lemma dict_set_same d k v : dict_get k d = Some v -> dict_set k v d = d.
Proof.
  induction d as [|[k' v'] d IH]; simpl; [discriminate|].
  destruct (String.eqb_spec k' k) as [->|Hne]; intro H.
  - now injection H as ->.
  - now rewrite IH.
Qed.

Lemma dict_set_set d k v v' :
  dict_set k v (dict_set k v' d) = dict_set k v d.
Proof.
  induction d as [|[k0 v0] d IH]; simpl.
  - now rewrite String.eqb_refl.
  - destruct (String.eqb_spec k0 k) as [->|Hne]; simpl.
    + now rewrite String.eqb_refl.
    + destruct (String.eqb_spec k0 k); [contradiction|]. now rewrite IH.
Qed.

Lemma dict_del_set_new d k v :
  dict_mem k d = false -> dict_del k (dict_set k v d) = d.
Proof.
  unfold dict_mem.
  induction d as [|[k0 v0] d IH]; simpl.
  - now rewrite String.eqb_refl.
  - destruct (String.eqb_spec k0 k) as [->|Hne]; [discriminate|].
    intro H. simpl. destruct (String.eqb_spec k0 k); [contradiction|].
    now rewrite IH.
Qed.
End DictMore.

(** ** Connection pool: registration *)

(** X1. [register_agent] refuses an id that is registered, leaving the pool
    as it is; otherwise it answers true, the agent is then registered under
    its id and type with no connection and [last_activity = now], no other
    entry and no counter changes, and a second registration of the same id
    is refused. *)
Theorem register_agent_once (p : Pool.t) (a ty : string)
    (m pr : option Z) (now : Q) :
  let r := Pool.register_agent p a ty m pr now in
  (dict_mem a (Pool._agents p) = true -> r = (false, p)) /\
  (dict_mem a (Pool._agents p) = false ->
   fst r = true /\
   (exists info,
      dict_get a (Pool._agents (snd r)) = Some info /\
      Pool.agent_id info = a /\ Pool.agent_type info = ty /\
      Pool.connection_count info = 0 /\ Pool.last_activity info = now) /\
   dict_get a (Pool._connections (snd r)) = Some [] /\
   Pool._active_connections (snd r) = Pool._active_connections p /\
   forall b, b <> a ->
     dict_get b (Pool._agents (snd r)) = dict_get b (Pool._agents p) /\
     dict_get b (Pool._connections (snd r)) =
       dict_get b (Pool._connections p)) /\
  forall ty' m' pr' now',
    Pool.register_agent (snd r) a ty' m' pr' now' = (false, snd r).
Proof.
  intro r. subst r.
  destruct (dict_mem a (Pool._agents p)) eqn:E.
  - assert (Hr : Pool.register_agent p a ty m pr now = (false, p))
      by (unfold Pool.register_agent; now rewrite E).
    rewrite Hr. split; [reflexivity|]. split; [discriminate|].
    intros ty' m' pr' now'. cbn [snd]. unfold Pool.register_agent.
    now rewrite E.
  - set (info := Pool.mkInfo a ty 0 now
                   (py_or m match dict_get ty Pool._agent_configs with
                            | Some c => fst c
                            | None => 3
                            end)
                   (py_or pr match dict_get ty Pool._agent_configs with
                             | Some c => snd c
                             | None => 1
                             end)).
    assert (Hr : Pool.register_agent p a ty m pr now =
                 (true,
                  Pool.with_connections (dict_set a [] (Pool._connections p))
                    (Pool.with_agents (dict_set a info (Pool._agents p)) p)))
      by (unfold Pool.register_agent; now rewrite E).
    rewrite Hr. split; [discriminate|]. split.
    + intros _. cbn [fst snd Pool._agents Pool._connections
                     Pool._active_connections Pool.with_connections
                     Pool.with_agents].
      split; [reflexivity|]. split.
      { exists info. rewrite dict_get_set_eq. split; [reflexivity|].
        subst info. repeat split. }
      split; [apply dict_get_set_eq|]. split; [reflexivity|].
      intros b Hb. rewrite !dict_get_set_neq by congruence. now split.
    + intros ty' m' pr' now'. cbn [snd]. unfold Pool.register_agent.
      unfold dict_mem. cbn [Pool._agents Pool.with_connections
                             Pool.with_agents].
      now rewrite dict_get_set_eq.
Qed.

Lemma register_agent_once_witness :
  let p := Pool.init 50 300 1800 in
  let r := Pool.register_agent p "a1" "crawler" None None 7 in
  dict_mem "a1" (Pool._agents p) = false /\
  fst r = true /\
  dict_mem "a1" (Pool._agents (snd r)) = true /\
  Pool.register_agent (snd r) "a1" "scraper" None None 8 = (false, snd r).
Proof.
  intros p r.
  destruct (register_agent_once p "a1" "crawler" None None 7)
    as (_ & H2 & H3).
  split; [reflexivity|]. split; [apply (H2 eq_refl)|].
  split; [reflexivity|]. apply H3.
Defined.

(** X2. An explicit 0 for [max_connections] or for [priority] counts as
    omitted, and an agent type without an entry in the table gets 3 and 1.
    So whenever no negative number is passed, a newly registered agent has a
    positive cap and a positive priority. *)
Theorem register_agent_defaults (p : Pool.t) (a ty : string)
    (m pr : option Z) (now : Q) :
  Pool.register_agent p a ty (Some 0) pr now =
    Pool.register_agent p a ty None pr now /\
  Pool.register_agent p a ty m (Some 0) now =
    Pool.register_agent p a ty m None now /\
  (dict_mem a (Pool._agents p) = false ->
   match m with Some v => 0 <= v | None => True end ->
   match pr with Some v => 0 <= v | None => True end ->
   exists info,
     dict_get a (Pool._agents (snd (Pool.register_agent p a ty m pr now))) =
       Some info /\
     0 < Pool.max_connections info /\ 0 < Pool.priority info /\
     (dict_get ty Pool._agent_configs = None -> m = None -> pr = None ->
      Pool.max_connections info = 3 /\ Pool.priority info = 1)).
Proof.
  split; [reflexivity|]. split; [reflexivity|].
  intros E Hm Hpr. unfold Pool.register_agent. rewrite E.
  assert (Hprio : 0 < match dict_get ty Pool._agent_configs with
                      | Some c => snd c
                      | None => 1
                      end).
  { unfold Pool._agent_configs. cbn [dict_get].
    repeat (match goal with
            | |- context [String.eqb ?x ty] =>
                destruct (String.eqb x ty); [cbn [snd]; lia|]
            end).
    lia. }
  pose proof (py_or_pos m _ Hm (config_max_pos ty)) as H1.
  pose proof (py_or_pos pr _ Hpr Hprio) as H2.
  cbn [snd Pool._agents Pool.with_connections Pool.with_agents].
  eexists. rewrite dict_get_set_eq. split; [reflexivity|].
  cbn [Pool.max_connections Pool.priority].
  split; [exact H1|]. split; [exact H2|].
  intros Hty -> ->. rewrite Hty. split; reflexivity.
Qed.

Lemma register_agent_defaults_witness :
  let p := Pool.init 50 300 1800 in
  exists info,
    dict_get "x" (Pool._agents
                    (snd (Pool.register_agent p "x" "indexer" (Some 0) None
                                              0))) = Some info /\
    Pool.max_connections info = 3 /\ Pool.priority info = 1.
Proof.
  intro p.
  destruct (register_agent_defaults p "x" "indexer" None None 0)
    as (_ & _ & H).
  destruct (H eq_refl I I) as (info & Hi & _ & _ & Hd).
  exists info. split; [exact Hi|]. now apply Hd.
Defined.

(** ** Connection pool: handles *)

Lemma grant_other p a info c cl now b :
  a <> b ->
  dict_get b (Pool._agents (grant p a info c cl now)) =
    dict_get b (Pool._agents p) /\
  Pool.connections_of (grant p a info c cl now) b = Pool.connections_of p b.
Proof.
  intro Hne. unfold grant, Pool.connections_of. simpl.
  now rewrite !dict_get_set_neq by exact Hne.
Qed.

Lemma release_grant p a info c cl now :
  consistent p ->
  dict_get a (Pool._agents p) = Some info ->
  dict_mem c (Pool.connections_of p a) = false ->
  Pool.close_raises cl = false ->
  Pool.release (grant p a info c cl now) a c cl = touch p a info now.
Proof.
  intros Hp Ha Hfresh Hcl.
  destruct (cons_entry _ Hp _ _ Ha) as (cs & Hcs & _).
  unfold Pool.connections_of in Hfresh. rewrite Hcs in Hfresh.
  unfold Pool.release, grant, Pool.connections_of. rewrite Hcs.
  cbn [Pool._connections Pool.with_connections Pool.with_agents
       Pool.with_active Pool._agents Pool._active_connections].
  rewrite dict_get_set_eq.
  assert (Hmem : dict_mem c (dict_set c cl cs) = true)
    by (unfold dict_mem; now rewrite dict_get_set_eq).
  rewrite Hmem, Hcl, dict_get_set_eq.
  rewrite (dict_del_set_new _ _ _ Hfresh), !dict_set_set.
  rewrite (dict_set_same _ _ _ Hcs).
  unfold touch, Pool.with_agents, Pool.with_active, Pool.with_connections,
    Pool.with_count, Pool.with_activity.
  cbn. destruct p as [cap iv tmo ag co act sd]; destruct info; cbn.
  f_equal; [|lia]. f_equal. f_equal. lia.
Qed.

(** X3. In a consistent pool, a successful acquisition under a fresh
    connection id followed by the release of that handle gives back the
    pool as it was after the capacity check (the pool itself when it was
    below the global cap), except that the agent's [last_activity] is the
    time of the acquisition: counters and connection dictionaries are
    restored. *)
Theorem acquire_release_round_trip (p p1 : Pool.t) (a c : string)
    (cl : Pool.Client) (now : Q) (info : Pool.AgentConnectionInfo) :
  consistent p ->
  dict_get a (Pool._agents p) = Some info ->
  dict_mem c (Pool.connections_of p a) = false ->
  Pool.close_raises cl = false ->
  Pool.acquire p a c (Some cl) now = (Pool.Acquired, p1) ->
  let p0 := snd (Pool._can_create_connection p a) in
  Pool.release p1 a c cl = touch p0 a info now /\
  (Pool._active_connections p < Pool.total_max_connections p -> p0 = p).
Proof.
  intros Hp Ha Hfresh Hcl Hacq p0. subst p0.
  pose proof (acquire_spec p a c (Some cl) now info Hp Ha) as Hs.
  destruct (can_create_cases _ _ _ Hp Ha)
    as [E|(q & E & Hq & _ & Hroom & Haq & Hcq)]; rewrite E in Hs |- *.
  - rewrite Hs in Hacq. discriminate.
  - rewrite Hs in Hacq. injection Hacq as <-. cbn [snd]. split.
    + apply release_grant; auto. now rewrite Hcq.
    + intro Hfree. rewrite (can_create_spec _ _ _ Ha) in E.
      destruct (Z.geb_spec (Pool.connection_count info)
                           (Pool.max_connections info)); [discriminate|].
      destruct (Z.geb_spec (Pool._active_connections p)
                           (Pool.total_max_connections p)); [lia|].
      now injection E.
Qed.

Lemma acquire_release_round_trip_witness :
  let p := Pool.run (Pool.init 3 300 1800) (firstn 3 demo_ops) in
  let info := Pool.mkInfo "a1" "crawler" 1 1 8 2 in
  let p1 := snd (Pool.acquire p "a1" "c9" (Some demo_client) 5) in
  consistent p /\
  dict_get "a1" (Pool._agents p) = Some info /\
  Pool.acquire p "a1" "c9" (Some demo_client) 5 = (Pool.Acquired, p1) /\
  Pool.release p1 "a1" "c9" demo_client = touch p "a1" info 5.
Proof.
  intros p info p1.
  assert (Hp : consistent p)
    by (apply run_consistent; [apply init_consistent; lia|reflexivity]).
  split; [exact Hp|]. split; [reflexivity|]. split; [reflexivity|].
  destruct (acquire_release_round_trip p p1 "a1" "c9" demo_client 5 info
              Hp eq_refl eq_refl eq_refl eq_refl) as [H1 H2].
  rewrite H1. f_equal.
Defined.

(** X4. A handle that is released after the pool has been shut down
    changes nothing, whatever the pool was. The same holds for a handle
    released after the idle sweep has removed its agent: in a pool whose
    dictionaries hold each key once, once a registered agent has been idle
    for more than the timeout at the time of the sweep, the release of any
    of its handles leaves the swept pool as it is. The counters of a pool
    are never decremented for a connection that the pool has dropped. *)
Theorem late_release_is_ignored (p : Pool.t) (a c : string)
    (cl : Pool.Client) :
  Pool.release (Pool.shutdown p) a c cl = Pool.shutdown p /\
  (NoDup (dict_keys (Pool._agents p)) ->
   NoDup (dict_keys (Pool._connections p)) ->
   forall (t : Q) (info : Pool.AgentConnectionInfo),
     dict_get a (Pool._agents p) = Some info ->
     (t - Pool.last_activity info > inject_Z (Pool.connection_timeout p))%Q ->
     Pool.release (Pool._cleanup_idle_connections p t) a c cl =
       Pool._cleanup_idle_connections p t).
Proof.
  split; [reflexivity|]. intros Hnd Hndc t info Ha Hidle.
  assert (Hreg : forall k, In k (dict_keys (Pool._agents p)) ->
                           dict_get k (Pool._agents p) <> None).
  { intros k Hin E. apply dict_get_None in E. contradiction. }
  pose proof (sweep_get (dict_keys (Pool._agents p)) t p Hnd Hnd Hndc Hreg a)
    as H.
  simpl in H. rewrite Ha in H.
  assert (Hin : existsb (String.eqb a) (dict_keys (Pool._agents p)) = true).
  { apply existsb_eqb_In. apply dict_get_In in Ha.
    apply in_map_iff. exists (a, info). now split. }
  assert (Hi : Pool.idle p t info = true)
    by (unfold Pool.idle; now apply Qlt_bool_iff).
  rewrite Hin, Hi in H. simpl in H. destruct H as [_ Hc].
  unfold Pool.release. unfold Pool._cleanup_idle_connections at 1.
  now rewrite Hc.
Qed.

Lemma late_release_is_ignored_witness :
  let swept := Pool._cleanup_idle_connections stuck_pool 5000 in
  Pool._active_connections swept = 1 /\
  Pool.release swept "a" "c" stubborn_client = swept.
Proof.
  intro swept. split; [reflexivity|].
  destruct (late_release_is_ignored stuck_pool "a" "c" stubborn_client)
    as [_ H].
  assert (Hnd : NoDup (dict_keys (Pool._agents stuck_pool)))
    by (repeat constructor; simpl; intuition discriminate).
  assert (Hndc : NoDup (dict_keys (Pool._connections stuck_pool)))
    by (repeat constructor; simpl; intuition discriminate).
  apply (H Hnd Hndc 5000%Q (Pool.mkInfo "a" "crawler" 1 1 8 2) eq_refl).
  simpl. unfold Qlt. simpl. lia.
Defined.

(** ** Connection pool: shutdown and sweep *)

Lemma close_agent_config p a :
  Pool.total_max_connections (Pool._close_agent_connections p a) =
    Pool.total_max_connections p /\
  Pool.cleanup_interval (Pool._close_agent_connections p a) =
    Pool.cleanup_interval p /\
  Pool.connection_timeout (Pool._close_agent_connections p a) =
    Pool.connection_timeout p.
Proof.
  unfold Pool._close_agent_connections.
  destruct (dict_get a (Pool._connections p)); simpl;
    match goal with |- context [if ?b then _ else _] => destruct b end;
    repeat split.
Qed.

Lemma close_all_config keys : forall p,
  let q := fold_left Pool._close_agent_connections keys p in
  Pool.total_max_connections q = Pool.total_max_connections p /\
  Pool.cleanup_interval q = Pool.cleanup_interval p /\
  Pool.connection_timeout q = Pool.connection_timeout p.
Proof.
  induction keys as [|k keys IH]; intro p; simpl; [repeat split|].
  destruct (IH (Pool._close_agent_connections p k)) as (H1 & H2 & H3).
  destruct (close_agent_config p k) as (G1 & G2 & G3).
  simpl in *. rewrite H1, H2, H3. now repeat split.
Qed.

(** X5. [shutdown] of any pool leaves no agent, no tracked connection and a
    global counter of 0, sets the shutdown flag and keeps the configured cap
    and timeouts; shutting down again changes nothing, and every later
    acquisition is refused as not registered, leaving the pool empty. *)
Theorem shutdown_clears_pool (p : Pool.t) :
  let q := Pool.shutdown p in
  Pool._agents q = [] /\ Pool._connections q = [] /\
  Pool._active_connections q = 0 /\ Pool._shutdown q = true /\
  Pool.total_max_connections q = Pool.total_max_connections p /\
  Pool.cleanup_interval q = Pool.cleanup_interval p /\
  Pool.connection_timeout q = Pool.connection_timeout p /\
  Pool.shutdown q = q /\
  forall a c connect now,
    Pool.acquire q a c connect now = (Pool.NotRegistered, q).
Proof.
  intro q. subst q. unfold Pool.shutdown at 1 2 3 4 5 6 7.
  destruct (close_all_config (dict_keys (Pool._agents p)) p) as (H1 & H2 & H3).
  cbn [Pool._agents Pool._connections Pool._active_connections
       Pool._shutdown Pool.total_max_connections Pool.cleanup_interval
       Pool.connection_timeout].
  repeat (split; [try reflexivity; assumption|]).
  split; reflexivity.
Qed.

Lemma sweep_timeout keys t : forall p,
  Pool.connection_timeout (Pool.sweep keys t p) = Pool.connection_timeout p.
Proof.
  induction keys as [|k keys IH]; intro p; simpl; [reflexivity|].
  destruct (dict_get k (Pool._agents p)) as [info|]; [|reflexivity].
  rewrite IH. destruct (Pool.idle p t info); [|reflexivity].
  apply close_agent_config.
Qed.

Lemma sweep_noop keys t p :
  (forall k, In k keys ->
     exists info, dict_get k (Pool._agents p) = Some info /\
                  Pool.idle p t info = false) ->
  Pool.sweep keys t p = p.
Proof.
  induction keys as [|k keys IH]; intro Hall; simpl; [reflexivity|].
  destruct (Hall k (or_introl eq_refl)) as (info & -> & ->).
  apply IH. intros k' Hk'. apply Hall. now right.
Qed.

(** X6. The idle sweep is idempotent: in a consistent pool, a second sweep
    at the same time finds nobody to remove. *)
Theorem idle_sweep_idempotent (p : Pool.t) (t : Q) :
  consistent p ->
  Pool._cleanup_idle_connections (Pool._cleanup_idle_connections p t) t =
  Pool._cleanup_idle_connections p t.
Proof.
  intro Hp. set (q := Pool._cleanup_idle_connections p t).
  unfold Pool._cleanup_idle_connections at 1. apply sweep_noop.
  intros k Hk.
  assert (Hreg : forall k, In k (dict_keys (Pool._agents p)) ->
                           dict_get k (Pool._agents p) <> None).
  { intros k' Hin E. apply dict_get_None in E. contradiction. }
  pose proof (sweep_get (dict_keys (Pool._agents p)) t p
                (cons_agents_nodup _ Hp) (cons_agents_nodup _ Hp)
                (cons_conns_nodup _ Hp) Hreg k) as H.
  cbv zeta in H. fold (Pool._cleanup_idle_connections p t) in H. fold q in H.
  destruct (dict_get k (Pool._agents q)) as [i|] eqn:Eq;
    [|apply dict_get_None in Eq; contradiction].
  exists i. split; [reflexivity|].
  assert (Ht : Pool.connection_timeout q = Pool.connection_timeout p)
    by apply sweep_timeout.
  rewrite (idle_timeout q p t i Ht).
  destruct (dict_get k (Pool._agents p)) as [info|] eqn:Ek.
  - assert (Hin : existsb (String.eqb k) (dict_keys (Pool._agents p)) = true).
    { apply existsb_eqb_In. apply dict_get_In in Ek.
      apply in_map_iff. exists (k, info). now split. }
    rewrite Hin in H. simpl in H.
    destruct (Pool.idle p t info) eqn:Ei.
    + destruct H as [H _]. discriminate.
    + destruct H as [H _]. injection H as <-. exact Ei.
  - destruct H as [H _]. discriminate.
Qed.

Lemma idle_sweep_idempotent_witness :
  let p := Pool.run (Pool.init 3 300 1800) (firstn 7 demo_ops) in
  consistent p /\
  Pool._cleanup_idle_connections p 1803.5 <> p /\
  Pool._cleanup_idle_connections (Pool._cleanup_idle_connections p 1803.5)
    1803.5 = Pool._cleanup_idle_connections p 1803.5.
Proof.
  intro p.
  assert (Hp : consistent p)
    by (apply run_consistent; [apply init_consistent; lia|reflexivity]).
  split; [exact Hp|]. split; [discriminate|].
  apply (idle_sweep_idempotent p 1803.5 Hp).
Defined.

(** ** Connection pool: what an acquisition leaves alone *)

(** X7. Whatever its outcome, the acquisition of a registered agent in a
    consistent pool leaves untouched the registration and the connections
    of every other agent whose priority is not lower than the requester's,
    and of every other agent that holds at most one connection. *)
Theorem acquire_spares_protected_agents (p : Pool.t) (a c : string)
    (connect : option Pool.Client) (now : Q)
    (info : Pool.AgentConnectionInfo) (b : string)
    (binfo : Pool.AgentConnectionInfo) :
  consistent p ->
  dict_get a (Pool._agents p) = Some info ->
  dict_get b (Pool._agents p) = Some binfo ->
  b <> a ->
  Pool.priority info <= Pool.priority binfo \/
    Pool.connection_count binfo <= 1 ->
  let q := snd (Pool.acquire p a c connect now) in
  dict_get b (Pool._agents q) = Some binfo /\
  Pool.connections_of q b = Pool.connections_of p b.
Proof.
  intros Hp Ha Hb Hne Hprot q. subst q.
  pose proof (acquire_spec p a c connect now info Hp Ha) as Hs.
  rewrite (can_create_spec _ _ _ Ha) in Hs.
  assert (Hgrant : forall p1 cl,
            dict_get b (Pool._agents p1) = Some binfo /\
            Pool.connections_of p1 b = Pool.connections_of p b ->
            dict_get b (Pool._agents (grant p1 a info c cl now)) =
              Some binfo /\
            Pool.connections_of (grant p1 a info c cl now) b =
              Pool.connections_of p b).
  { intros p1 cl [H1 H2].
    destruct (grant_other p1 a info c cl now b (not_eq_sym Hne))
      as [G1 G2].
    now rewrite G1, G2. }
  destruct (Pool.connection_count info >=? Pool.max_connections info).
  { rewrite Hs. now split. }
  destruct (Pool._active_connections p >=? Pool.total_max_connections p).
  - pose proof (try_free_spec p a info Hp Ha) as Ht.
    destruct (Pool.sort_by_key (Pool.candidates p a info))
      as [|[v vi] t] eqn:Es.
    + rewrite Ht in Hs. rewrite Hs. now split.
    + destruct Ht as (cid & cl0 & rest & _ & Hv & _ & Ht).
      rewrite Ht in Hs.
      destruct (sort_by_key_head _ _ _ Es) as [Hin _].
      apply candidates_In in Hin. simpl in Hin.
      destruct Hin as (_ & _ & Hpr & Hcnt).
      assert (Hvb : v <> b).
      { intros ->. rewrite Hb in Hv. injection Hv as ->. lia. }
      destruct (evict_other p v vi cid b Hvb) as [E1 E2].
      destruct connect as [cl|]; rewrite Hs; cbn [snd].
      * apply Hgrant. now rewrite E1, E2.
      * now rewrite E1, E2.
  - destruct connect as [cl|]; rewrite Hs; cbn [snd].
    + apply Hgrant. now split.
    + now split.
Qed.

Lemma acquire_spares_protected_agents_witness :
  let p := Pool.run (Pool.init 3 300 1800) (firstn 5 demo_ops) in
  let q := snd (Pool.acquire p "a1" "c4" (Some demo_client) 9) in
  consistent p /\
  dict_get "a2" (Pool._agents q) = dict_get "a2" (Pool._agents p) /\
  Pool.connections_of q "a2" = Pool.connections_of p "a2".
Proof.
  intros p q.
  assert (Hp : consistent p)
    by (apply run_consistent; [apply init_consistent; lia|reflexivity]).
  split; [exact Hp|].
  destruct (acquire_spares_protected_agents p "a1" "c4" (Some demo_client) 9
              (Pool.mkInfo "a1" "crawler" 3 3 8 2) "a2"
              (Pool.mkInfo "a2" "database" 0 0 3 4))
    as [H1 H2]; [exact Hp|reflexivity|reflexivity|discriminate| |].
  - left. simpl. lia.
  - split; [exact H1|exact H2].
Defined.

(** ** Connection pool: status report *)

Lemma listed_connections_total (agents : Dict Pool.AgentConnectionInfo)
    (f : string * Pool.AgentConnectionInfo -> Pool.AgentStatus) :
  (forall kv, Pool.status_connections (f kv) =
              Pool.connection_count (snd kv)) ->
  listed_connections (map (fun kv => (fst kv, f kv)) agents) =
  Pool.total_count agents.
Proof.
  intro Hf. induction agents as [|kv agents IH]; simpl; [reflexivity|].
  now rewrite IH, Hf.
Qed.

(** X8. The report of [get_pool_status] on a consistent pool agrees with
    itself: [total_connections] is the sum of the [connections] listed for
    the agents and is at most [max_connections]; [registered_agents] is the
    number of agents listed; every registered agent is listed once, with its
    type, and with [connections] between 0 and its own [max_connections];
    nobody else is listed. *)
Theorem pool_status_adds_up (p : Pool.t) (now : Q) :
  consistent p ->
  let s := Pool.get_pool_status p now in
  Pool.status_total_connections s =
    listed_connections (Pool.status_agents s) /\
  Pool.status_total_connections s <= Pool.status_pool_max_connections s /\
  Pool.status_registered_agents s =
    Z.of_nat (List.length (Pool.status_agents s)) /\
  NoDup (dict_keys (Pool.status_agents s)) /\
  (forall a, dict_get a (Pool.status_agents s) = None <->
             dict_get a (Pool._agents p) = None) /\
  forall a info,
    dict_get a (Pool._agents p) = Some info ->
    exists e,
      dict_get a (Pool.status_agents s) = Some e /\
      Pool.status_type e = Pool.agent_type info /\
      Pool.status_connections e = Pool.connection_count info /\
      0 <= Pool.status_connections e <= Pool.status_max_connections e /\
      (Pool.status_idle_time e == now - Pool.last_activity info)%Q.
Proof.
  intros Hp s. subst s. unfold Pool.get_pool_status.
  cbn [Pool.status_total_connections Pool.status_pool_max_connections
       Pool.status_registered_agents Pool.status_agents].
  set (f := fun kv : string * Pool.AgentConnectionInfo =>
              Pool.mkAgentStatus
                (Pool.agent_type (snd kv)) (Pool.connection_count (snd kv))
                (Pool.max_connections (snd kv)) (Pool.priority (snd kv))
                (Pool.last_activity (snd kv))
                (now - Pool.last_activity (snd kv))%Q).
  set (l := map _ (Pool._agents p)).
  assert (Hl : l = map (fun kv => (fst kv, f kv)) (Pool._agents p))
    by reflexivity.
  assert (Hkeys : dict_keys l = dict_keys (Pool._agents p)).
  { rewrite Hl. unfold dict_keys. rewrite map_map. reflexivity. }
  assert (Hget : forall a,
            dict_get a l =
            option_map (fun i => f (a, i)) (dict_get a (Pool._agents p))).
  { intro a. rewrite Hl. clear.
    induction (Pool._agents p) as [|[k i] d IH]; [reflexivity|].
    cbn [map dict_get fst snd]. rewrite IH.
    now destruct (String.eqb k a). }
  split.
  { rewrite Hl, listed_connections_total by reflexivity.
    symmetry. apply (cons_sum _ Hp). }
  split; [apply (cons_active _ Hp)|].
  split; [rewrite Hl, length_map; reflexivity|].
  split; [rewrite Hkeys; apply (cons_agents_nodup _ Hp)|].
  split.
  { intro a. rewrite Hget.
    destruct (dict_get a (Pool._agents p)); simpl; split;
      try discriminate; reflexivity. }
  intros a info Ha. exists (f (a, info)). rewrite Hget, Ha. simpl.
  destruct (cons_entry _ Hp _ _ Ha) as (cs & _ & Hlen & Hcap & _).
  repeat split; try reflexivity; lia.
Qed.

Lemma pool_status_adds_up_witness :
  let p := Pool.run (Pool.init 3 300 1800) demo_ops in
  let s := Pool.get_pool_status p 2000 in
  consistent p /\
  Pool.status_total_connections s =
    listed_connections (Pool.status_agents s) /\
  Pool.status_registered_agents s = 1.
Proof.
  intros p s.
  assert (Hp : consistent p)
    by (apply run_consistent; [apply init_consistent; lia|reflexivity]).
  split; [exact Hp|].
  destruct (pool_status_adds_up p 2000 Hp) as (H1 & _).
  split; [exact H1|reflexivity].
Defined.

(** ** The module-level pool *)

(** X9. The module-level pool is created on first use with the configured
    size and then reused: a second [get_agent_pool_manager] returns the
    same pool. [shutdown_pool_manager] shuts that pool down and forgets it,
    so that the next module-level [register_agent] is answered by a fresh,
    empty pool: it succeeds for every agent id, also one that was
    registered before, and that agent is then the only one registered. *)
Theorem pool_manager_lifecycle (g : option Pool.t) (size : Z)
    (a ty : string) (now : Q) :
  let (p, g1) := Pool.get_agent_pool_manager g size in
  Pool.get_agent_pool_manager g1 size = (p, g1) /\
  (g = None -> p = Pool.init size 300 1800) /\
  (forall q, g = Some q -> p = q) /\
  let (g2, old) := Pool.shutdown_pool_manager g1 in
  g2 = None /\ old = Some (Pool.shutdown p) /\
  exists q,
    Pool.register_agent_global g2 size a ty now = (true, Some q) /\
    dict_keys (Pool._agents q) = [a] /\
    Pool._active_connections q = 0 /\
    Pool._shutdown q = false /\
    Pool.total_max_connections q = size.
Proof.
  destruct g as [p|]; simpl.
  - split; [reflexivity|]. split; [discriminate|].
    split; [now intros q [= ->]|].
    split; [reflexivity|]. split; [reflexivity|].
    eexists. split; [reflexivity|]. now repeat split.
  - split; [reflexivity|]. split; [reflexivity|].
    split; [discriminate|].
    split; [reflexivity|]. split; [reflexivity|].
    eexists. split; [reflexivity|]. now repeat split.
Qed.

(** ** Rate limiter: spacing *)

Lemma wait_spacing (self : RateLimiter.t) (t t' : Q) :
  (t + RateLimiter.suspended (fst (RateLimiter.wait self t t')) <= t')%Q ->
  (RateLimiter.delay self <= t' - RateLimiter.last_call_time self)%Q.
Proof.
  unfold RateLimiter.wait. cbn [fst].
  destruct (Qlt_bool (t - RateLimiter.last_call_time self)
                     (RateLimiter.delay self)) eqn:E;
    cbn [RateLimiter.suspended]; intro H.
  - lra.
  - rewrite Qlt_bool_ge_bool in E. apply Bool.negb_false_iff in E.
    apply Qge_bool_iff in E. lra.
Qed.

(** X10. Calls that pass through [wait] are spaced: if after each sleep the
    clock reads at least the entry reading plus the time slept, then any two
    consecutive readings stored as [last_call_time], starting with the one
    the limiter held before the first call, are at least [delay] apart. *)
Theorem waits_are_spaced (self : RateLimiter.t) (readings : list (Q * Q)) :
  sleeps_respected self readings ->
  spaced (RateLimiter.delay self)
         (RateLimiter.last_call_time self :: stamps self readings).
Proof.
  revert self. induction readings as [|[t t'] readings IH]; intros self H.
  - exact I.
  - destruct H as [H1 H2]. cbn [stamps spaced]. split.
    + now apply wait_spacing with (t := t).
    + apply (IH _ H2).
Qed.

Lemma waits_are_spaced_witness :
  let self := RateLimiter.init 3 in
  let readings : list (Q * Q) :=
    [(100, 100); (101, 103); (103.5, 106); (120, 120)]%Q in
  sleeps_respected self readings /\
  spaced 3 (0%Q :: stamps self readings).
Proof.
  intros self readings.
  assert (H : sleeps_respected self readings).
  { simpl. unfold Qle. simpl. lia. }
  split; [exact H|]. apply (waits_are_spaced self readings H).
Defined.

(** ** Strings *)

Lemma string_length_app (s t : string) :
  String.length (s ++ t) = (String.length s + String.length t)%nat.
Proof. induction s as [|c s IH]; simpl; [reflexivity|now rewrite IH]. Qed.

Lemma string_app_assoc (s t u : string) : ((s ++ t) ++ u = s ++ (t ++ u))%string.
Proof. induction s as [|c s IH]; simpl; [reflexivity|now rewrite IH]. Qed.

Lemma substring_all (s : string) : substring 0 (String.length s) s = s.
Proof. induction s as [|c s IH]; simpl; [reflexivity|now rewrite IH]. Qed.

Lemma substring_skip (s t : string) :
  substring (String.length s) (String.length t) (s ++ t) = t.
Proof. induction s as [|c s IH]; simpl; [apply substring_all|exact IH]. Qed.

Lemma ends_with_app (suffix s : string) : ends_with suffix (s ++ suffix) = true.
Proof.
  unfold ends_with. rewrite string_length_app.
  replace (String.length s + String.length suffix - String.length suffix)%nat
    with (String.length s) by lia.
  rewrite substring_skip, String.eqb_refl, Bool.andb_true_r.
  apply Nat.leb_le. lia.
Qed.

Lemma contains_app (c : ascii) (s t : string) :
  contains c (s ++ t) = contains c s || contains c t.
Proof.
  induction s as [|c' s IH]; simpl; [reflexivity|].
  now rewrite IH, Bool.orb_assoc.
Qed.

Lemma contains_filter (f : ascii -> bool) (c : ascii) (s : string) :
  f c = false -> contains c (string_filter f s) = false.
Proof.
  intro Hc. induction s as [|c' s IH]; simpl; [reflexivity|].
  destruct (f c') eqn:E; [|exact IH]. simpl. rewrite IH, Bool.orb_false_r.
  apply Ascii.eqb_neq. intros ->. congruence.
Qed.

Lemma last_segment_from_plain (sep : ascii) (s cur : string) :
  contains sep s = false -> last_segment_from sep s cur = (cur ++ s)%string.
Proof.
  revert cur. induction s as [|c s IH]; intros cur; simpl.
  - intros _. clear. induction cur as [|c cur IH]; simpl; [reflexivity|].
    now rewrite <- IH.
  - intro H. apply Bool.orb_false_iff in H. destruct H as [Hc Hs].
    rewrite Hc, (IH _ Hs), string_app_assoc. reflexivity.
Qed.

Lemma last_segment_from_sep (sep : ascii) (s t cur : string) :
  last_segment_from sep (s ++ String sep t) cur =
  last_segment_from sep t EmptyString.
Proof.
  revert cur. induction s as [|c s IH]; intro cur; simpl.
  - now rewrite Ascii.eqb_refl.
  - destruct (Ascii.eqb c sep); apply IH.
Qed.

Lemma last_segment_app (sep : ascii) (dir name : string) :
  contains sep name = false ->
  last_segment sep (dir ++ String sep name) = name.
Proof.
  intro H. unfold last_segment.
  now rewrite last_segment_from_sep, last_segment_from_plain.
Qed.

(** ** Storage manager: file names *)

Lemma walk_usage_total (fs : FS.t) : forall n,
  (forall path, ends_with ".pdf" path = true ->
                ~ In (path, FS.Dangling) fs) ->
  StorageManager.walk_usage fs n =
    Ok (n + Agent.total_size (FS.pdf_files fs)).
Proof.
  induction fs as [|[path node] fs IH]; intros n Hnd; simpl.
  - f_equal. lia.
  - assert (Hnd' : forall p, ends_with ".pdf" p = true ->
                             ~ In (p, FS.Dangling) fs)
      by (intros p Hp Hin; apply (Hnd p Hp); now right).
    destruct (ends_with ".pdf" path) eqn:E.
    + destruct node as [data mt|].
      * simpl. rewrite (IH _ Hnd'). f_equal. simpl. lia.
      * exfalso. apply (Hnd path E). now left.
    + destruct node as [data mt|]; now rewrite (IH _ Hnd').
Qed.

Lemma walk_usage_dangling (fs : FS.t) : forall n path,
  ends_with ".pdf" path = true -> In (path, FS.Dangling) fs ->
  exists e, StorageManager.walk_usage fs n = Raise e.
Proof.
  induction fs as [|[p node] fs IH]; intros n path Hp Hin; [destruct Hin|].
  simpl. destruct Hin as [Eq|Hin].
  - injection Eq as -> ->. rewrite Hp. simpl. eauto.
  - destruct (ends_with ".pdf" p).
    + destruct node as [data mt|]; simpl; [|eauto].
      now apply (IH _ path).
    + now apply (IH _ path).
Qed.

(** X12. The storage manager and the download agent measure the same
    store: on a tree in which no name ending in [.pdf] is a dangling entry,
    [StorageManager.get_current_storage_usage] is the total size of the
    files that the agent's [get_storage_stats] counts, and is not negative;
    as soon as there is such an entry the storage manager reports 0 while
    the agent still counts every regular file. *)
Theorem storage_measures_agree (self : StorageManager.t) (fs : FS.t) :
  ((forall path, ends_with ".pdf" path = true ->
                 ~ In (path, FS.Dangling) fs) ->
   StorageManager.get_current_storage_usage self fs =
     Agent.total_size (FS.pdf_files fs)) /\
  (forall path, ends_with ".pdf" path = true ->
                In (path, FS.Dangling) fs ->
   StorageManager.get_current_storage_usage self fs = 0) /\
  0 <= Agent.total_size (FS.pdf_files fs) /\
  0 <= StorageManager.get_current_storage_usage self fs <=
    Agent.total_size (FS.pdf_files fs).
Proof.
  assert (Hpos : forall files, 0 <= Agent.total_size files).
  { induction files as [|f files IH]; simpl; lia. }
  assert (H1 : (forall path, ends_with ".pdf" path = true ->
                             ~ In (path, FS.Dangling) fs) ->
               StorageManager.get_current_storage_usage self fs =
                 Agent.total_size (FS.pdf_files fs)).
  { intro Hnd. unfold StorageManager.get_current_storage_usage.
    rewrite (walk_usage_total fs 0 Hnd). reflexivity. }
  assert (H2 : forall path, ends_with ".pdf" path = true ->
                 In (path, FS.Dangling) fs ->
                 StorageManager.get_current_storage_usage self fs = 0).
  { intros path Hp Hin. unfold StorageManager.get_current_storage_usage.
    destruct (walk_usage_dangling fs 0 path Hp Hin) as (e & ->).
    reflexivity. }
  split; [exact H1|]. split; [exact H2|]. split; [apply Hpos|].
  unfold StorageManager.get_current_storage_usage.
  destruct (StorageManager.walk_usage fs 0) as [n|e] eqn:E.
  - assert (Hnd : forall path, ends_with ".pdf" path = true ->
                               ~ In (path, FS.Dangling) fs).
    { intros path Hp Hin.
      destruct (walk_usage_dangling fs 0 path Hp Hin) as (e & He).
      congruence. }
    rewrite (walk_usage_total fs 0 Hnd) in E. injection E as <-.
    specialize (Hpos (FS.pdf_files fs)). lia.
  - specialize (Hpos (FS.pdf_files fs)). lia.
Qed.

Lemma storage_measures_agree_witness :
  let fs : FS.t :=
    [("papers/a.pdf", FS.File (bytes "12345") 0);
     ("papers/notes.txt", FS.Dangling);
     ("papers/b.pdf", FS.File (bytes "123") 0)] in
  StorageManager.get_current_storage_usage (StorageManager.init "papers" 300)
                                           fs = 8.
Proof.
  intro fs.
  destruct (storage_measures_agree (StorageManager.init "papers" 300) fs)
    as (H1 & _).
  rewrite H1; [reflexivity|].
  intros path Hp [Eq|[Eq|[Eq|[]]]]; try discriminate.
  injection Eq as <-. discriminate.
Defined.

(** ** Storage manager: cleanup of old files *)

Lemma cleanup_walk_spec (cutoff : Q) (entries : FS.t) :
  forall (fs : FS.t) (count : Z),
    NoDup (dict_keys fs) ->
    NoDup (dict_keys entries) ->
    (forall p n, In (p, n) entries -> dict_get p fs = Some n) ->
    let res := StorageManager.cleanup_walk entries cutoff fs count in
    NoDup (dict_keys (fst res)) /\
    (forall path,
       dict_get path (fst res) = dict_get path fs \/
       (dict_get path (fst res) = None /\
        ends_with ".pdf" path = true /\
        exists data mt,
          In (path, FS.File data mt) entries /\ (mt < cutoff)%Q)) /\
    snd res - count =
      Z.of_nat (List.length fs) - Z.of_nat (List.length (fst res)) /\
    ((forall path, ends_with ".pdf" path = true ->
                   ~ In (path, FS.Dangling) entries) ->
     forall path data mt,
       In (path, FS.File data mt) entries ->
       ends_with ".pdf" path = true -> (mt < cutoff)%Q ->
       dict_get path (fst res) = None).
Proof.
  induction entries as [|[p node] entries IH]; intros fs count Hfs Hen Hin.
  - simpl. split; [exact Hfs|]. split; [now left|]. split; [lia|].
    intros _ path data mt [].
  - inversion Hen as [|? ? Hnotin Hen']; subst.
    assert (Hin' : forall q n, In (q, n) entries -> dict_get q fs = Some n)
      by (intros q n Hq; apply Hin; now right).
    assert (Hneq : forall q n, In (q, n) entries -> p <> q).
    { intros q n Hq ->. apply Hnotin. unfold dict_keys.
      apply in_map_iff. exists (q, n). now split. }
    cbn [StorageManager.cleanup_walk].
    destruct (ends_with ".pdf" p) eqn:Ep.
    + destruct node as [data0 mt0|].
      * destruct (Qlt_bool mt0 cutoff) eqn:Eold.
        -- apply Qlt_bool_iff in Eold.
           assert (Hmem : dict_mem p fs = true).
           { apply dict_mem_true. exists (FS.File data0 mt0).
             apply Hin. now left. }
           specialize (IH (dict_del p fs) (count + 1)
                          (dict_del_NoDup _ _ Hfs) Hen').
           destruct IH as (I1 & I2 & I3 & I4).
           { intros q n Hq. rewrite dict_get_del_neq; [now apply Hin'|].
             now apply (Hneq q n). }
           split; [exact I1|]. split.
           { intro path. destruct (String.eqb_spec p path) as [<-|Hne].
             - right. split.
               + destruct (I2 p) as [E|[E _]]; [|exact E].
                 rewrite E. now apply dict_get_del_eq.
               + split; [exact Ep|]. exists data0, mt0.
                 split; [now left|exact Eold].
             - destruct (I2 path) as [E|(E & Hp & d & m & Hd & Hm)].
               + left. rewrite E. now apply dict_get_del_neq.
               + right. split; [exact E|]. split; [exact Hp|].
                 exists d, m. split; [now right|exact Hm]. }
           split.
           { pose proof (dict_del_length_mem fs p Hmem) as Hl. lia. }
           intros Hnd path data mt [Eq|Hq] Hp Hm.
           ++ injection Eq as <- <- <-.
              destruct (I2 p) as [E|[E _]]; [|exact E].
              rewrite E. now apply dict_get_del_eq.
           ++ apply (I4 (fun q Hq' Hd => Hnd q Hq' (or_intror Hd))
                        path data mt Hq Hp Hm).
        -- specialize (IH fs count Hfs Hen' Hin').
           destruct IH as (I1 & I2 & I3 & I4).
           split; [exact I1|]. split.
           { intro path. destruct (I2 path) as [E|(E & Hp & d & m & Hd & Hm)].
             - now left.
             - right. split; [exact E|]. split; [exact Hp|].
               exists d, m. split; [now right|exact Hm]. }
           split; [exact I3|].
           intros Hnd path data mt [Eq|Hq] Hp Hm.
           ++ injection Eq as <- <- <-. apply Qlt_bool_iff in Hm. congruence.
           ++ apply (I4 (fun q Hq' Hd => Hnd q Hq' (or_intror Hd))
                        path data mt Hq Hp Hm).
      * simpl. split; [exact Hfs|]. split; [now left|]. split; [lia|].
        intro Hnd. exfalso. apply (Hnd p Ep). now left.
    + specialize (IH fs count Hfs Hen' Hin').
      destruct IH as (I1 & I2 & I3 & I4).
      split; [exact I1|]. split.
      { intro path. destruct (I2 path) as [E|(E & Hp & d & m & Hd & Hm)].
        - now left.
        - right. split; [exact E|]. split; [exact Hp|].
          exists d, m. split; [now right|exact Hm]. }
      split; [exact I3|].
      intros Hnd path data mt [Eq|Hq] Hp Hm.
      ++ injection Eq as -> _. congruence.
      ++ apply (I4 (fun q Hq' Hd => Hnd q Hq' (or_intror Hd))
                   path data mt Hq Hp Hm).
Qed.

(** X13. [cleanup_old_files] on a tree with distinct paths removes only
    regular files whose name ends in [.pdf] and whose modification time is
    before the cutoff of [days_threshold] days, leaves every other entry as
    it is, and returns the number of entries it removed. When no name
    ending in [.pdf] is a dangling entry it removes all of them: no [.pdf]
    file older than the cutoff is left. (A dangling [.pdf] entry ends the
    walk where it is met.) *)
Theorem cleanup_old_files_exact (self : StorageManager.t) (fs : FS.t)
    (now : Q) (days_threshold : Z) :
  NoDup (dict_keys fs) ->
  let cutoff := (now - inject_Z (days_threshold * 24 * 60 * 60))%Q in
  let res := StorageManager.cleanup_old_files self fs now days_threshold in
  (forall path,
     dict_get path (fst res) = dict_get path fs \/
     (dict_get path (fst res) = None /\
      ends_with ".pdf" path = true /\
      exists data mt,
        dict_get path fs = Some (FS.File data mt) /\ (mt < cutoff)%Q)) /\
  snd res = Z.of_nat (List.length fs) - Z.of_nat (List.length (fst res)) /\
  ((forall path, ends_with ".pdf" path = true ->
                 ~ In (path, FS.Dangling) fs) ->
   forall path data mt,
     ends_with ".pdf" path = true ->
     dict_get path (fst res) = Some (FS.File data mt) ->
     (cutoff <= mt)%Q).
Proof.
  intros Hnd cutoff res.
  destruct (cleanup_walk_spec cutoff fs fs 0 Hnd Hnd
              (fun p n Hin => In_dict_get _ _ _ Hnd Hin))
    as (_ & H2 & H3 & H4).
  fold cutoff in res. change (StorageManager.cleanup_walk fs cutoff fs 0)
    with res in H2, H3, H4.
  split.
  { intro path. destruct (H2 path) as [E|(E & Hp & d & m & Hd & Hm)].
    - now left.
    - right. split; [exact E|]. split; [exact Hp|]. exists d, m.
      split; [now apply In_dict_get|exact Hm]. }
  split; [lia|].
  intros Hno path data mt Hp Hget.
  destruct (Qlt_le_dec mt cutoff) as [Hold|Hnew]; [|exact Hnew].
  exfalso.
  assert (Hin : In (path, FS.File data mt) fs).
  { destruct (H2 path) as [E|[E _]]; [|congruence].
    rewrite E in Hget. now apply dict_get_In. }
  rewrite (H4 Hno path data mt Hin Hp Hold) in Hget. discriminate.
Qed.

Lemma cleanup_old_files_exact_witness :
  let fs : FS.t :=
    [("papers/a.pdf", FS.File (bytes "old") 100);
     ("papers/a.txt", FS.File (bytes "old") 100);
     ("papers/b.pdf", FS.File (bytes "new") 9000000)] in
  let res :=
    StorageManager.cleanup_old_files (StorageManager.init "papers" 300) fs
                                     10000000 90 in
  snd res = 1 /\ dict_keys (fst res) = ["papers/a.txt"; "papers/b.pdf"].
Proof.
  intros fs res.
  assert (Hnd : NoDup (dict_keys fs)).
  { repeat constructor; simpl; intuition discriminate. }
  destruct (cleanup_old_files_exact (StorageManager.init "papers" 300) fs
              10000000 90 Hnd) as (_ & H2 & _).
  split; [unfold res; rewrite H2; reflexivity|reflexivity].
Defined.

(** ** Downloader: what a download touches *)

Section DownloadMore.
Context {H : Hasher}.

Lemma rate_limit_frame (rl : RateLimiter.t) (w : World) :
  fs (snd (rate_limit rl w)) = fs w /\
  requests (snd (rate_limit rl w)) = requests w /\
  disk_free (snd (rate_limit rl w)) = disk_free w /\
  (clock w <= clock (snd (rate_limit rl w)))%Q.
Proof.
  unfold rate_limit. cbn. repeat split.
  unfold RateLimiter.wait. cbn.
  destruct (Qlt_bool (clock w - RateLimiter.last_call_time rl)
                     (RateLimiter.delay rl)) eqn:E; cbn.
  - apply Qlt_bool_iff in E. lra.
  - lra.
Qed.

Lemma write_chunks_frame self path chunks :
  forall w total h abort w' total' h',
    PDFDownloader.write_chunks self chunks path w total h =
      (abort, w', total', h') ->
    requests w' = requests w /\
    total <= total' /\
    forall q, q <> path -> dict_get q (fs w') = dict_get q (fs w).
Proof.
  induction chunks as [|chunk chunks IH];
    intros w total h abort w' total' h' E.
  - simpl in E. injection E as <- <- <- <-. repeat split. lia.
  - cbn [PDFDownloader.write_chunks] in E.
    set (w1 := with_fs (FS.append (fs w) path chunk (clock w)) w) in E.
    assert (Hw1 : forall q, q <> path ->
                            dict_get q (fs w1) = dict_get q (fs w)).
    { intros q Hq. subst w1. cbn. unfold FS.append.
      destruct (dict_get path (fs w)) as [[data mt|]|]; try reflexivity.
      now apply dict_get_set_neq, not_eq_sym. }
    destruct (negb (StorageManager.can_store_file
                      (PDFDownloader.storage self) (fs w1) 0)).
    + injection E as <- <- <- <-. cbn. split; [reflexivity|].
      split; [lia|]. intros q Hq.
      rewrite dict_get_del_neq by now apply not_eq_sym. now apply Hw1.
    + apply IH in E. destruct E as (Hr & Ht & Hf).
      split; [exact Hr|]. split; [lia|].
      intros q Hq. rewrite (Hf q Hq). now apply Hw1.
Qed.

Lemma download_file_spec (self : PDFDownloader.t) (env : Env) (w : World)
    (url path : string) :
  let res := PDFDownloader._download_file self env w url path in
  PDFDownloader.stats (snd (fst res)) = PDFDownloader.stats self /\
  PDFDownloader.storage (snd (fst res)) = PDFDownloader.storage self /\
  requests (snd res) = (requests w ++ [url])%list /\
  (forall q, q <> path -> dict_get q (fs (snd res)) = dict_get q (fs w)) /\
  (forall size md5,
     fst (fst res) = PDFDownloader.Success size md5 ->
     0 <= size /\
     (NoDup (dict_keys (fs w)) ->
      exists data mt,
        dict_get path (fs (snd res)) = Some (FS.File data mt) /\
        size = Z.of_nat (List.length data) /\
        PDFDownloader.valid_pdf data = true)) /\
  (match http env url with
   | HttpResponse r =>
       status r <> 200 \/
       exists n, content_length r = Some n /\ n <> 0 /\
                 StorageManager.can_store_file
                   (PDFDownloader.storage self) (fs w) n = false
   | _ => True
   end ->
   fs (snd res) = fs w /\ exists e, fst (fst res) = PDFDownloader.Failure e).
Proof.
  intro res. subst res. unfold PDFDownloader._download_file.
  destruct (rate_limit (PDFDownloader.rate_limiter self) w) as [rl w0]
    eqn:Erl.
  destruct (rate_limit_frame (PDFDownloader.rate_limiter self) w)
    as (Hfs0 & Hrq0 & _). rewrite Erl in Hfs0, Hrq0. cbn [snd] in Hfs0, Hrq0.
  set (self1 := PDFDownloader.with_rate_limiter rl self).
  set (w1 := with_request url w0).
  assert (Hfs1 : fs w1 = fs w) by exact Hfs0.
  assert (Hrq1 : requests w1 = (requests w ++ [url])%list)
    by (subst w1; cbn; now rewrite Hrq0).
  destruct (http env url) as [msg| |r].
  { cbn. rewrite ?Hfs0, ?Hrq0. repeat split; auto; try discriminate; eauto. }
  { cbn. rewrite ?Hfs0, ?Hrq0. repeat split; auto; try discriminate; eauto. }
  destruct (status r =? 200) eqn:Est; cbn [negb].
  2:{ cbn. rewrite ?Hfs0, ?Hrq0. repeat split; auto; try discriminate;
        eauto. }
  apply Z.eqb_eq in Est.
  match goal with
  | |- context [if ?b then _ else _] => destruct b eqn:Espace
  end.
  { cbn. rewrite ?Hfs0, ?Hrq0. repeat split; auto; try discriminate;
      eauto. }
  set (w2 := with_fs (FS.create (fs w1) path (clock w1)) w1).
  destruct (PDFDownloader.write_chunks self1 (chunks r) path w2 0 hash_new)
    as [[[abort w3] total] h] eqn:Ew.
  destruct (write_chunks_frame _ _ _ _ _ _ _ _ _ _ Ew) as (Hrq3 & Htot & Hf3).
  assert (Hf2 : forall q, q <> path -> dict_get q (fs w2) = dict_get q (fs w)).
  { intros q Hq. subst w2. cbn [fs with_fs]. unfold FS.create.
    rewrite dict_get_set_neq by now apply not_eq_sym. now rewrite Hfs1. }
  assert (Hearly :
            (status r <> 200 \/
             exists n, content_length r = Some n /\ n <> 0 /\
                       StorageManager.can_store_file
                         (PDFDownloader.storage self) (fs w) n = false) ->
            False).
  { intros [Hs|(n & Hn & Hn0 & Hcan)]; [contradiction|].
    rewrite Hn in Espace. rewrite Hfs1 in Espace.
    change (PDFDownloader.storage self1) with (PDFDownloader.storage self)
      in Espace.
    rewrite Hcan in Espace. apply Z.eqb_neq in Hn0. rewrite Hn0 in Espace.
    discriminate. }
  assert (Hframe3 : forall q, q <> path ->
                              dict_get q (fs w3) = dict_get q (fs w))
    by (intros q Hq; rewrite (Hf3 q Hq); now apply Hf2).
  assert (Hrq3' : requests w3 = (requests w ++ [url])%list)
    by (rewrite Hrq3; exact Hrq1).
  destruct abort as [e|].
  { cbn. repeat split; auto; try discriminate; exfalso; auto. }
  destruct (stream_error r) as [e|].
  { cbn. repeat split; auto; try discriminate; exfalso; auto. }
  destruct (PDFDownloader._validate_pdf_file (fs w3) path) eqn:Ev;
    cbn [negb].
  2:{ cbn. split; [reflexivity|]. split; [reflexivity|].
      split; [exact Hrq3'|]. split.
      - intros q Hq. rewrite dict_get_del_neq by now apply not_eq_sym.
        now apply Hframe3.
      - split; [discriminate|]. intro Hx. exfalso. auto. }
  cbn. split; [reflexivity|]. split; [reflexivity|].
  split; [exact Hrq3'|]. split; [exact Hframe3|].
  split; [|intro Hx; exfalso; auto].
  intros size md5 Eq. injection Eq as <- _. split; [lia|].
  intro Hnd.
    assert (Hget2 : dict_get path (fs w2) =
                    Some (FS.File [] (clock w1)))
      by (subst w2; cbn; unfold FS.create; apply dict_get_set_eq).
    assert (Hnd2 : NoDup (dict_keys (fs w2))).
    { subst w2. cbn. unfold FS.create. apply dict_set_NoDup.
      now rewrite Hfs0. }
    destruct (write_chunks_spec _ _ _ _ _ _ _ _ _ _ _ _ Hget2 Hnd2 Ew)
      as (_ & _ & mt' & Hg & Ht). cbn in Hg.
    exists (List.concat (chunks r)), mt'. split; [exact Hg|].
    split; [lia|].
    unfold PDFDownloader._validate_pdf_file in Ev. now rewrite Hg in Ev.
Qed.

End DownloadMore.

(** X14. [_download_file] sends exactly one request and touches no file of
    the store other than its target. When the request raises, times out, is
    answered with a status other than 200, or announces a size that does not
    fit below the storage ceiling, the download fails and the store is left
    exactly as it was: no file is created. The statistics and the storage
    manager of the downloader are not changed by it. *)
Theorem download_file_touches_only_target {H : Hasher}
    (self : PDFDownloader.t) (env : Env) (w : World) (url path : string) :
  let res := PDFDownloader._download_file self env w url path in
  requests (snd res) = (requests w ++ [url])%list /\
  (forall q, q <> path -> dict_get q (fs (snd res)) = dict_get q (fs w)) /\
  (match http env url with
   | HttpResponse r =>
       status r <> 200 \/
       exists n, content_length r = Some n /\ n <> 0 /\
                 StorageManager.can_store_file
                   (PDFDownloader.storage self) (fs w) n = false
   | _ => True
   end ->
   fs (snd res) = fs w /\ exists e, fst (fst res) = PDFDownloader.Failure e) /\
  PDFDownloader.stats (snd (fst res)) = PDFDownloader.stats self /\
  PDFDownloader.storage (snd (fst res)) = PDFDownloader.storage self.
Proof.
  intro res.
  destruct (download_file_spec self env w url path)
    as (H1 & H2 & H3 & H4 & _ & H6).
  repeat split; auto; now apply H6.
Qed.

Lemma download_file_touches_only_target_witness :
  let dl := PDFDownloader.init (StorageManager.init "papers" 300) 1 in
  let env := mkEnv (fun _ => HttpResponse
                       (mkResponse 404 "Not Found" "" None [] None))
                   false (fun _ => McpRaise "down") in
  let res := PDFDownloader._download_file (H := plain_hasher) dl env
               stocked_world paper_url "papers/x.pdf" in
  fs (snd res) = fs stocked_world /\
  exists e, fst (fst res) = PDFDownloader.Failure e.
Proof.
  intros dl env res.
  destruct (download_file_touches_only_target (H := plain_hasher) dl env
              stocked_world paper_url "papers/x.pdf") as (_ & _ & H3 & _).
  apply H3. cbn. left. discriminate.
Defined.

(** ** Downloader: paper records and statistics *)

Section PaperMore.
Context {H : Hasher}.

Lemma download_paper_spec (self : PDFDownloader.t) (env : Env) (w : World)
    (paper : PDFDownloader.Paper) :
  let res := PDFDownloader.download_paper self env w paper in
  let s := PDFDownloader.stats self in
  let s' := PDFDownloader.stats (snd (fst res)) in
  PDFDownloader.storage (snd (fst res)) = PDFDownloader.storage self /\
  (has_keys paper = false ->
   snd (fst res) = self /\ snd res = w /\
   exists e, fst (fst res) = Raise e) /\
  (has_keys paper = true ->
   PDFDownloader.attempted s' = PDFDownloader.attempted s + 1 /\
   PDFDownloader.successful s <= PDFDownloader.successful s' /\
   PDFDownloader.failed s <= PDFDownloader.failed s' /\
   PDFDownloader.successful s' + PDFDownloader.failed s' <=
     PDFDownloader.successful s + PDFDownloader.failed s + 1 /\
   PDFDownloader.skipped_storage s' = PDFDownloader.skipped_storage s /\
   PDFDownloader.bytes_downloaded s <= PDFDownloader.bytes_downloaded s' /\
   exists id src,
     PDFDownloader.paper_id paper = Some id /\
     PDFDownloader.source paper = Some src /\
     let path :=
       StorageManager.get_paper_file_path (PDFDownloader.storage self)
                                          id src in
     (forall q, q <> path ->
                dict_get q (fs (snd res)) = dict_get q (fs w)) /\
     (fst (fst res) = Ok paper \/
      exists size,
        fst (fst res) =
          Ok (PDFDownloader.mark_downloaded path size paper) /\
        PDFDownloader.pdf_downloaded paper <> Some true /\
        (NoDup (dict_keys (fs w)) ->
         holds_file (fs (snd res)) path size))).
Proof.
  intros res s s'. subst res s s'. unfold has_keys, PDFDownloader.download_paper.
  destruct (PDFDownloader.paper_id paper) as [id|];
    [|cbn; split; [reflexivity|]; split; [eauto|discriminate]].
  destruct (PDFDownloader.pdf_url paper) as [url|];
    [|cbn; split; [reflexivity|]; split; [eauto|discriminate]].
  destruct (PDFDownloader.source paper) as [src|];
    [|cbn; split; [reflexivity|]; split; [eauto|discriminate]].
  set (self1 := PDFDownloader.with_stats _ self).
  set (path := StorageManager.get_paper_file_path
                 (PDFDownloader.storage self1) id src).
  assert (Hflag : forall b,
            match PDFDownloader.pdf_downloaded paper with
            | Some b => b | None => false end = b ->
            b = false -> PDFDownloader.pdf_downloaded paper <> Some true).
  { intros b Hb ->. destruct (PDFDownloader.pdf_downloaded paper) as [[|]|];
      congruence. }
  destruct (match PDFDownloader.pdf_downloaded paper with
            | Some b => b | None => false end) eqn:Ef.
  { cbn. split; [reflexivity|]. split; [discriminate|]. intros _.
    repeat (split; [lia|]). exists id, src. repeat split; auto. }
  specialize (Hflag false eq_refl eq_refl).
  cbv zeta.
  match goal with
  | |- context [match ?od with Some _ => _ | None => _ end] =>
      destruct od as [file_size|] eqn:Eod
  end.
  { cbn. split; [reflexivity|]. split; [discriminate|]. intros _.
    repeat (split; [lia|]). exists id, src.
    split; [reflexivity|]. split; [reflexivity|]. split; [reflexivity|].
    right. exists file_size. split; [reflexivity|]. split; [exact Hflag|].
    intros _. fold path.
    destruct (dict_get path (fs w)) as [[data mt|]|] eqn:Eg;
      try discriminate.
    destruct (Z.of_nat (List.length data) >? 1000); [|discriminate].
    injection Eod as <-. exists data, mt. split; [exact Eg|reflexivity]. }
  clear Eod.
  pose proof (download_file_spec self1 env w url path) as S.
  destruct (PDFDownloader._download_file self1 env w url path)
    as [[result self2] w2].
  cbn [fst snd] in S. destruct S as (S1 & S2 & _ & S4 & S5 & _).
  destruct result as [size md5|e].
  - destruct (S5 size md5 eq_refl) as [Hpos Hfile].
    cbn. rewrite S1, S2. cbn. split; [reflexivity|]. split; [discriminate|].
    intros _. repeat (split; [lia|]). exists id, src.
    split; [reflexivity|]. split; [reflexivity|]. split; [exact S4|].
    right. exists size. split; [reflexivity|]. split; [exact Hflag|].
    intro Hnd. destruct (Hfile Hnd) as (data & mt & Hg & Hs & _).
    exists data, mt. now split.
  - cbn. rewrite S1, S2. cbn. split; [reflexivity|]. split; [discriminate|].
    intros _. repeat (split; [lia|]). exists id, src.
    split; [reflexivity|]. split; [reflexivity|]. split; [exact S4|].
    now left.
Qed.

End PaperMore.

(** X15. [download_paper] on a record that carries [paper_id], [pdf_url]
    and [source] returns normally, touching no file other than the one
    derived for the paper, and its answer is either the record as it was
    passed in, or that record flagged as downloaded with the derived path
    and a size; in the second case the record was not flagged before and,
    in a store with distinct paths, the path then holds a regular file of
    exactly the recorded size. A record that lacks one of the three keys
    raises, and neither the downloader nor the store changes. *)
Theorem download_paper_record {H : Hasher} (self : PDFDownloader.t)
    (env : Env) (w : World) (paper : PDFDownloader.Paper) :
  let res := PDFDownloader.download_paper self env w paper in
  (has_keys paper = false ->
   snd (fst res) = self /\ snd res = w /\
   exists e, fst (fst res) = Raise e) /\
  (has_keys paper = true ->
   exists id src,
     PDFDownloader.paper_id paper = Some id /\
     PDFDownloader.source paper = Some src /\
     let path :=
       StorageManager.get_paper_file_path (PDFDownloader.storage self)
                                          id src in
     (forall q, q <> path ->
                dict_get q (fs (snd res)) = dict_get q (fs w)) /\
     (fst (fst res) = Ok paper \/
      exists size,
        fst (fst res) =
          Ok (PDFDownloader.mark_downloaded path size paper) /\
        PDFDownloader.pdf_downloaded paper <> Some true /\
        (NoDup (dict_keys (fs w)) ->
         holds_file (fs (snd res)) path size))).
Proof.
  intro res.
  destruct (download_paper_spec self env w paper) as (_ & Hno & Hyes).
  split; [exact Hno|]. intro Hk.
  destruct (Hyes Hk) as (_ & _ & _ & _ & _ & _ & Hrec). exact Hrec.
Qed.

Lemma download_paper_record_witness :
  let dl := PDFDownloader.init (StorageManager.init "papers" 300) 1 in
  let res := PDFDownloader.download_paper (H := plain_hasher) dl oops_env
               stocked_world stocked_paper in
  has_keys stocked_paper = true /\
  exists r, fst (fst res) = Ok r.
Proof.
  intros dl res. split; [reflexivity|].
  destruct (download_paper_record (H := plain_hasher) dl oops_env
              stocked_world stocked_paper) as (_ & Hyes).
  destruct (Hyes eq_refl) as (id & src & _ & _ & _ & [Hr|(size & Hr & _)]);
    eexists; exact Hr.
Defined.


(** ** Download agent: what a download touches *)

Lemma ends_with_split (suffix s : string) :
  ends_with suffix s = true <-> exists pre, s = (pre ++ suffix)%string.
Proof.
  split.
  - unfold ends_with. intro E. apply Bool.andb_true_iff in E.
    destruct E as [Hle E]. apply Nat.leb_le in Hle.
    apply String.eqb_eq in E.
    set (k := (String.length s - String.length suffix)%nat) in *.
    exists (substring 0 k s).
    assert (Hk : forall (t : string) (j : nat),
              (j <= String.length t)%nat ->
              t = (substring 0 j t ++
                   substring j (String.length t - j) t)%string).
    { induction t as [|c t IH]; intros j Hj.
      - destruct j; reflexivity.
      - destruct j as [|j].
        + cbn [substring append]. f_equal. simpl.
          now rewrite substring_all.
        + simpl in Hj. cbn [substring append String.length Nat.sub].
          f_equal. apply IH. lia. }
    assert (Hks : (k <= String.length s)%nat) by (subst k; lia).
    pose proof (Hk s k Hks) as Hs.
    replace (String.length s - k)%nat with (String.length suffix) in Hs
      by (subst k; lia).
    now rewrite E in Hs.
  - intros (pre & ->). apply ends_with_app.
Qed.

Lemma ends_with_prepend (suffix s t : string) :
  ends_with suffix t = true -> ends_with suffix (s ++ t) = true.
Proof.
  intro E. apply ends_with_split in E. destruct E as (pre & ->).
  rewrite <- string_app_assoc. apply ends_with_app.
Qed.

Section AgentMore.
Context {H : Hasher}.

Lemma generate_local_path_pdf (self : Agent.t) (url : string)
    (paper_id : option string) :
  ends_with ".pdf" (Agent._generate_local_path self url paper_id) = true.
Proof.
  unfold Agent._generate_local_path.
  set (from_url := if ends_with ".pdf" (last_segment "/" url)
                   then last_segment "/" url
                   else (substring 0 10 (Agent.md5_hex url) ++ ".pdf")%string).
  assert (Hfrom : ends_with ".pdf" from_url = true).
  { subst from_url. destruct (ends_with ".pdf" (last_segment "/" url)) eqn:E;
      [exact E|apply ends_with_app]. }
  set (filename := match paper_id with
                   | Some id => if String.eqb id EmptyString then from_url
                                else (id ++ ".pdf")%string
                   | None => from_url
                   end).
  assert (Hfile : ends_with ".pdf" filename = true).
  { subst filename. destruct paper_id as [id|]; [|exact Hfrom].
    destruct (String.eqb id EmptyString); [exact Hfrom|apply ends_with_app]. }
  cbv zeta. repeat apply ends_with_prepend. exact Hfile.
Qed.

Lemma append_all_frame path now chunks : forall (f : FS.t) q,
  q <> path ->
  dict_get q (fold_left (fun f chunk => FS.append f path chunk now) chunks f)
  = dict_get q f.
Proof.
  induction chunks as [|chunk chunks IH]; intros f q Hq; [reflexivity|].
  simpl. rewrite (IH _ q Hq). unfold FS.append.
  destruct (dict_get path f) as [[data mt|]|]; try reflexivity.
  now apply dict_get_set_neq, not_eq_sym.
Qed.

Lemma download_with_mcp_spec env w url path verify :
  transfer_spec verify false w url path
    (Agent._download_with_mcp env w url path verify).
Proof.
  unfold transfer_spec, Agent._download_with_mcp.
  destruct (mcp_fetch env url) as [msg|[|] error saved].
  - cbn. repeat split; auto; discriminate.
  - set (w2 := match saved with
               | Some data =>
                   with_fs (dict_set path
                              (FS.File data (clock (with_request url w)))
                              (fs (with_request url w)))
                           (with_request url w)
               | None => with_request url w
               end).
    assert (Hrq : requests w2 = (requests w ++ [url])%list)
      by (subst w2; now destruct saved).
    assert (Hdf : disk_free w2 = disk_free w)
      by (subst w2; now destruct saved).
    assert (Hfr : forall q, q <> path ->
                            dict_get q (fs w2) = dict_get q (fs w)).
    { intros q Hq. subst w2. destruct saved; [|reflexivity]. cbn.
      now apply dict_get_set_neq, not_eq_sym. }
    unfold Agent.checksum_if, Agent._calculate_checksum, FS.read.
    destruct verify.
    + destruct (dict_get path (fs w2)) as [[data mt|]|] eqn:Eg; cbn;
        repeat split; auto; try discriminate.
      intros _. exists data, mt. repeat split; auto.
    + cbn. repeat split; auto; try discriminate.
      intros [Hx|Hx]; discriminate.
  - cbn. repeat split; auto; discriminate.
Qed.

Lemma download_fallback_spec env w url path verify :
  transfer_spec verify true w url path
    (Agent._download_fallback env w url path verify).
Proof.
  unfold transfer_spec, Agent._download_fallback.
  destruct (http env url) as [msg| |r].
  - cbn. repeat split; auto; discriminate.
  - cbn. repeat split; auto; discriminate.
  - destruct (status r =? 200); [|cbn; repeat split; auto; discriminate].
    set (w1 := with_request url w).
    set (written := fold_left _ (chunks r) _).
    assert (Hfr : forall q, q <> path ->
                            dict_get q written = dict_get q (fs w)).
    { intros q Hq. subst written. rewrite append_all_frame by exact Hq.
      unfold FS.create. now apply dict_get_set_neq, not_eq_sym. }
    destruct (stream_error r) as [msg|];
      [cbn; repeat split; auto; discriminate|].
    unfold FS.getsize, Agent.checksum_if, Agent._calculate_checksum, FS.read.
    cbn [fs with_fs].
    destruct (dict_get path written) as [[data mt|]|] eqn:Eg;
      destruct verify; cbn; repeat split; auto; try discriminate;
      intros _; exists data, mt; repeat split; auto.
Qed.

Lemma download_pdf_spec (self : Agent.t) (env : Env) (w : World)
    (url : string) (paper_id : option string) (verify : bool) :
  let res := Agent.download_pdf self env w url paper_id verify in
  let self' := snd (fst res) in
  let path := Agent._generate_local_path self url paper_id in
  Agent.active_downloads self' = Agent.active_downloads self /\
  Agent.storage_path self' = Agent.storage_path self /\
  disk_free (snd res) = disk_free w /\
  (forall q, q <> path -> dict_get q (fs (snd res)) = dict_get q (fs w)) /\
  (Agent.set_mem url (Agent.active_downloads self) = true ->
   self' = self /\ snd res = w /\
   exists r, fst (fst res) = Ok r /\ Agent.success r = false) /\
  ((exists e, fst (fst res) = Raise e /\ self' = self /\ snd res = w) \/
   exists r,
     fst (fst res) = Ok r /\ Agent.url r = url /\
     ((Agent.download_history self' = Agent.download_history self /\
       requests (snd res) = requests w) \/
      (Agent.download_history self' =
         (Agent.download_history self ++ [r])%list /\
       requests (snd res) = (requests w ++ [url])%list)) /\
     (Agent.success r = false -> Agent.local_path r = None) /\
     (Agent.success r = true ->
      Agent.local_path r = Some path /\
      (verify = true \/ mcp_connected env = false ->
       exists data mt,
         dict_get path (fs (snd res)) = Some (FS.File data mt) /\
         Agent.file_size r = Z.of_nat (List.length data) /\
         Agent.checksum r =
           if verify then Some (Agent.checksum_of data) else None))).
Proof.
  intros res self' path. subst res self'. unfold Agent.download_pdf.
  destruct (Agent.set_mem url (Agent.active_downloads self)) eqn:Eact.
  { cbn. repeat split; auto.
    - eexists. split; [reflexivity|reflexivity].
    - right. eexists. split; [reflexivity|]. split; [reflexivity|].
      split; [now left|]. split; [reflexivity|discriminate]. }
  destruct (Agent._check_storage_capacity self w) as [[|]|e].
  3:{ cbn. repeat split; auto; try discriminate. left. eauto. }
  2:{ cbn. repeat split; auto; try discriminate.
      right. eexists. split; [reflexivity|]. split; [reflexivity|].
      split; [now left|]. split; [reflexivity|discriminate]. }
  destruct (rate_limit (Agent.rate_limiter
              (Agent.with_active
                 (Agent.set_add url (Agent.active_downloads self)) self)) w)
    as [rl w1] eqn:Erl.
  pose proof (rate_limit_frame (Agent.rate_limiter
              (Agent.with_active
                 (Agent.set_add url (Agent.active_downloads self)) self)) w)
    as (Hfs1 & Hrq1 & Hdf1 & _).
  rewrite Erl in Hfs1, Hrq1, Hdf1. cbn [snd] in Hfs1, Hrq1, Hdf1.
  cbv zeta.
  change (Agent._generate_local_path _ url paper_id) with path.
  cbn [Agent.download_history Agent.with_rate_limiter Agent.with_active].
  assert (Hdisc : Agent.set_discard url
                    (Agent.set_add url (Agent.active_downloads self)) =
                  Agent.active_downloads self)
    by now apply set_discard_add.
  assert (T : transfer_spec verify (negb (mcp_connected env)) w1 url path
                (if mcp_connected env
                 then Agent._download_with_mcp env w1 url path verify
                 else Agent._download_fallback env w1 url path verify)).
  { destruct (mcp_connected env);
      [apply download_with_mcp_spec|apply download_fallback_spec]. }
  destruct (if mcp_connected env
            then Agent._download_with_mcp env w1 url path verify
            else Agent._download_fallback env w1 url path verify)
    as [result w2].
  destruct T as (T1 & T2 & T3 & T4 & T5 & T6). cbn [fst snd] in *.
  destruct (dict_get path (fs w1)) as [[data mt|]|] eqn:Eg.
  { unfold Agent.checksum_if, Agent._calculate_checksum, FS.read.
    rewrite Eg.
    destruct verify; simpl; rewrite Hdisc, ?Hfs1, ?Hrq1, ?Hdf1;
      (split; [reflexivity|]); (split; [reflexivity|]);
      (split; [reflexivity|]); (split; [reflexivity|]);
      (split; [discriminate|]); right; eexists;
      (split; [reflexivity|]); (split; [reflexivity|]);
      (split; [now left|]); (split; [discriminate|]);
      intros _; (split; [reflexivity|]); intros _;
      exists data, mt; rewrite <- Hfs1, Eg; repeat split. }
  all: simpl; rewrite Hdisc.
  all: split; [reflexivity|]; split; [reflexivity|].
  all: split; [now rewrite T3|]; split;
    [intros q Hq; rewrite (T4 q Hq); now rewrite Hfs1|].
  all: split; [discriminate|]; right; eexists.
  all: split; [reflexivity|]; split; [exact T1|]; split;
    [right; split; [reflexivity|now rewrite T2, Hrq1]|].
  all: split; [exact T5|]; cbn; intro Hs; destruct (T6 Hs) as (L & _ & D).
  all: split; [exact L|]; intro Hv; apply D.
  all: destruct Hv as [Hv|Hv]; [now left|right; now rewrite Hv].
Qed.

End AgentMore.

(** X17. [download_pdf] keeps the agent's books: afterwards the set of
    urls in flight is what it was before; the download history is either
    unchanged, with no request sent, or longer by exactly the returned
    result, with exactly one request sent; no file other than the local
    path derived for the download is touched; a url that is in flight is
    refused, and an exception (of the storage check) is raised, with agent
    and store unchanged; a failed result carries no local path. *)
Theorem download_pdf_bookkeeping {H : Hasher} (self : Agent.t) (env : Env)
    (w : World) (url : string) (paper_id : option string) (verify : bool) :
  let res := Agent.download_pdf self env w url paper_id verify in
  let self' := snd (fst res) in
  let path := Agent._generate_local_path self url paper_id in
  Agent.active_downloads self' = Agent.active_downloads self /\
  (forall q, q <> path -> dict_get q (fs (snd res)) = dict_get q (fs w)) /\
  (Agent.set_mem url (Agent.active_downloads self) = true ->
   self' = self /\ snd res = w /\
   exists r, fst (fst res) = Ok r /\ Agent.success r = false) /\
  ((exists e, fst (fst res) = Raise e /\ self' = self /\ snd res = w) \/
   exists r,
     fst (fst res) = Ok r /\ Agent.url r = url /\
     ((Agent.download_history self' = Agent.download_history self /\
       requests (snd res) = requests w) \/
      (Agent.download_history self' =
         (Agent.download_history self ++ [r])%list /\
       requests (snd res) = (requests w ++ [url])%list)) /\
     (Agent.success r = false -> Agent.local_path r = None)).
Proof.
  intros res self' path.
  destruct (download_pdf_spec self env w url paper_id verify)
    as (H1 & _ & _ & H4 & H5 & H6).
  split; [exact H1|]. split; [exact H4|]. split; [exact H5|].
  destruct H6 as [H6|(r & Hr & Hu & Hh & Hf & _)]; [now left|].
  right. exists r. auto.
Qed.

Lemma download_pdf_bookkeeping_witness :
  let busy := Agent.with_active [paper_url] (Agent.init "papers") in
  let res := Agent.download_pdf (H := plain_hasher) busy oops_env
               stocked_world paper_url None true in
  snd (fst res) = busy /\ snd res = stocked_world /\
  exists r, fst (fst res) = Ok r /\ Agent.success r = false.
Proof.
  intros busy res.
  destruct (download_pdf_bookkeeping (H := plain_hasher) busy oops_env
              stocked_world paper_url None true) as (_ & _ & H3 & _).
  apply H3. reflexivity.
Defined.



(** X19. Round trip of download and verification: after a successful
    [download_pdf] with [verify_integrity] set, [verify_integrity] of the
    stored file against the checksum of the result answers true, provided
    the file is not empty (and the digest is not the empty string); an
    empty file is rejected even with its own checksum; and every other
    non-empty checksum is rejected. *)
Theorem downloaded_file_verifies {H : Hasher} (self : Agent.t) (env : Env)
    (w : World) (url : string) (paper_id : option string)
    (r : Agent.DownloadResult) :
  let res := Agent.download_pdf self env w url paper_id true in
  fst (fst res) = Ok r ->
  Agent.success r = true ->
  exists path c,
    Agent.local_path r = Some path /\
    Agent.checksum r = Some c /\
    (0 < Agent.file_size r -> c <> EmptyString ->
     Agent.verify_integrity (fs (snd res)) path (Some c) = true) /\
    (Agent.file_size r = 0 ->
     forall expected,
       Agent.verify_integrity (fs (snd res)) path expected = false) /\
    (forall c', c' <> EmptyString -> c' <> c ->
       Agent.verify_integrity (fs (snd res)) path (Some c') = false).
Proof.
  intros res Hr Hs.
  destruct (download_pdf_spec self env w url paper_id true)
    as (_ & _ & _ & _ & _ & H6).
  fold res in H6. destruct H6 as [(e & He & _)|(r' & Hr' & _ & _ & _ & Hok)];
    [congruence|].
  assert (r' = r) as -> by congruence.
  destruct (Hok Hs) as (Hl & Hfile).
  destruct (Hfile (or_introl eq_refl)) as (data & mt & Hg & Hsize & Hsum).
  exists (Agent._generate_local_path self url paper_id),
         (Agent.checksum_of data).
  split; [exact Hl|]. split; [exact Hsum|].
  unfold Agent.verify_integrity, FS.read. rewrite Hg.
  split; [|split].
  - intros Hpos Hc. destruct data as [|b data]; [simpl in Hsize; lia|].
    apply String.eqb_neq in Hc. rewrite Hc. apply String.eqb_refl.
  - intros Hz expected. destruct data as [|b data]; [reflexivity|].
    simpl in Hsize. lia.
  - intros c' Hc' Hne. destruct data as [|b data]; [reflexivity|].
    apply String.eqb_neq in Hc'. rewrite Hc'.
    apply String.eqb_neq. congruence.
Qed.

Lemma downloaded_file_verifies_witness :
  let res :=
    Agent.download_pdf (H := plain_hasher) (Agent.init "papers") oops_env
                       empty_world paper_url None true in
  exists r path c,
    fst (fst res) = Ok r /\
    Agent.checksum r = Some c /\
    Agent.verify_integrity (H := plain_hasher) (fs (snd res)) path (Some c)
    = true.
Proof.
  intro res.
  destruct (downloaded_file_verifies (H := plain_hasher)
              (Agent.init "papers") oops_env empty_world paper_url None
              _ eq_refl eq_refl)
    as (path & c & _ & Hc & Hv & _).
  eexists. exists path, c. split; [reflexivity|]. split; [exact Hc|].
  apply Hv; [reflexivity|].
  intro E. rewrite E in Hc. discriminate.
Defined.

(** ** Download agent: batches and the capacity check *)

(** X21. The capacity check of the agent depends on the stored papers
    only: when the free space of the disk can be read,
    [_check_storage_capacity] answers true exactly when the [.pdf] files
    of the store total fewer than 306016419840 bytes (95 percent of 300
    GiB), whatever the free space is; when it cannot be read the check
    raises. At or above that total every [download_pdf] is refused without
    a request, and agent and store stay as they are. *)
Theorem storage_capacity_threshold {H : Hasher} (self : Agent.t)
    (w : World) :
  (forall free,
     disk_free w = Some free ->
     Agent._check_storage_capacity self w =
       Ok (Agent.total_size (FS.pdf_files (fs w)) <? 306016419840)) /\
  (disk_free w = None ->
   Agent._check_storage_capacity self w = Raise "OSError") /\
  (forall free env url paper_id verify,
     disk_free w = Some free ->
     306016419840 <= Agent.total_size (FS.pdf_files (fs w)) ->
     exists r,
       Agent.download_pdf self env w url paper_id verify = (Ok r, self, w) /\
       Agent.success r = false).
Proof.
  assert (Hcap : forall free,
            disk_free w = Some free ->
            Agent._check_storage_capacity self w =
              Ok (Agent.total_size (FS.pdf_files (fs w)) <? 306016419840)).
  { intros free Hfree.
    unfold Agent._check_storage_capacity, Agent.get_storage_stats.
    rewrite Hfree. cbn [Agent.storage_stats Agent.usage_percentage].
    f_equal. set (n := Agent.total_size (FS.pdf_files (fs w))).
    unfold Agent.gib.
    destruct (Z.ltb_spec n 306016419840) as [Hlt|Hge].
    - apply Qlt_bool_iff.
      assert (Hq : (inject_Z n < inject_Z 306016419840)%Q)
        by now rewrite <- Zlt_Qlt.
      unfold Qlt, Qdiv, Qmult, Qinv in *. cbn in *. lia.
    - destruct (Qlt_bool _ _) eqn:E; [|reflexivity]. exfalso.
      apply Qlt_bool_iff in E.
      assert (Hq : (inject_Z 306016419840 <= inject_Z n)%Q)
        by now rewrite <- Zle_Qle.
      unfold Qlt, Qle, Qdiv, Qmult, Qinv in *. cbn in *. lia. }
  split; [exact Hcap|]. split.
  { intro Hnone.
    unfold Agent._check_storage_capacity, Agent.get_storage_stats.
    now rewrite Hnone. }
  intros free env url paper_id verify Hfree Hfull.
  unfold Agent.download_pdf.
  destruct (Agent.set_mem url (Agent.active_downloads self));
    [eexists; split; reflexivity|].
  rewrite (Hcap free Hfree).
  apply Z.ltb_ge in Hfull. rewrite Hfull.
  eexists; split; reflexivity.
Qed.

Lemma storage_capacity_threshold_witness :
  Agent._check_storage_capacity (Agent.init "papers") stocked_world =
    Ok true.
Proof.
  destruct (storage_capacity_threshold (H := plain_hasher)
              (Agent.init "papers") stocked_world) as (Hcap & _).
  rewrite (Hcap _ eq_refl). reflexivity.
Defined.

(** ** Sorting *)

Section SortedFacts.
Context {A : Type} (lt : A -> A -> bool).
Hypothesis lt_asym : forall a b, lt a b = true -> lt b a = false.
Hypothesis lt_negtrans :
  forall a b c, lt b a = false -> lt c b = false -> lt c a = false.

Lemma insert_sorted_ascending x l :
  ascending lt l -> ascending lt (insert_sorted lt x l).
Proof.
  induction l as [|y l IH]; intro Hs; simpl.
  - split; [constructor|exact I].
  - destruct Hs as [Hy Hl].
    destruct (lt y x) eqn:E.
    + simpl. split; [|now apply IH].
      apply Forall_forall. intros z Hz.
      apply insert_sorted_In in Hz. destruct Hz as [->|Hz].
      * now apply lt_asym.
      * rewrite Forall_forall in Hy. now apply Hy.
    + simpl. split; [|split; assumption].
      constructor; [exact E|].
      rewrite Forall_forall in Hy |- *. intros z Hz.
      apply lt_negtrans with y; [exact E|now apply Hy].
Qed.

Lemma stable_sort_ascending l : ascending lt (stable_sort lt l).
Proof.
  induction l as [|x l IH]; [exact I|].
  now apply insert_sorted_ascending.
Qed.

Lemma ascending_firstn_skipn n : forall l x y,
  ascending lt l -> In x (firstn n l) -> In y (skipn n l) -> lt y x = false.
Proof.
  induction n as [|n IH]; intros l x y Hs Hx Hy; [destruct Hx|].
  destruct l as [|z l]; [destruct Hx|].
  destruct Hs as [Hz Hl]. simpl in Hx, Hy.
  destruct Hx as [->|Hx].
  - rewrite Forall_forall in Hz. apply Hz.
    clear - Hy. revert l Hy. induction n as [|n IH]; intros l Hy;
      [exact Hy|].
    destruct l as [|a l]; [destruct Hy|]. right. now apply IH.
  - now apply (IH l).
Qed.
End SortedFacts.

Lemma insert_sorted_map_NoDup {A B : Type} (lt : A -> A -> bool)
    (f : A -> B) (x : A) (l : list A) :
  ~ In (f x) (map f l) -> NoDup (map f l) ->
  NoDup (map f (insert_sorted lt x l)).
Proof.
  induction l as [|y l IH]; simpl; intros Hx Hl.
  - constructor; [intros []|constructor].
  - inversion Hl as [|? ? Hy Hl']; subst. destruct (lt y x); simpl.
    + constructor.
      * intro Hin. apply in_map_iff in Hin. destruct Hin as (g & Hg & Hin).
        apply insert_sorted_In in Hin. destruct Hin as [->|Hin].
        -- apply Hx. left. now symmetry.
        -- apply Hy. apply in_map_iff. now exists g.
      * apply IH; [|exact Hl']. intro Hin. apply Hx. now right.
    + constructor; [exact Hx|exact Hl].
Qed.

Lemma stable_sort_map_NoDup {A B : Type} (lt : A -> A -> bool)
    (f : A -> B) (l : list A) :
  NoDup (map f l) -> NoDup (map f (stable_sort lt l)).
Proof.
  induction l as [|x l IH]; simpl; intro Hl; [constructor|].
  inversion Hl as [|? ? Hx Hl']; subst.
  apply insert_sorted_map_NoDup; [|now apply IH].
  intro Hin. apply Hx. apply in_map_iff in Hin.
  destruct Hin as (g & Hg & Hin). apply in_map_iff. exists g.
  split; [exact Hg|]. exact (proj1 (stable_sort_In lt _ _) Hin).
Qed.

(** ** Download agent: the oldest files *)

Lemma skipn_In_incl (A : Type) n : forall (l : list A) x,
  In x (skipn n l) -> In x l.
Proof.
  induction n as [|n IH]; intros l x Hx; [exact Hx|].
  destruct l as [|a l]; [destruct Hx|]. right. now apply IH.
Qed.

(** X22. [_find_old_files(percentage)], for a percentage that is not
    negative, on a store with distinct paths returns [int(n * percentage)] paths (all [n], if that is more) of
    regular [.pdf] files, without repetition, and they are the oldest: no
    file that is left out has a modification time before that of a file
    that is returned. With the [0.1] that [manage_storage] passes, a store
    of fewer than ten papers has no old file at all. *)
Theorem old_files_are_the_oldest (fs : FS.t) (percentage : Q) :
  NoDup (dict_keys fs) ->
  (0 <= percentage)%Q ->
  let files := FS.pdf_files fs in
  let old := Agent._find_old_files fs percentage in
  List.length old =
    Nat.min (Z.to_nat (Qfloor (inject_Z (Z.of_nat (List.length files))
                               * percentage)))
            (List.length files) /\
  NoDup old /\
  (forall p, In p old -> exists data mt, In (p, (data, mt)) files) /\
  (forall p data mt q data' mt',
     In p old -> In (p, (data, mt)) files ->
     In (q, (data', mt')) files -> ~ In q old -> (mt <= mt')%Q) /\
  ((List.length files < 10)%nat -> Agent._find_old_files fs 0.1 = []).
Proof.
  intros Hnd _ files old.
  set (lt := fun x y : string * (list byte * Q) =>
               Qlt_bool (snd (snd x)) (snd (snd y))).
  set (sorted := stable_sort lt files).
  assert (Hasc : ascending lt sorted).
  { apply stable_sort_ascending.
    - intros a b Hab. apply Qlt_bool_iff in Hab.
      unfold lt. rewrite Qlt_bool_ge_bool. apply Bool.negb_false_iff.
      apply Qge_bool_iff. lra.
    - intros a b c Hba Hcb. unfold lt in *.
      rewrite Qlt_bool_ge_bool in *.
      apply Bool.negb_false_iff in Hba, Hcb.
      apply Bool.negb_false_iff. apply Qge_bool_iff in Hba, Hcb.
      apply Qge_bool_iff. lra. }
  assert (Hlen : List.length sorted = List.length files)
    by apply stable_sort_length.
  assert (Hpaths : NoDup (map fst files)) by now apply pdf_files_NoDup.
  assert (HndS : NoDup (map fst sorted))
    by now apply stable_sort_map_NoDup.
  set (count := Z.to_nat (Qfloor (inject_Z (Z.of_nat (List.length files))
                                  * percentage))).
  assert (Hold : old = map fst (firstn count sorted)).
  { subst old. unfold Agent._find_old_files. fold files. fold lt.
    fold sorted. rewrite Hlen. reflexivity. }
  split.
  { rewrite Hold, length_map, length_firstn, Hlen. reflexivity. }
  split.
  { rewrite Hold. rewrite <- (firstn_skipn count sorted) in HndS.
    rewrite map_app in HndS. now apply NoDup_app_remove_r in HndS. }
  split.
  { intros p Hp. rewrite Hold in Hp. apply in_map_iff in Hp.
    destruct Hp as ([p' [d m]] & <- & Hin). exists d, m.
    apply firstn_In_incl in Hin. exact (proj1 (stable_sort_In lt _ _) Hin). }
  split.
  { intros p data mt q data' mt' Hp Hfp Hfq Hq.
    rewrite Hold in Hp, Hq. apply in_map_iff in Hp.
    destruct Hp as (f0 & Hf0 & Hin0).
    assert (f0 = (p, (data, mt))) as ->.
    { apply (same_path_same_file files); auto.
      apply firstn_In_incl in Hin0. exact (proj1 (stable_sort_In lt _ _) Hin0). }
    assert (Hqs : In (q, (data', mt')) sorted)
      by exact (proj2 (stable_sort_In lt _ _) Hfq).
    rewrite <- (firstn_skipn count sorted) in Hqs.
    apply in_app_or in Hqs. destruct Hqs as [Hqs|Hqs].
    - exfalso. apply Hq. apply in_map_iff. now exists (q, (data', mt')).
    - pose proof (ascending_firstn_skipn lt count sorted _ _ Hasc Hin0 Hqs)
        as Hle.
      unfold lt in Hle. cbn [snd] in Hle.
      rewrite Qlt_bool_ge_bool in Hle. apply Bool.negb_false_iff in Hle.
      now apply Qge_bool_iff in Hle. }
  intro Hfew. unfold Agent._find_old_files. fold files.
  rewrite stable_sort_length.
  assert (Hz : Qfloor (inject_Z (Z.of_nat (List.length files)) * 0.1) = 0).
  { assert (H0 : (0 <= inject_Z (Z.of_nat (List.length files)) * 0.1)%Q).
    { apply Qmult_le_0_compat; [|discriminate].
      change 0%Q with (inject_Z 0). rewrite <- Zle_Qle. lia. }
    assert (H1 : (inject_Z (Z.of_nat (List.length files)) * 0.1 < 1)%Q).
    { assert (Hn : (inject_Z (Z.of_nat (List.length files)) <= 9)%Q).
      { change 9%Q with (inject_Z 9). rewrite <- Zle_Qle. lia. }
      lra. }
    pose proof (Qfloor_le (inject_Z (Z.of_nat (List.length files)) * 0.1)).
    pose proof (Qlt_floor (inject_Z (Z.of_nat (List.length files)) * 0.1)).
    set (x := (inject_Z (Z.of_nat (List.length files)) * 0.1)%Q) in *.
    assert (Hlo : (inject_Z (Qfloor x) < 1)%Q) by lra.
    assert (Hhi : (0 < inject_Z (Qfloor x + 1))%Q) by lra.
    change 1%Q with (inject_Z 1) in Hlo. change 0%Q with (inject_Z 0) in Hhi.
    rewrite <- Zlt_Qlt in Hlo, Hhi. lia. }
  rewrite Hz. reflexivity.
Qed.

Lemma old_files_are_the_oldest_witness :
  Agent._find_old_files (fs duplicated_world) 0.5 =
    ["papers/b/b.pdf"; "papers/c/c.pdf"] /\
  Agent._find_old_files (fs duplicated_world) 0.1 = [].
Proof.
  assert (Hnd : NoDup (dict_keys (fs duplicated_world))).
  { repeat constructor; simpl; intuition discriminate. }
  split; [reflexivity|].
  assert (Hpos : (0 <= 0.1)%Q) by discriminate.
  destruct (old_files_are_the_oldest (fs duplicated_world) 0.1 Hnd Hpos)
    as (_ & _ & _ & _ & Hfew).
  apply Hfew. simpl. lia.
Defined.

(** ** Download agent: duplicate groups *)

Lemma two_distinct (A : Type) (l : list A) (x y : A) :
  In x l -> In y l -> x <> y -> (2 <= List.length l)%nat.
Proof.
  destruct l as [|a [|b l]]; simpl.
  - intros [].
  - intros [<-|[]] [<-|[]] Hxy. now elim Hxy.
  - intros _ _ _. lia.
Qed.

Lemma another_member (l : list string) (x : string) :
  (2 <= List.length l)%nat -> NoDup l -> exists y, In y l /\ y <> x.
Proof.
  destruct l as [|a [|b l]]; simpl; try lia. intros _ Hnd.
  inversion Hnd as [|? ? Ha _]; subst.
  destruct (String.eqb_spec a x) as [->|Hax].
  - exists b. split; [now right; left|].
    intros ->. apply Ha. now left.
  - exists a. split; [now left|exact Hax].
Qed.

Lemma find_duplicate_files_In {H : Hasher} (fs : FS.t) (g : list string) :
  In g (Agent._find_duplicate_files fs) <->
  (2 <= List.length g)%nat /\
  exists c, g = map fst (group_of c (FS.pdf_files fs)).
Proof.
  unfold Agent._find_duplicate_files. rewrite filter_In.
  rewrite (grouped_values _ _ g (checksum_map_grouped fs)).
  rewrite Nat.ltb_lt. split.
  - intros [[_ Hc] Hl]. split; [lia|exact Hc].
  - intros [Hl Hc]. split; [|lia]. split; [|exact Hc].
    intros ->. simpl in Hl. lia.
Qed.

(** X23. [_find_duplicate_files] on a store with distinct paths: every
    group it returns holds at least two paths, without repetition, and
    these are exactly the [.pdf] files with one and the same checksum; a
    [.pdf] file is in some group exactly when another [.pdf] file has the
    same checksum; and no path is in two groups. *)
Theorem duplicate_groups_exact {H : Hasher} (fs : FS.t) :
  NoDup (dict_keys fs) ->
  let files := FS.pdf_files fs in
  let duplicates := Agent._find_duplicate_files fs in
  (forall g, In g duplicates ->
     (2 <= List.length g)%nat /\ NoDup g /\
     exists c, forall p,
       In p g <-> exists f, In f files /\ fst f = p /\ file_checksum f = c) /\
  (forall f, In f files ->
     (exists g, In g duplicates /\ In (fst f) g) <->
     (exists f', In f' files /\ fst f' <> fst f /\
                 file_checksum f' = file_checksum f)) /\
  (forall g1 g2 p,
     In g1 duplicates -> In g2 duplicates -> In p g1 -> In p g2 -> g1 = g2).
Proof.
  intros Hnd files duplicates.
  assert (Hpaths : NoDup (map fst files)) by now apply pdf_files_NoDup.
  assert (Hmem : forall c p,
            In p (map fst (group_of c files)) <->
            exists f, In f files /\ fst f = p /\ file_checksum f = c).
  { intros c p. rewrite in_map_iff. split.
    - intros (f & Hp & Hin). apply group_of_In in Hin. exists f. tauto.
    - intros (f & Hin & Hp & Hc). exists f. split; [exact Hp|].
      apply group_of_In. now split. }
  split; [|split].
  - intros g Hg. apply find_duplicate_files_In in Hg.
    destruct Hg as (Hl & c & ->). split; [exact Hl|]. split.
    + now apply NoDup_map_filter.
    + exists c. apply Hmem.
  - intros f Hf. split.
    + intros (g & Hg & Hin). apply find_duplicate_files_In in Hg.
      destruct Hg as (Hl & c & ->).
      assert (Hndg : NoDup (map fst (group_of c files)))
        by now apply NoDup_map_filter.
      destruct (another_member _ (fst f) Hl Hndg) as (q & Hq & Hne).
      apply Hmem in Hin. destruct Hin as (f0 & Hf0 & Hp0 & Hc0).
      assert (f0 = f) as -> by now apply (same_path_same_file files).
      apply Hmem in Hq. destruct Hq as (f' & Hf' & Hp' & Hc').
      exists f'. split; [exact Hf'|]. split; congruence.
    + intros (f' & Hf' & Hne & Hc).
      exists (map fst (group_of (file_checksum f) files)).
      assert (Hin : In (fst f) (map fst (group_of (file_checksum f) files)))
        by (apply Hmem; now exists f).
      split; [|exact Hin].
      apply find_duplicate_files_In. split; [|now exists (file_checksum f)].
      apply (two_distinct _ _ (fst f') (fst f)); auto.
      apply Hmem. now exists f'.
  - intros g1 g2 p Hg1 Hg2 Hp1 Hp2.
    apply find_duplicate_files_In in Hg1, Hg2.
    destruct Hg1 as (_ & c1 & ->). destruct Hg2 as (_ & c2 & ->).
    apply Hmem in Hp1, Hp2.
    destruct Hp1 as (f1 & Hf1 & Hq1 & Hc1).
    destruct Hp2 as (f2 & Hf2 & Hq2 & Hc2).
    assert (f1 = f2) by (apply (same_path_same_file files); congruence).
    congruence.
Qed.

Lemma duplicate_groups_exact_witness :
  Agent._find_duplicate_files (H := plain_hasher) (fs duplicated_world) =
    [["papers/a/a.pdf"; "papers/c/c.pdf"; "papers/d/d.pdf"];
     ["papers/b/b.pdf"; "papers/e/e.pdf"]] /\
  forall g, In g (Agent._find_duplicate_files (H := plain_hasher)
                    (fs duplicated_world)) ->
            (2 <= List.length g)%nat.
Proof.
  assert (Hnd : NoDup (dict_keys (fs duplicated_world))).
  { repeat constructor; simpl; intuition discriminate. }
  split; [reflexivity|].
  destruct (duplicate_groups_exact (H := plain_hasher)
              (fs duplicated_world) Hnd) as (H1 & _).
  intros g Hg. now destruct (H1 g Hg).
Defined.

(** ** Download agent: what a cleanup may remove *)

Lemma only_papers_removed_refl (fs : FS.t) : only_papers_removed fs fs.
Proof. intro q. now left. Qed.

Lemma only_papers_removed_trans (fs1 fs2 fs3 : FS.t) :
  only_papers_removed fs1 fs2 -> only_papers_removed fs2 fs3 ->
  only_papers_removed fs1 fs3.
Proof.
  intros H12 H23 q.
  destruct (H23 q) as [E|(E & Hp & d & m & Hd)].
  - rewrite E. apply H12.
  - destruct (H12 q) as [E'|(E' & _)]; [|congruence].
    right. split; [exact E|]. split; [exact Hp|]. exists d, m. congruence.
Qed.

Lemma remove_file_only_papers (fs : FS.t) (removed freed : Z) (p : string) :
  NoDup (dict_keys fs) ->
  ends_with ".pdf" p = true ->
  let acc' := Agent.remove_file (fs, removed, freed) p in
  NoDup (dict_keys (fst (fst acc'))) /\
  only_papers_removed fs (fst (fst acc')) /\
  removed <= snd (fst acc').
Proof.
  intros Hnd Hp. unfold Agent.remove_file, FS.getsize, FS.unlink, dict_mem.
  destruct (dict_get p fs) as [[data mt|]|] eqn:Eg; cbn;
    try (split; [exact Hnd|]; split; [apply only_papers_removed_refl|lia]).
  split; [now apply dict_del_NoDup|]. split; [|lia].
  intro q. destruct (String.eqb_spec p q) as [<-|Hne].
  - right. split; [now apply dict_get_del_eq|]. split; [exact Hp|].
    now exists data, mt.
  - left. now apply dict_get_del_neq.
Qed.

Lemma remove_files_only_papers (paths : list string) :
  forall (fs : FS.t) (removed freed : Z),
    NoDup (dict_keys fs) ->
    Forall (fun p => ends_with ".pdf" p = true) paths ->
    let acc' := fold_left Agent.remove_file paths (fs, removed, freed) in
    NoDup (dict_keys (fst (fst acc'))) /\
    only_papers_removed fs (fst (fst acc')).
Proof.
  induction paths as [|p paths IH]; intros fs removed freed Hnd Hall.
  - split; [exact Hnd|apply only_papers_removed_refl].
  - inversion Hall as [|? ? Hp Hall']; subst. cbn [fold_left].
    pose proof (remove_file_only_papers fs removed freed p Hnd Hp) as S.
    destruct (Agent.remove_file (fs, removed, freed) p) as [[fs1 r1] f1].
    cbn [fst snd] in S. destruct S as (Hnd1 & Ho1 & _).
    destruct (IH fs1 r1 f1 Hnd1 Hall') as (Hnd2 & Ho2).
    split; [exact Hnd2|]. now apply only_papers_removed_trans with fs1.
Qed.

Lemma remove_old_only_papers (self : Agent.t) (threshold : Q)
    (old : list string) :
  forall (w : World) (removed freed : Z),
    NoDup (dict_keys (fs w)) ->
    Forall (fun p => ends_with ".pdf" p = true) old ->
    let res := Agent.remove_old self w threshold old removed freed in
    only_papers_removed (fs w) (fs (fst (fst res))) /\
    clock (fst (fst res)) = clock w /\
    requests (fst (fst res)) = requests w /\
    disk_free (fst (fst res)) = disk_free w.
Proof.
  induction old as [|p old IH]; intros w removed freed Hnd Hall.
  - cbn. split; [apply only_papers_removed_refl|]. now repeat split.
  - inversion Hall as [|? ? Hp Hall']; subst. cbn [Agent.remove_old].
    pose proof (remove_file_only_papers (fs w) removed freed p Hnd Hp) as S.
    unfold Agent.remove_file in S.
    destruct (FS.getsize (fs w) p) as [size|e]; [|now apply IH].
    destruct (FS.unlink (fs w) p) as [fs1|e]; [|now apply IH].
    cbn [fst snd] in S. destruct S as (Hnd1 & Ho1 & _).
    assert (Hstep : forall r f,
              let res := Agent.remove_old self (with_fs fs1 w) threshold old
                                          r f in
              only_papers_removed (fs w) (fs (fst (fst res))) /\
              clock (fst (fst res)) = clock w /\
              requests (fst (fst res)) = requests w /\
              disk_free (fst (fst res)) = disk_free w).
    { intros r f. destruct (IH (with_fs fs1 w) r f Hnd1 Hall')
        as (I1 & I2 & I3 & I4).
      split; [|now repeat split].
      now apply only_papers_removed_trans with fs1. }
    destruct (Agent.get_storage_stats self (with_fs fs1 w)) as [stats|e];
      [|apply Hstep].
    destruct (Qlt_bool (Agent.usage_percentage stats) (threshold * 100));
      [|apply Hstep].
    cbn. split; [exact Ho1|]. now repeat split.
Qed.

(** X24. [manage_storage] on a store with distinct paths only ever removes
    regular files whose name ends in [.pdf]: every other entry, and the
    rest of the world, is as before. Below the threshold it removes
    nothing and reports that no cleanup is needed; when the storage
    statistics cannot be obtained at the start it raises and removes
    nothing. *)
Theorem manage_storage_removes_only_papers {H : Hasher} (self : Agent.t)
    (w : World)
    (cleanup_threshold : Q) :
  NoDup (dict_keys (fs w)) ->
  let res := Agent.manage_storage self w cleanup_threshold in
  only_papers_removed (fs w) (fs (snd res)) /\
  clock (snd res) = clock w /\
  requests (snd res) = requests w /\
  disk_free (snd res) = disk_free w /\
  (forall stats,
     Agent.get_storage_stats self w = Ok stats ->
     (Agent.usage_percentage stats < cleanup_threshold * 100)%Q ->
     res = (Ok (Agent.NoCleanup (Agent.usage_percentage stats)
                                (cleanup_threshold * 100)%Q), w)) /\
  (forall e, Agent.get_storage_stats self w = Raise e ->
             res = (Raise e, w)).
Proof.
  intros Hnd res. subst res. unfold Agent.manage_storage.
  destruct (Agent.get_storage_stats self w) as [stats|e] eqn:Es.
  2:{ cbn. split; [apply only_papers_removed_refl|].
      repeat split; try discriminate. now intros e' [= ->]. }
  destruct (Qlt_bool (Agent.usage_percentage stats) (cleanup_threshold * 100))
    eqn:Elt.
  { cbn. split; [apply only_papers_removed_refl|].
    repeat split; try discriminate. now intros stats' [= ->] _. }
  assert (Hno : forall stats',
            Ok stats = Ok stats' ->
            (Agent.usage_percentage stats' < cleanup_threshold * 100)%Q ->
            False).
  { intros stats' [= <-] Hlt. apply Qlt_bool_iff in Hlt. congruence. }
  rewrite remove_duplicates_flat.
  pose proof (remove_files_only_papers (doomed (fs w)) (fs w) 0 0 Hnd
                (doomed_pdf (fs w))) as S.
  fold (doomed (fs w)).
  destruct (fold_left Agent.remove_file (doomed (fs w)) (fs w, 0, 0))
    as [[fs1 removed_duplicates] freed_space].
  cbn [fst snd] in S. destruct S as (Hnd1 & Ho1).
  destruct (Agent.get_storage_stats self (with_fs fs1 w)) as [stats1|e].
  2:{ cbn. split; [exact Ho1|]. repeat split; try discriminate.
      intros stats' Hs Hlt. exfalso. eauto. }
  pose proof (remove_old_only_papers self cleanup_threshold
                (Agent._find_old_files (fs w) 0.1) (with_fs fs1 w) 0
                freed_space Hnd1 (find_old_files_pdf (fs w) 0.1)) as R.
  destruct (Qlt_bool (Agent.usage_percentage stats1)
                     (cleanup_threshold * 100)).
  - destruct (Agent.get_storage_stats self (with_fs fs1 w)) as [final|e];
      cbn; (split; [exact Ho1|]); repeat split; try discriminate;
      intros stats' Hs Hlt; exfalso; eauto.
  - destruct (Agent.remove_old self (with_fs fs1 w) cleanup_threshold
                (Agent._find_old_files (fs w) 0.1) 0 freed_space)
      as [[w2 removed_old] freed2].
    cbn [fst snd] in R. destruct R as (R1 & R2 & R3 & R4).
    assert (Ho2 : only_papers_removed (fs w) (fs w2))
      by now apply only_papers_removed_trans with fs1.
    destruct (Agent.get_storage_stats self w2) as [final|e];
      cbn; (split; [exact Ho2|]); repeat split; auto; try discriminate;
      intros stats' Hs Hlt; exfalso; eauto.
Qed.

Lemma manage_storage_removes_only_papers_witness :
  let res := Agent.manage_storage (H := plain_hasher) (Agent.init "papers")
               duplicated_world 0 in
  dict_get "papers/x.txt" (fs (snd res)) =
    dict_get "papers/x.txt" (fs duplicated_world) /\
  only_papers_removed (fs duplicated_world) (fs (snd res)).
Proof.
  intro res.
  assert (Hnd : NoDup (dict_keys (fs duplicated_world))).
  { repeat constructor; simpl; intuition discriminate. }
  split; [reflexivity|].
  apply (manage_storage_removes_only_papers (H := plain_hasher)
           (Agent.init "papers") duplicated_world 0 Hnd).
Defined.

(** ** The manager of the tool servers *)

Lemma status_eqb_eq (a b : MCP.ServerStatus) :
  MCP.status_eqb a b = true <-> a = b.
Proof. destruct a, b; simpl; split; congruence. Qed.

Lemma connect_server_cases (m : MCP.t) (server_name : string)
    (probe : option Z) :
  ((dict_get server_name (MCP.configs m) = None \/ healthy probe = false) /\
   MCP.connect_server m server_name probe = (false, m)) \/
  (exists config,
     dict_get server_name (MCP.configs m) = Some config /\
     healthy probe = true /\
     MCP.connect_server m server_name probe =
       (true,
        MCP.with_clients
          (dict_set server_name (MCP.mkClient config MCP.CONNECTED true)
                    (MCP.clients m)) m)).
Proof.
  unfold MCP.connect_server.
  destruct (dict_get server_name (MCP.configs m)) as [config|];
    [|left; split; [now left|reflexivity]].
  unfold MCP.connect, MCP.health_check, MCP.new_client. cbn.
  fold (healthy probe). destruct (healthy probe).
  - right. exists config. repeat split.
  - left. split; [now right|reflexivity].
Qed.

Lemma connect_server_kept (m : MCP.t) (server_name : string)
    (probe : option Z) :
  kept m -> kept (snd (MCP.connect_server m server_name probe)).
Proof.
  intro Hm.
  destruct (connect_server_cases m server_name probe)
    as [[_ ->]|(config & Hc & _ & ->)]; [exact Hm|].
  cbn. destruct Hm as [H1 H2 H3]. split; cbn.
  - exact H1.
  - now apply dict_set_NoDup.
  - intros n c. destruct (String.eqb_spec server_name n) as [<-|Hne].
    + rewrite dict_get_set_eq. intros [= <-]. cbn. now repeat split.
    + rewrite dict_get_set_neq by exact Hne. apply H3.
Qed.

Lemma disconnect_server_kept (m : MCP.t) (server_name : string) :
  kept m -> kept (MCP.disconnect_server m server_name).
Proof.
  intro Hm. unfold MCP.disconnect_server.
  destruct (dict_mem server_name (MCP.clients m)); [|exact Hm].
  destruct Hm as [H1 H2 H3]. split; cbn.
  - exact H1.
  - now apply dict_del_NoDup.
  - intros n c. destruct (String.eqb_spec server_name n) as [<-|Hne].
    + now rewrite dict_get_del_eq.
    + rewrite dict_get_del_neq by exact Hne. apply H3.
Qed.

Lemma disconnect_fold_kept (names : list string) : forall m,
  kept m -> kept (fold_left MCP.disconnect_server names m).
Proof.
  induction names as [|n names IH]; intros m Hm; [exact Hm|].
  simpl. apply IH. now apply disconnect_server_kept.
Qed.

Lemma connect_fold_kept (probes : string -> option Z) (names : list string) :
  forall (results : Dict bool) (m : MCP.t),
    kept m ->
    kept (snd (fold_left (MCP.connect_next probes) names (results, m))).
Proof.
  induction names as [|n names IH]; intros results m Hm; [exact Hm|].
  cbn [fold_left]. unfold MCP.connect_next at 2.
  pose proof (connect_server_kept m n (probes n) Hm) as Hk.
  destruct (MCP.connect_server m n (probes n)) as [ok m1].
  now apply IH.
Qed.

Lemma step_kept (m : MCP.t) (op : MCP.Op) : kept m -> kept (MCP.step m op).
Proof.
  intro Hm. destruct op as [n probe|probes|n|]; cbn [MCP.step].
  - now apply connect_server_kept.
  - now apply connect_fold_kept.
  - now apply disconnect_server_kept.
  - now apply disconnect_fold_kept.
Qed.

Lemma run_kept (ops : list MCP.Op) : forall m,
  kept m -> kept (MCP.run m ops).
Proof.
  induction ops as [|op ops IH]; intros m Hm; [exact Hm|].
  cbn. apply IH. now apply step_kept.
Qed.

Lemma init_kept : kept MCP.init.
Proof.
  split; cbn; [reflexivity|constructor|discriminate].
Qed.

Lemma kept_connected (m : MCP.t) (server_name : string) :
  kept m ->
  MCP.is_server_connected m server_name =
    dict_mem server_name (MCP.clients m).
Proof.
  intro Hm. unfold MCP.is_server_connected, dict_mem.
  destruct (dict_get server_name (MCP.clients m)) as [c|] eqn:E;
    [|reflexivity].
  destruct (kept_client _ Hm _ _ E) as (-> & _). reflexivity.
Qed.

(** X25. In every state that the manager reaches from its creation through
    [connect_server], [connect_all_servers], [disconnect_server] and
    [disconnect_all_servers], the servers it reports as connected are
    exactly those it holds a client for, each of them one of the six
    configured servers; [get_server_status] only ever answers [CONNECTED]
    or [DISCONNECTED], in accordance with [is_server_connected]; and the
    configuration is the default one. *)
Theorem manager_tracks_connected_servers (ops : list MCP.Op)
    (server_name : string) :
  let m := MCP.run MCP.init ops in
  MCP.configs m = MCP._setup_default_configs /\
  MCP.is_server_connected m server_name =
    dict_mem server_name (MCP.clients m) /\
  MCP.get_server_status m server_name =
    (if MCP.is_server_connected m server_name
     then MCP.CONNECTED else MCP.DISCONNECTED) /\
  (MCP.is_server_connected m server_name = true ->
   In server_name
      ["arxiv"; "playwright"; "unstructured"; "fetch"; "tinybird";
       "piloty"] /\
   MCP.get_available_tools m server_name <> []) /\
  dict_keys (MCP.get_all_server_status m) =
    ["arxiv"; "playwright"; "unstructured"; "fetch"; "tinybird"; "piloty"].
Proof.
  intro m. assert (Hm : kept m) by (apply run_kept, init_kept).
  split; [apply (kept_configs _ Hm)|].
  split; [now apply kept_connected|].
  split.
  { unfold MCP.get_server_status, MCP.is_server_connected.
    destruct (dict_get server_name (MCP.clients m)) as [c|] eqn:E;
      [|reflexivity].
    destruct (kept_client _ Hm _ _ E) as (-> & _). reflexivity. }
  split.
  { unfold MCP.is_server_connected, MCP.get_available_tools.
    destruct (dict_get server_name (MCP.clients m)) as [c|] eqn:E;
      [|discriminate].
    intros _. destruct (kept_client _ Hm _ _ E) as (_ & _ & Hc).
    rewrite Hc. rewrite (kept_configs _ Hm) in Hc.
    split.
    - apply dict_get_In in Hc.
      change ["arxiv"; "playwright"; "unstructured"; "fetch"; "tinybird";
              "piloty"] with (dict_keys MCP._setup_default_configs).
      apply in_map_iff. exists (server_name, MCP.config c). now split.
    - apply dict_get_In in Hc. cbn in Hc.
      repeat (destruct Hc as [[= _ <-]|Hc]; [discriminate|]).
      destruct Hc. }
  unfold MCP.get_all_server_status, dict_keys.
  rewrite map_map. cbn [fst]. rewrite map_id.
  fold (dict_keys (MCP.configs m)). now rewrite (kept_configs _ Hm).
Qed.

(** X26. [call_tool] of the manager, in every state it reaches: for a
    server that is not connected it raises the error that the server is
    not connected, whatever the tool; for a connected server it returns the
    body of the answer exactly when the answer has status 200, raises
    [Tool call failed] with the text of any other answer, and lets an
    exception of the request through. *)
Theorem call_tool_needs_connection (ops : list MCP.Op)
    (server_name tool_name : string) (post : MCP.PostOutcome) :
  let m := MCP.run MCP.init ops in
  MCP.call_tool m server_name tool_name post =
    if MCP.is_server_connected m server_name then
      match post with
      | MCP.PostRaise msg => Raise msg
      | MCP.PostReply code body =>
          if code =? 200 then Ok body
          else Raise ("Tool call failed: " ++ body)
      end
    else Raise ("Server " ++ server_name ++ " not connected").
Proof.
  intro m. assert (Hm : kept m) by (apply run_kept, init_kept).
  unfold MCP.call_tool, MCP.is_server_connected.
  destruct (dict_get server_name (MCP.clients m)) as [c|] eqn:E;
    [|reflexivity].
  destruct (kept_client _ Hm _ _ E) as (Hs & Hse & _).
  unfold MCP.client_call_tool. rewrite Hs, Hse. reflexivity.
Qed.

(** X27. [connect_server], in every state the manager reaches: for a name
    that is not configured, or when the probe of the server fails, it
    answers false and the manager is unchanged, so that a server that was
    connected before stays connected; otherwise it answers true, the
    server is then connected and no other server is affected. A
    [disconnect_server] after a successful connection of a server that was
    not connected before gives back the manager as it was; disconnecting a
    server that is not connected changes nothing. *)
Theorem connect_disconnect_round_trip (ops : list MCP.Op)
    (server_name : string) (probe : option Z) :
  let m := MCP.run MCP.init ops in
  let r := MCP.connect_server m server_name probe in
  (fst r = (dict_mem server_name (MCP.configs m) && healthy probe)%bool) /\
  (fst r = false -> snd r = m) /\
  (fst r = true ->
   MCP.is_server_connected (snd r) server_name = true /\
   (forall other, other <> server_name ->
      dict_get other (MCP.clients (snd r)) =
      dict_get other (MCP.clients m)) /\
   (MCP.is_server_connected m server_name = false ->
    MCP.disconnect_server (snd r) server_name = m)) /\
  (MCP.is_server_connected m server_name = false ->
   MCP.disconnect_server m server_name = m) /\
  MCP.is_server_connected (MCP.disconnect_server m server_name) server_name
    = false.
Proof.
  intros m r. assert (Hm : kept m) by (apply run_kept, init_kept).
  subst r.
  split; [|split; [|split; [|split]]].
  - destruct (connect_server_cases m server_name probe)
      as [[[Hc|Hp] ->]|(config & Hc & Hp & ->)]; cbn; unfold dict_mem.
    + now rewrite Hc.
    + rewrite Hp. now rewrite Bool.andb_false_r.
    + now rewrite Hc, Hp.
  - destruct (connect_server_cases m server_name probe)
      as [[_ ->]|(config & _ & _ & ->)]; [reflexivity|discriminate].
  - destruct (connect_server_cases m server_name probe)
      as [[_ ->]|(config & Hc & Hp & ->)]; [discriminate|].
    intros _. cbn [snd]. split; [|split].
    + unfold MCP.is_server_connected. cbn.
      now rewrite dict_get_set_eq.
    + intros other Hne. cbn. apply dict_get_set_neq. now apply not_eq_sym.
    + intro Hnot. rewrite (kept_connected _ _ Hm) in Hnot.
      unfold MCP.disconnect_server. cbn.
      assert (Hmem : dict_mem server_name
                (dict_set server_name
                   (MCP.mkClient config MCP.CONNECTED true) (MCP.clients m))
              = true)
        by (unfold dict_mem; now rewrite dict_get_set_eq).
      rewrite Hmem. rewrite (dict_del_set_new _ _ _ Hnot).
      now destruct m.
  - intro Hnot. rewrite (kept_connected _ _ Hm) in Hnot.
    unfold MCP.disconnect_server. now rewrite Hnot.
  - rewrite kept_connected by now apply disconnect_server_kept.
    unfold MCP.disconnect_server.
    destruct (dict_mem server_name (MCP.clients m)) eqn:E; [|exact E].
    cbn. apply dict_mem_false. apply dict_get_del_eq.
    apply (kept_nodup _ Hm).
Qed.

Lemma connect_disconnect_round_trip_witness :
  let m := MCP.run MCP.init [MCP.Connect "arxiv" (Some 200)] in
  let r := MCP.connect_server m "fetch" (Some 200) in
  fst r = true /\
  MCP.is_server_connected (snd r) "fetch" = true /\
  MCP.disconnect_server (snd r) "fetch" = m.
Proof.
  intros m r.
  destruct (connect_disconnect_round_trip [MCP.Connect "arxiv" (Some 200)]
              "fetch" (Some 200)) as (H1 & _ & H3 & _).
  split; [exact H1|].
  destruct (H3 H1) as (Hc & _ & Hd).
  split; [exact Hc|]. apply Hd. reflexivity.
Defined.

Lemma disconnect_fold_clients (names : list string) : forall m,
  NoDup (dict_keys (MCP.clients m)) ->
  forall n,
    dict_get n (MCP.clients (fold_left MCP.disconnect_server names m)) =
    if existsb (String.eqb n) names then None
    else dict_get n (MCP.clients m).
Proof.
  induction names as [|k names IH]; intros m Hnd n; [reflexivity|].
  cbn [fold_left existsb].
  assert (Hnd1 : NoDup (dict_keys (MCP.clients
                                     (MCP.disconnect_server m k)))).
  { unfold MCP.disconnect_server.
    destruct (dict_mem k (MCP.clients m)); [|exact Hnd].
    now apply dict_del_NoDup. }
  rewrite (IH _ Hnd1 n).
  destruct (existsb (String.eqb n) names);
    [now rewrite Bool.orb_true_r|].
  rewrite Bool.orb_false_r.
  unfold MCP.disconnect_server.
  destruct (String.eqb_spec n k) as [->|Hne].
  - destruct (dict_mem k (MCP.clients m)) eqn:E.
    + cbn. now apply dict_get_del_eq.
    + now apply dict_mem_false.
  - destruct (dict_mem k (MCP.clients m)); [|reflexivity].
    cbn. apply dict_get_del_neq. now apply not_eq_sym.
Qed.

(** X28. [disconnect_all_servers], in every state the manager reaches,
    leaves no server connected: afterwards the manager holds no client,
    every status is [DISCONNECTED], every [call_tool] raises, and the
    configuration is untouched. *)
Theorem disconnect_all_leaves_none (ops : list MCP.Op) :
  let m := MCP.run MCP.init ops in
  let m' := MCP.disconnect_all_servers m in
  MCP.configs m' = MCP.configs m /\
  forall server_name,
    dict_get server_name (MCP.clients m') = None /\
    MCP.is_server_connected m' server_name = false /\
    MCP.get_server_status m' server_name = MCP.DISCONNECTED /\
    forall tool_name post,
      MCP.call_tool m' server_name tool_name post =
      Raise ("Server " ++ server_name ++ " not connected").
Proof.
  intros m m'. assert (Hm : kept m) by (apply run_kept, init_kept).
  assert (Hm' : kept m') by now apply disconnect_fold_kept.
  split.
  { rewrite (kept_configs _ Hm'). symmetry. apply (kept_configs _ Hm). }
  intro n.
  assert (Hnone : dict_get n (MCP.clients m') = None).
  { subst m'. unfold MCP.disconnect_all_servers.
    rewrite (disconnect_fold_clients _ _ (kept_nodup _ Hm) n).
    destruct (existsb (String.eqb n) (dict_keys (MCP.clients m))) eqn:E;
      [reflexivity|].
    apply dict_get_None. intro Hin.
    assert (Ht : existsb (String.eqb n) (dict_keys (MCP.clients m)) = true).
    { apply existsb_exists. exists n. split; [exact Hin|].
      apply String.eqb_refl. }
    congruence. }
  split; [exact Hnone|].
  unfold MCP.is_server_connected, MCP.get_server_status, MCP.call_tool.
  rewrite Hnone. repeat split.
Qed.

Lemma dict_keys_set_new {V : Type} (d : Dict V) (k : string) (v : V) :
  dict_get k d = None -> dict_keys (dict_set k v d) = (dict_keys d ++ [k])%list.
Proof.
  induction d as [|[k' v'] d IH]; simpl; [reflexivity|].
  destruct (String.eqb k' k); [discriminate|].
  intro Hn. simpl. now rewrite IH.
Qed.

Lemma existsb_keys_mem {V : Type} (d : Dict V) (n : string) :
  existsb (String.eqb n) (dict_keys d) = dict_mem n d.
Proof.
  unfold dict_mem, dict_keys.
  induction d as [|[k v] d IH]; [reflexivity|].
  simpl. rewrite (String.eqb_sym n k).
  destruct (String.eqb k n); [reflexivity|exact IH].
Qed.

Lemma connect_server_connected (m : MCP.t) (n : string) (probe : option Z)
    (x : string) :
  kept m ->
  MCP.is_server_connected (snd (MCP.connect_server m n probe)) x =
  (MCP.is_server_connected m x ||
   (String.eqb x n && dict_mem n (MCP.configs m) && healthy probe))%bool.
Proof.
  intro Hm.
  destruct (connect_server_cases m n probe)
    as [[[Hc|Hp] ->]|(config & Hc & Hp & ->)]; cbn [snd]; unfold dict_mem.
  - rewrite Hc. now rewrite Bool.andb_false_r, Bool.orb_false_r.
  - rewrite Hp. now rewrite Bool.andb_false_r, Bool.orb_false_r.
  - rewrite Hc, Hp, !Bool.andb_true_r.
    unfold MCP.is_server_connected. cbn.
    destruct (String.eqb_spec x n) as [->|Hne].
    + rewrite dict_get_set_eq. cbn. now rewrite Bool.orb_true_r.
    + rewrite dict_get_set_neq by now apply not_eq_sym.
      now rewrite Bool.orb_false_r.
Qed.

Lemma connect_fold_spec (probes : string -> option Z) (names : list string) :
  forall (results : Dict bool) (m : MCP.t),
    kept m ->
    NoDup names ->
    (forall n, In n names -> dict_get n results = None) ->
    let r := fold_left (MCP.connect_next probes) names (results, m) in
    dict_keys (fst r) = (dict_keys results ++ names)%list /\
    (forall n,
       dict_get n (fst r) =
       if existsb (String.eqb n) names
       then Some (dict_mem n (MCP.configs m) && healthy (probes n))%bool
       else dict_get n results) /\
    (forall n,
       MCP.is_server_connected (snd r) n =
       (MCP.is_server_connected m n ||
        (existsb (String.eqb n) names && dict_mem n (MCP.configs m) &&
         healthy (probes n)))%bool).
Proof.
  induction names as [|k names IH]; intros results m Hm Hnd Hfresh.
  - cbn. rewrite app_nil_r. split; [reflexivity|]. split; [reflexivity|].
    intro n. now rewrite Bool.orb_false_r.
  - inversion Hnd as [|? ? Hk Hnd']; subst. cbn [fold_left].
    unfold MCP.connect_next at 2 4 6.
    pose proof (connect_server_kept m k (probes k) Hm) as Hm1.
    pose proof (fun x => connect_server_connected m k (probes k) x Hm)
      as Hconn.
    assert (Hok : fst (MCP.connect_server m k (probes k)) =
                  (dict_mem k (MCP.configs m) && healthy (probes k))%bool).
    { destruct (connect_server_cases m k (probes k))
        as [[[Hc|Hp] ->]|(config & Hc & Hp & ->)]; cbn; unfold dict_mem.
      - now rewrite Hc.
      - rewrite Hp. now rewrite Bool.andb_false_r.
      - now rewrite Hc, Hp. }
    assert (Hcfg : MCP.configs (snd (MCP.connect_server m k (probes k))) =
                   MCP.configs m).
    { rewrite (kept_configs _ Hm1). symmetry. apply (kept_configs _ Hm). }
    destruct (MCP.connect_server m k (probes k)) as [ok m1].
    cbn [fst snd] in *. subst ok.
    specialize (IH (dict_set k (dict_mem k (MCP.configs m) &&
                                healthy (probes k))%bool results)
                   m1 Hm1 Hnd').
    destruct IH as (I1 & I2 & I3).
    { intros n Hn. rewrite dict_get_set_neq; [apply Hfresh; now right|].
      intros ->. contradiction. }
    split; [|split].
    + rewrite I1, dict_keys_set_new by (apply Hfresh; now left).
      now rewrite <- app_assoc.
    + intro n. rewrite I2, Hcfg. cbn [existsb].
      destruct (existsb (String.eqb n) names) eqn:E;
        [now rewrite Bool.orb_true_r|].
      rewrite Bool.orb_false_r.
      destruct (String.eqb_spec n k) as [->|Hne].
      * now rewrite dict_get_set_eq.
      * rewrite dict_get_set_neq by now apply not_eq_sym. reflexivity.
    + intro n. rewrite I3, Hconn, Hcfg. cbn [existsb].
      destruct (String.eqb_spec n k) as [->|Hne]; cbn.
      * assert (E : existsb (String.eqb k) names = false).
        { destruct (existsb (String.eqb k) names) eqn:E; [|reflexivity].
          exfalso. apply Hk. apply existsb_exists in E.
          destruct E as (y & Hy & Ey). apply String.eqb_eq in Ey.
          now subst. }
        rewrite E. cbn. now rewrite Bool.orb_false_r.
      * now rewrite Bool.orb_false_r.
Qed.

(** X29. [connect_all_servers], in every state the manager reaches,
    reports on each of the six configured servers, in the order of the
    configuration, whether its probe succeeded; afterwards a server is
    connected exactly when it was connected before or its probe succeeded:
    a failed attempt does not disconnect a server that was connected. *)
Theorem connect_all_reports_every_server (ops : list MCP.Op)
    (probes : string -> option Z) :
  let m := MCP.run MCP.init ops in
  let r := MCP.connect_all_servers m probes in
  dict_keys (fst r) =
    ["arxiv"; "playwright"; "unstructured"; "fetch"; "tinybird"; "piloty"] /\
  (forall n,
     dict_get n (fst r) =
     if dict_mem n MCP._setup_default_configs
     then Some (healthy (probes n)) else None) /\
  (forall n,
     MCP.is_server_connected (snd r) n =
     (MCP.is_server_connected m n ||
      (dict_mem n MCP._setup_default_configs && healthy (probes n)))%bool).
Proof.
  intros m r. assert (Hm : kept m) by (apply run_kept, init_kept).
  subst r. unfold MCP.connect_all_servers.
  assert (Hnd : NoDup (dict_keys (MCP.configs m))).
  { rewrite (kept_configs _ Hm).
    repeat constructor; simpl; intuition discriminate. }
  destruct (connect_fold_spec probes (dict_keys (MCP.configs m)) [] m Hm Hnd
              (fun _ _ => eq_refl)) as (H1 & H2 & H3).
  assert (Hmem : forall n,
            existsb (String.eqb n) (dict_keys (MCP.configs m)) =
            dict_mem n (MCP.configs m)).
  { intro n. apply existsb_keys_mem. }
  split; [|split].
  - etransitivity; [exact H1|]. cbn [dict_keys map app].
    now rewrite (kept_configs _ Hm).
  - intro n. etransitivity; [exact (H2 n)|].
    rewrite Hmem, (kept_configs _ Hm).
    now destruct (dict_mem n MCP._setup_default_configs).
  - intro n. etransitivity; [exact (H3 n)|].
    rewrite Hmem, (kept_configs _ Hm).
    now destruct (dict_mem n MCP._setup_default_configs).
Qed.

(** ** Download agent: statistics *)

Lemma filter_length_le (A : Type) (f : A -> bool) (l : list A) :
  (List.length (filter f l) <= List.length l)%nat.
Proof.
  induction l as [|x l IH]; simpl; [lia|]. destruct (f x); simpl; lia.
Qed.

(** X30. The statistics of [get_download_stats] agree with each other:
    [total_downloads] is the length of the history and equals
    [successful_downloads + failed_downloads], both of which are not
    negative; [success_rate] lies between 0 and 100, and is 100 exactly
    when there is at least one download and none has failed; with an empty
    history the rate and both averages are 0. *)
Theorem download_stats_agree (self : Agent.t) :
  let s := Agent.get_download_stats self in
  Agent.stats_total_downloads s =
    Z.of_nat (List.length (Agent.download_history self)) /\
  Agent.stats_total_downloads s =
    Agent.stats_successful_downloads s + Agent.stats_failed_downloads s /\
  0 <= Agent.stats_successful_downloads s /\
  0 <= Agent.stats_failed_downloads s /\
  (0 <= Agent.stats_success_rate s <= 100)%Q /\
  ((Agent.stats_success_rate s == 100)%Q <->
   0 < Agent.stats_total_downloads s /\ Agent.stats_failed_downloads s = 0) /\
  (Agent.download_history self = [] ->
   (Agent.stats_success_rate s == 0)%Q /\
   (Agent.stats_average_file_size_mb s == 0)%Q /\
   (Agent.stats_average_download_time s == 0)%Q).
Proof.
  intro s. subst s. unfold Agent.get_download_stats.
  set (history := Agent.download_history self).
  set (n := Z.of_nat (List.length history)).
  set (k := Z.of_nat (List.length (filter Agent.success history))).
  assert (Hk : 0 <= k <= n).
  { subst k n. pose proof (filter_length_le _ Agent.success history). lia. }
  set (d := inject_Z (Z.max n 1)).
  assert (Hd : (0 < d)%Q).
  { subst d. change 0%Q with (inject_Z 0). rewrite <- Zlt_Qlt. lia. }
  assert (Hkd : (inject_Z k <= d)%Q)
    by (subst d; rewrite <- Zle_Qle; lia).
  assert (Hk0 : (0 <= inject_Z k)%Q)
    by (change 0%Q with (inject_Z 0); rewrite <- Zle_Qle; lia).
  assert (Hlo : (0 <= inject_Z k / d)%Q).
  { apply Qle_shift_div_l; [exact Hd|]. lra. }
  assert (Hhi : (inject_Z k / d <= 1)%Q).
  { apply Qle_shift_div_r; [exact Hd|]. lra. }
  assert (Hone : (inject_Z k / d == 1)%Q <-> 0 < n /\ n - k = 0).
  { split.
    - intro E.
      assert (E1 : (inject_Z k == d)%Q).
      { rewrite <- (Qmult_div_r (inject_Z k) d) by lra. rewrite E. lra. }
      subst d. unfold Qeq in E1. cbn in E1. lia.
    - intros [Hn Hf]. assert (k = n) by lia.
      subst d. replace (Z.max n 1) with k by lia.
      unfold Qdiv. apply Qmult_inv_r.
      intro E. unfold Qeq in E. cbn in E. lia. }
  cbv zeta.
  set (pair := match history with
               | [] => (0%Q, 0%Q)
               | _ :: _ => _
               end).
  assert (Hcases : history = [] ->
                   (fst pair / inject_Z (1024 ^ 2) == 0)%Q /\
                   (snd pair == 0)%Q).
  { subst pair. destruct history; [|discriminate].
    intros _. split; reflexivity. }
  destruct pair as [avg_size avg_time]. cbn [fst snd] in Hcases.
  cbn [Agent.stats_total_downloads Agent.stats_successful_downloads
       Agent.stats_failed_downloads Agent.stats_success_rate
       Agent.stats_average_file_size_mb Agent.stats_average_download_time].
  fold d.
  split; [reflexivity|]. split; [lia|]. split; [lia|]. split; [lia|].
  split; [split; lra|]. split.
  - rewrite <- Hone. split; intro E; lra.
  - intro Hnil. destruct (Hcases Hnil) as [Hs Ht].
    split; [|split; assumption].
    assert (Hz : (inject_Z k == 0)%Q).
    { unfold k. now rewrite Hnil. }
    rewrite Hz. unfold Qdiv. ring.
Qed.

Lemma download_stats_agree_witness :
  let r := Agent.mkResult "u" (Some "p") true 10 None None 0 0 in
  let s := Agent.get_download_stats
             (Agent.with_history [r; r] (Agent.init "papers")) in
  (Agent.stats_success_rate s == 100)%Q.
Proof.
  intros r s.
  destruct (download_stats_agree
              (Agent.with_history [r; r] (Agent.init "papers")))
    as (_ & _ & _ & _ & _ & H6 & _).
  apply H6. split; reflexivity.
Defined.
